(** * pkgbuild.py: a shallow embedding of the packaging pipeline

    The development follows the layout of [pkgbuild.py].  Part I is the
    embedding of the script:
    - [Re]: the fragment of Python's [re] module the script relies on
      (a backtracking matcher with capture groups);
    - [PyStr]: string helpers ([os.path.join], [basename], the [%] operator);
    - [Fs]: the file system as a tree, and the world the stages act on;
    - [ServiceManifest]: the SMF descriptor and [generate_manifest];
    - [PrototypeFile], [Package]: construction, the stages and [package];
    - [PkgBuild]: the dispatcher of [PkgBuild.main].
    Part II states and proves the properties of the embedding. *)

From Stdlib Require Import Ascii String ZArith Lia Bool.
From Stdlib Require Import Numbers.DecimalString.
From stdpp Require Import base tactics option list gmap strings.

Local Open Scope list_scope.

(** * Part I: the embedding *)

(** ** Characters and strings as lists *)

Abbreviation chars := String.list_ascii_of_string.
Abbreviation str := String.string_of_list_ascii.

(** ** Exceptions and results *)

Inductive exn : Type :=
| Exception (msg : string)
| TypeError (msg : string)
| ValueError (msg : string)
| KeyError (key : string)
| AssertionError
| OSError (msg : string)
| CommandFailed (args : list string).

Inductive result (A : Type) : Type :=
| Ok (a : A)
| Raise (e : exn).
Arguments Ok {A} a.
Arguments Raise {A} e.

(** Results compose as in the script: the first exception ends the
    computation. *)
Definition rbind {A B} (r : result A) (k : A → result B) : result B :=
  match r with
  | Ok a => k a
  | Raise e => Raise e
  end.

Notation "x <-- r ;; k" := (rbind r (λ x, k))
  (at level 100, r at next level, k at level 200, right associativity).

(** ** The regular expressions of [re] used by the script *)

Module Re.

(** Abstract syntax of the patterns.  [Class neg rs] is a bracket
    expression: [rs] lists inclusive character ranges and [neg] is set for
    a leading [^].  [Plus] is the greedy [+], [PlusLazy] is [+?]. *)
Inductive regex : Type :=
| Eps
| Lit (c : ascii)
| Class (neg : bool) (rs : list (ascii * ascii))
| Cat (r1 r2 : regex)
| Alt (r1 r2 : regex)
| Plus (r : regex)
| PlusLazy (r : regex)
| Group (n : nat) (r : regex)
| Eol.

(** Captures: the most recent binding of a group comes first. *)
Definition caps : Type := list (nat * list ascii).

(** One way of matching: the text consumed, the text left, the groups
    bound on the way. *)
Definition outcome : Type := (list ascii * list ascii * caps)%type.

Definition in_range (a : ascii) (r : ascii * ascii) : bool :=
  (N.leb (N_of_ascii (fst r)) (N_of_ascii a)
   && N.leb (N_of_ascii a) (N_of_ascii (snd r)))%bool.

Definition in_class (neg : bool) (rs : list (ascii * ascii)) (a : ascii) : bool :=
  xorb neg (existsb (in_range a) rs).

(** [$] without [re.MULTILINE]: the end of the string, or just before a
    newline that ends the string. *)
Definition at_eol (s : list ascii) : bool :=
  match s with
  | [] => true
  | [c] => Ascii.eqb c "010"%char
  | _ => false
  end.

Definition step_char (ok : ascii → bool) (s : list ascii) : list outcome :=
  match s with
  | a :: s' => if ok a then [([a], s', [])] else []
  | [] => []
  end.

Definition glue (o o2 : outcome) : outcome :=
  let '(c1, _, g1) := o in
  let '(c2, s2, g2) := o2 in (c1 ++ c2, s2, g2 ++ g1).

(** Continue the match [o] with [k] on what [o] left. *)
Definition then_ (o : outcome) (k : list ascii → list outcome) : list outcome :=
  map (glue o) (k (snd (fst o))).

(** [r+]: one more round of [body], then (greedy) first try to go on and
    only then stop here.  Every round of a body that can match consumes
    input, so [S (length s)] rounds of fuel are never used up. *)
Fixpoint plus_loop (body : list ascii → list outcome) (fuel : nat)
    (s : list ascii) : list outcome :=
  match fuel with
  | O => []
  | S fuel' => flat_map (λ o, then_ o (plus_loop body fuel') ++ [o]) (body s)
  end.

(** [r+?]: as [plus_loop], but stopping is tried before going on. *)
Fixpoint plus_lazy_loop (body : list ascii → list outcome) (fuel : nat)
    (s : list ascii) : list outcome :=
  match fuel with
  | O => []
  | S fuel' => flat_map (λ o, o :: then_ o (plus_lazy_loop body fuel')) (body s)
  end.

Definition bind_group (n : nat) (o : outcome) : outcome :=
  let '(c, s', g) := o in (c, s', (n, c) :: g).

(** The backtracking search, as the list of all the ways [r] matches a
    prefix of [s], in the order in which [re] tries them: the head is the
    match [re] reports. *)
Fixpoint exec (r : regex) (s : list ascii) : list outcome :=
  match r with
  | Eps => [([], s, [])]
  | Lit c => step_char (Ascii.eqb c) s
  | Class neg rs => step_char (in_class neg rs) s
  | Cat r1 r2 => flat_map (λ o, then_ o (exec r2)) (exec r1 s)
  | Alt r1 r2 => exec r1 s ++ exec r2 s
  | Plus r1 => plus_loop (exec r1) (S (length s)) s
  | PlusLazy r1 => plus_lazy_loop (exec r1) (S (length s)) s
  | Group n r1 => map (bind_group n) (exec r1 s)
  | Eol => if at_eol s then [([], s, [])] else []
  end.

(** A pattern made of ordinary characters only. *)
Definition lits (s : string) : regex :=
  foldr (λ c r, Cat (Lit c) r) Eps (chars s).

(** The characters that are operators of the pattern language. *)
Definition is_meta (c : ascii) : bool :=
  existsb (Ascii.eqb c) (chars ".^$*+?{}[]\|()").

(** [re.compile] on the patterns that hold no operator: each character
    stands for itself.  Other patterns are written out as a [regex] where
    the script uses them. *)
Definition compile_plain (pattern : string) : option regex :=
  if existsb is_meta (chars pattern) then None else Some (lits pattern).

(** The match object of [re.match]: [group(0)] and the numbered groups. *)
Record match_object : Type := MatchObject {
  group0 : string;
  groups : caps;
}.

Fixpoint lookup_cap (n : nat) (g : caps) : option (list ascii) :=
  match g with
  | [] => None
  | (k, c) :: g' => if Nat.eqb k n then Some c else lookup_cap n g'
  end.

(** [m.group(n)]; [None] stands for a group that took no part in the
    match. *)
Definition group (m : match_object) (n : nat) : option string :=
  match n with
  | O => Some (group0 m)
  | _ => option_map str (lookup_cap n (groups m))
  end.

(** [re.match(pattern, string)]: anchored at the start, [None] when the
    search is exhausted. *)
Definition re_match (r : regex) (s : string) : option match_object :=
  match exec r (chars s) with
  | (c, _, g) :: _ => Some (MatchObject (str c) g)
  | [] => None
  end.

End Re.

(** ** Strings: [os.path] and the [%] operator *)

Module PyStr.

Definition dq : ascii := "034"%char.
Definition nl : string := String "010"%char EmptyString.

(** The templates of the script hold double quotes.  They are written here
    with a backquote in each such place, and [tpl] puts the quotes back. *)
Fixpoint tpl (s : string) : string :=
  match s with
  | EmptyString => EmptyString
  | String c s' => String (if Ascii.eqb c "`" then dq else c) (tpl s')
  end.

(** The truth value of an optional string: [None] and the empty string are
    false. *)
Definition truthy (o : option string) : bool :=
  match o with
  | Some s => negb (String.eqb s EmptyString)
  | None => false
  end.

(** [s.startswith(p)] *)
Definition startswith (p s : string) : bool := String.prefix p s.

(** [p in s] *)
Fixpoint contains (p s : string) : bool :=
  String.prefix p s
  || match s with
     | EmptyString => false
     | String _ s' => contains p s'
     end.

Fixpoint endswith_slash (s : string) : bool :=
  match s with
  | EmptyString => false
  | String c EmptyString => Ascii.eqb c "/"
  | String _ s' => endswith_slash s'
  end.

(** [posixpath.join(a, b)] *)
Definition join (a b : string) : string :=
  if startswith "/" b then b
  else if (String.eqb a EmptyString || endswith_slash a)%bool then a +:+ b
  else a +:+ "/" +:+ b.

Definition has_slash (s : string) : bool :=
  existsb (Ascii.eqb "/") (chars s).

(** [posixpath.basename(p)]: what follows the last slash. *)
Fixpoint basename (s : string) : string :=
  match s with
  | EmptyString => EmptyString
  | String c s' => if has_slash s then basename s' else s
  end.

(** [s[n:]] *)
Fixpoint slice_from (n : nat) (s : string) : string :=
  match n, s with
  | O, _ => s
  | S n', String _ s' => slice_from n' s'
  | S _, EmptyString => EmptyString
  end.

(** [re.sub('\.', '-', s)] *)
Fixpoint sub_dot_dash (s : string) : string :=
  match s with
  | EmptyString => EmptyString
  | String c s' => String (if Ascii.eqb c "." then "-"%char else c) (sub_dot_dash s')
  end.

(** [str(n)] for an integer. *)
Definition str_of_int (z : Z) : string := NilZero.string_of_int (Z.to_int z).

(** *** The [%] operator

    The fragment the script uses: [%s], [%d], [%(key)s], [%(key)d] and
    [%%], applied to a tuple of values or to a dictionary. *)

Inductive pyval : Type :=
| PStr (s : string)
| PInt (z : Z).

Inductive fmt_args : Type :=
| Args (vs : list pyval)
| Mapping (d : list (string * pyval)).

Inductive fmt_state : Type :=
| Text
| Percent (key : option string)
| Key (acc : string).

Fixpoint dict_get (k : string) (d : list (string * pyval)) : option pyval :=
  match d with
  | [] => None
  | (k', v) :: d' => if String.eqb k k' then Some v else dict_get k d'
  end.

(** The value a conversion consumes, and the arguments left. *)
Definition take_arg (key : option string) (args : fmt_args)
    : result (pyval * fmt_args) :=
  match key, args with
  | None, Args (v :: vs) => Ok (v, Args vs)
  | None, Args [] => Raise (TypeError "not enough arguments for format string")
  | None, Mapping _ => Raise (TypeError "not enough arguments for format string")
  | Some k, Mapping d =>
      match dict_get k d with
      | Some v => Ok (v, args)
      | None => Raise (KeyError k)
      end
  | Some _, Args _ => Raise (TypeError "format requires a mapping")
  end.

Definition conv_s (v : pyval) : string :=
  match v with
  | PStr s => s
  | PInt z => str_of_int z
  end.

Definition conv_d (v : pyval) : result string :=
  match v with
  | PInt z => Ok (str_of_int z)
  | PStr _ => Raise (TypeError "%d format: a number is required, not str")
  end.

Definition prepend (s : string) (r : result string) : result string :=
  match r with
  | Ok t => Ok (s +:+ t)
  | Raise e => Raise e
  end.

Fixpoint fmt_go (t : string) (st : fmt_state) (args : fmt_args) : result string :=
  match t with
  | EmptyString =>
      match st with
      | Text =>
          match args with
          | Args (_ :: _) =>
              Raise (TypeError "not all arguments converted during string formatting")
          | _ => Ok EmptyString
          end
      | _ => Raise (ValueError "incomplete format")
      end
  | String c t' =>
      match st with
      | Text =>
          if Ascii.eqb c "%" then fmt_go t' (Percent None) args
          else prepend (String c EmptyString) (fmt_go t' Text args)
      | Key acc =>
          if Ascii.eqb c ")" then fmt_go t' (Percent (Some acc)) args
          else fmt_go t' (Key (acc +:+ String c EmptyString)) args
      | Percent key =>
          if Ascii.eqb c "(" then fmt_go t' (Key EmptyString) args
          else if Ascii.eqb c "%" then prepend "%" (fmt_go t' Text args)
          else if Ascii.eqb c "s" then
            match take_arg key args with
            | Ok (v, args') => prepend (conv_s v) (fmt_go t' Text args')
            | Raise e => Raise e
            end
          else if Ascii.eqb c "d" then
            match take_arg key args with
            | Ok (v, args') =>
                match conv_d v with
                | Ok s => prepend s (fmt_go t' Text args')
                | Raise e => Raise e
                end
            | Raise e => Raise e
            end
          else Raise (ValueError "unsupported format character")
      end
  end.

(** [template % args] *)
Definition fmt (template : string) (args : fmt_args) : result string :=
  fmt_go template Text args.

(** The path as the list of its components. *)
Definition flush (cur : string) : list string :=
  match cur with
  | EmptyString => []
  | _ => [cur]
  end.

Fixpoint components_go (s : string) (cur : string) : list string :=
  match s with
  | EmptyString => flush cur
  | String c s' =>
      if Ascii.eqb c "/" then flush cur ++ components_go s' EmptyString
      else components_go s' (cur +:+ String c EmptyString)
  end.

Definition components (s : string) : list string := components_go s EmptyString.

End PyStr.

Import PyStr.

(** ** The file system and the world of a run *)

Module Fs.

Record stat : Type := Stat {
  st_uid : Z;
  st_gid : Z;
  st_mode : Z;
}.

(** A file system is a tree; a directory lists its entries in the order
    [os.listdir] reports them. *)
#[warnings="-register-all"]
Inductive node : Type :=
| File (st : stat) (content : string)
| Dir (st : stat) (entries : list (string * node)).

Definition path : Type := list string.

Definition node_stat (n : node) : stat :=
  match n with
  | File st _ => st
  | Dir st _ => st
  end.

Definition is_dir (n : node) : bool :=
  match n with
  | Dir _ _ => true
  | File _ _ => false
  end.

Fixpoint assoc (x : string) (es : list (string * node)) : option node :=
  match es with
  | [] => None
  | (y, c) :: es' => if String.eqb x y then Some c else assoc x es'
  end.

Fixpoint set_entry (x : string) (n : node) (es : list (string * node))
    : list (string * node) :=
  match es with
  | [] => [(x, n)]
  | (y, c) :: es' =>
      if String.eqb x y then (y, n) :: es' else (y, c) :: set_entry x n es'
  end.

Fixpoint del_entry (x : string) (es : list (string * node))
    : list (string * node) :=
  match es with
  | [] => []
  | (y, c) :: es' =>
      if String.eqb x y then es' else (y, c) :: del_entry x es'
  end.

Fixpoint lookup (p : path) (t : node) : option node :=
  match p with
  | [] => Some t
  | x :: p' =>
      match t with
      | Dir _ es =>
          match assoc x es with
          | Some c => lookup p' c
          | None => None
          end
      | File _ _ => None
      end
  end.

(** Replace the node at [p] by what [f] makes of it; [None] when there is
    no such node or [f] refuses. *)
Fixpoint alter_node (f : node → option node) (p : path) (t : node) : option node :=
  match p with
  | [] => f t
  | x :: p' =>
      match t with
      | Dir st es =>
          match assoc x es with
          | Some c =>
              match alter_node f p' c with
              | Some c' => Some (Dir st (set_entry x c' es))
              | None => None
              end
          | None => None
          end
      | File _ _ => None
      end
  end.

Definition set_owner (uid gid : Z) (n : node) : node :=
  match n with
  | File st c => File (Stat uid gid (st_mode st)) c
  | Dir st es => Dir (Stat uid gid (st_mode st)) es
  end.

(** [chmod] changes the permission bits and leaves the file type alone. *)
Definition perm_mask : Z := 4095.

Definition chmod_mode (old new : Z) : Z :=
  Z.lor (Z.land old (Z.lnot perm_mask)) (Z.land new perm_mask).

Definition set_mode (mode : Z) (n : node) : node :=
  match n with
  | File st c => File (Stat (st_uid st) (st_gid st) (chmod_mode (st_mode st) mode)) c
  | Dir st es => Dir (Stat (st_uid st) (st_gid st) (chmod_mode (st_mode st) mode)) es
  end.

(** Put [n] under the name [x] in the directory [d]. *)
Definition add_entry (x : string) (n : node) (d : node) : option node :=
  match d with
  | Dir st es => Some (Dir st (set_entry x n es))
  | File _ _ => None
  end.

Definition remove_entry (x : string) (d : node) : option node :=
  match d with
  | Dir st es => Some (Dir st (del_entry x es))
  | File _ _ => None
  end.

Definition parent (p : path) : path := removelast p.
Definition leaf (p : path) : string := List.last p EmptyString.

(** [os.walk(top)], top down: for each directory its path, the names of
    its subdirectories and the names of its files. *)
Fixpoint walk (top : string) (t : node) : list (string * list string * list string) :=
  match t with
  | Dir _ es =>
      (top,
       map fst (List.filter (λ e, is_dir (snd e)) es),
       map fst (List.filter (λ e, negb (is_dir (snd e))) es))
      :: flat_map (λ e, let '(x, c) := e in
                        match c with
                        | Dir _ _ => walk (join top x) c
                        | File _ _ => []
                        end) es
  | File _ _ => []
  end.

End Fs.

Import Fs.

(** The state the script acts on: the file system, the working directory,
    the list objects of the descriptors (by address), and a record of the
    run: the external commands started so far and, for those that [shell]
    has run to completion, the exit status it was given. *)
Record World : Type := MkWorld {
  fs : node;
  cwd : string;
  heap : gmap nat (list string);
  started : list (list string);
  ended : list (list string * Z);
}.

(** A world in which nothing has been run yet. *)
Definition mkWorld (t : node) (d : string) (h : gmap nat (list string))
    (s : list (list string)) : World :=
  MkWorld t d h s [].

(** What lies outside the script: the external programs and the attributes
    the system gives to what the script creates.  A program is given its
    arguments, the working directory and the file system, and leaves an exit
    status and a file system.  [run_cmd] is a command run to completion;
    [run_reader] is a process whose standard output the script reads, line
    by line; [run_pipe] is a process whose output is shuttled into the input
    of a second one.  The exit statuses of the last two are what the
    processes end with; the script keeps no handle to ask for them.  Every
    program the script names is taken to be there to be started, and a
    process behind a pipe to take all of its input: [Popen] and the writes
    into the pipe raise nothing. *)
Record Env : Type := mkEnv {
  run_cmd : list string → string → node → Z * node;
  run_reader : list string → string → node → list string * Z * node;
  run_pipe : list string → list string → string → node → Z * Z * node;
  mkdir_stat : stat;
  creat_stat : stat;
}.

(** Computations of the script: a world in, a value or an exception and a
    world out. *)
Definition M (A : Type) : Type := World → result A * World.

Definition ret {A} (a : A) : M A := λ w, (Ok a, w).
Definition raise {A} (e : exn) : M A := λ w, (Raise e, w).
Definition bind {A B} (m : M A) (k : A → M B) : M B :=
  λ w, match m w with
       | (Ok a, w') => k a w'
       | (Raise e, w') => (Raise e, w')
       end.
Definition get : M World := λ w, (Ok w, w).
Definition put (w : World) : M unit := λ _, (Ok tt, w).

(** [try: m finally: h] *)
Definition finally {A} (m : M A) (h : M unit) : M A :=
  λ w, match m w with
       | (r, w') =>
           match h w' with
           | (Ok _, w'') => (r, w'')
           | (Raise e, w'') => (Raise e, w'')
           end
       end.

Declare Scope M_scope.
Delimit Scope M_scope with M.
Notation "x <- m ;; k" := (bind m (λ x, k))
  (at level 100, m at next level, k at level 200, right associativity) : M_scope.
Notation "m ;; k" := (bind m (λ _, k))
  (at level 100, k at level 200, right associativity) : M_scope.
Local Open Scope M_scope.

(** [for x in l: body x] *)
Fixpoint for_ {A} (l : list A) (body : A → M unit) : M unit :=
  match l with
  | [] => ret tt
  | x :: l' => body x ;; for_ l' body
  end.

Definition when (b : bool) (m : M unit) : M unit := if b then m else ret tt.

Definition lift {A} (r : result A) : M A := λ w, (r, w).

Definition with_fs (t : node) (w : World) : World :=
  MkWorld t (cwd w) (heap w) (started w) (ended w).
Definition with_cwd (d : string) (w : World) : World :=
  MkWorld (fs w) d (heap w) (started w) (ended w).
Definition with_heap (h : gmap nat (list string)) (w : World) : World :=
  MkWorld (fs w) (cwd w) h (started w) (ended w).
Definition with_started (args : list string) (w : World) : World :=
  MkWorld (fs w) (cwd w) (heap w) (started w ++ [args]) (ended w).
Definition with_ended (args : list string) (status : Z) (w : World) : World :=
  MkWorld (fs w) (cwd w) (heap w) (started w) (ended w ++ [(args, status)]).

(** ** [os], [os.path] and [shutil] on the world *)

(** A path as the script writes it, taken from the working directory.  The
    names [.] and [..] are not interpreted and there are no links: the
    model is that of [os] on the paths that hold neither. *)
Definition resolve (w : World) (p : string) : path :=
  components (join (cwd w) p).

(** The empty path names nothing, not even the working directory. *)
Definition named (p : string) : bool := negb (String.eqb p EmptyString).

Definition isfile_in (w : World) (p : string) : bool :=
  named p
  && match lookup (resolve w p) (fs w) with
     | Some (File _ _) => true
     | _ => false
     end.

Definition isdir_in (w : World) (p : string) : bool :=
  named p
  && match lookup (resolve w p) (fs w) with
     | Some (Dir _ _) => true
     | _ => false
     end.

Definition isfile (p : string) : M bool := λ w, (Ok (isfile_in w p), w).
Definition isdir (p : string) : M bool := λ w, (Ok (isdir_in w p), w).
Definition getcwd : M string := λ w, (Ok (cwd w), w).

(** A change of the file system that may fail. *)
Definition change_fs (f : World → option node) (err : string) : M unit :=
  λ w, match f w with
       | Some t => (Ok tt, with_fs t w)
       | None => (Raise (OSError err), w)
       end.

Definition os_stat (p : string) : M stat :=
  λ w, match (if named p then lookup (resolve w p) (fs w) else None) with
       | Some n => (Ok (node_stat n), w)
       | None => (Raise (OSError "stat"), w)
       end.

Definition os_chown (p : string) (uid gid : Z) : M unit :=
  change_fs (λ w, if named p
                  then alter_node (λ n, Some (set_owner uid gid n)) (resolve w p) (fs w)
                  else None)
            "chown".

Definition os_chmod (p : string) (mode : Z) : M unit :=
  change_fs (λ w, if named p
                  then alter_node (λ n, Some (set_mode mode n)) (resolve w p) (fs w)
                  else None)
            "chmod".

Definition os_chdir (p : string) : M unit :=
  λ w, if isdir_in w p then (Ok tt, with_cwd (join (cwd w) p) w)
       else (Raise (OSError "chdir"), w).

(** Create the directories of [p] that are missing. *)
Fixpoint mkdir_p (st : stat) (p : path) (t : node) : option node :=
  match t with
  | File _ _ => None
  | Dir s es =>
      match p with
      | [] => Some t
      | x :: p' =>
          match mkdir_p st p' (default (Dir st []) (assoc x es)) with
          | Some c' => Some (Dir s (set_entry x c' es))
          | None => None
          end
      end
  end.

(** [os.makedirs(p)]: the leaf must not exist yet. *)
Definition os_makedirs (env : Env) (p : string) : M unit :=
  change_fs (λ w, if named p then
                    match lookup (resolve w p) (fs w) with
                    | Some _ => None
                    | None => mkdir_p (mkdir_stat env) (resolve w p) (fs w)
                    end
                  else None) "makedirs".

(** [shutil.rmtree(p)] *)
Definition rmtree (p : string) : M unit :=
  change_fs (λ w, if isdir_in w p
                  then alter_node (remove_entry (leaf (resolve w p)))
                                  (parent (resolve w p)) (fs w)
                  else None) "rmtree".

(** [os.remove(p)] *)
Definition os_remove (p : string) : M unit :=
  change_fs (λ w, if isfile_in w p
                  then alter_node (remove_entry (leaf (resolve w p)))
                                  (parent (resolve w p)) (fs w)
                  else None) "remove".

(** Write [content] to the file at [p], which is created with the
    attributes [st] when it is not there. *)
Definition put_file (st : stat) (content : string) (p : path) (t : node) : option node :=
  match p with
  | [] => None
  | _ =>
      alter_node
        (λ d, match lookup [leaf p] d with
              | Some (Dir _ _) => None
              | Some (File st' _) => add_entry (leaf p) (File st' content) d
              | None => add_entry (leaf p) (File st content) d
              end) (parent p) t
  end.

(** [with open(p, 'w') as fd: fd.write(content)] *)
Definition write_file (env : Env) (p : string) (content : string) : M unit :=
  change_fs (λ w, if named p
                  then put_file (creat_stat env) content (resolve w p) (fs w)
                  else None) "open".

(** [shutil.copy(src, dst)]: the content and the permission bits of [src],
    into [dst] or, when [dst] is a directory, under the name of [src] in
    it. *)
Definition shutil_copy (env : Env) (src dst : string) : M unit :=
  λ w, let target := if isdir_in w dst then join dst (basename src) else dst in
       match (if named src then lookup (resolve w src) (fs w) else None) with
       | Some (File st c) =>
           (write_file env target c ;; os_chmod target (st_mode st)) w
       | _ => (Raise (OSError "copy"), w)
       end.

(** ** [CommandLineApp]: running external programs *)

Module CommandLineApp.
Section WithEnv.
Variable env : Env.

(** [shell]: run to completion; a status other than zero raises. *)
Definition shell (args : list string) : M bool :=
  λ w, let w1 := with_started args w in
       let '(status, t) := run_cmd env args (cwd w1) (fs w1) in
       let w2 := with_ended args status (with_fs t w1) in
       if Z.eqb status 0 then (Ok true, w2)
       else (Raise (CommandFailed args), w2).

(** [for line in mkreader(args)]: the lines the process writes. *)
Definition mkreader (args : list string) : M (list string) :=
  λ w, let w1 := with_started args w in
       let '(lines, _, t) := run_reader env args (cwd w1) (fs w1) in
       (Ok lines, with_fs t w1).

(** [shuttle(mkreader(producer), mkwriter(consumer))] *)
Definition shuttle (producer consumer : list string) : M unit :=
  λ w, let w1 := with_started consumer (with_started producer w) in
       let '(_, _, t) := run_pipe env producer consumer (cwd w1) (fs w1) in
       (Ok tt, with_fs t w1).

End WithEnv.
End CommandLineApp.

(** ** The constants of the script *)

Definition TMPDIR : string := "/tmp".
Definition INSTALL : string := "/usr/bin/ginstall".
Definition make_opts : list string := ["-j8"].

(** ** [ServiceManifest] *)

Module ServiceManifest.

(** A descriptor.  [dependencies] and [config_files] hold the addresses of
    list objects: a list is shared by every name that refers to it. *)
Record t : Type := mk {
  name : string;
  title : string;
  service_name : string;
  dependencies : nat;
  config_files : nat;
  init_script : option string;
  start_command : option (string * Z);
  stop_command : option (string * Z);
  refresh_command : option (string * Z);
  restart_command : option (string * Z);
}.

(** The two lists that the [def __init__] statement builds, once, as the
    default values of its parameters. *)
Definition default_dependencies : nat := 0.
Definition default_config_files : nat := 1.

(** The heap once the class statement has run. *)
Definition class_heap : gmap nat (list string) :=
  <[default_config_files := []]> (<[default_dependencies := ["filesystem"]]> ∅).

(** A list display [[x; ...]]: a new list object. *)
Definition new_list (l : list string) : M nat :=
  λ w, let a := fresh (dom (heap w)) in (Ok a, with_heap (<[a := l]> (heap w)) w).

(** [ServiceManifest(name, title, service_name, dependencies, config_files,
    init_script)]; an argument left out is [None] here and stands for the
    parameter's default value. *)
Definition __init__ (name title service_name : string)
    (dependencies config_files : option nat) (init_script : option string) : t :=
  {| name := name;
     title := title;
     service_name := service_name;
     dependencies := default default_dependencies dependencies;
     config_files := default default_config_files config_files;
     init_script := init_script;
     start_command := None;
     stop_command := None;
     refresh_command := None;
     restart_command := None |}.

Definition list_append (a : nat) (x : string) : M unit :=
  λ w, (Ok tt, with_heap (alter (λ l, l ++ [x]) a (heap w)) w).

Definition add_dependency (self : t) (dependency : string) : M unit :=
  list_append (dependencies self) dependency.

Definition add_config_file (self : t) (config_file : string) : M unit :=
  list_append (config_files self) config_file.

Definition set_init_script (self : t) (init_script : string) : t :=
  mk (name self) (title self) (service_name self) (dependencies self)
     (config_files self) (Some init_script) (start_command self)
     (stop_command self) (refresh_command self) (restart_command self).

Definition set_start_command (self : t) (command : string) (timeout : Z) : t :=
  mk (name self) (title self) (service_name self) (dependencies self)
     (config_files self) (init_script self) (Some (command, timeout))
     (stop_command self) (refresh_command self) (restart_command self).

Definition set_stop_command (self : t) (command : string) (timeout : Z) : t :=
  mk (name self) (title self) (service_name self) (dependencies self)
     (config_files self) (init_script self) (start_command self)
     (Some (command, timeout)) (refresh_command self) (restart_command self).

Definition set_refresh_command (self : t) (command : string) (timeout : Z) : t :=
  mk (name self) (title self) (service_name self) (dependencies self)
     (config_files self) (init_script self) (start_command self)
     (stop_command self) (Some (command, timeout)) (restart_command self).

Definition set_restart_command (self : t) (command : string) (timeout : Z) : t :=
  mk (name self) (title self) (service_name self) (dependencies self)
     (config_files self) (init_script self) (start_command self)
     (stop_command self) (refresh_command self) (Some (command, timeout)).

(** The default of the [timeout] parameter of the four setters. *)
Definition default_timeout : Z := 60.

Definition network_dependency : string := tpl "
    <dependency name=`network`
                grouping=`require_all`
                restart_on=`error`
                type=`service`>
      <service_fmri value=`svc:/milestone/network:default` />
    </dependency>
".

Definition filesystem_dependency : string := tpl "
    <dependency name=`filesystem-local`
                grouping=`require_all`
                restart_on=`none`
                type=`service`>
      <service_fmri value=`svc:/system/filesystem/local:default` />
    </dependency>
".

Definition config_dependency : string := tpl "
    <dependency name=`%(name)s-config-file` 
                grouping=`require_all` 
                restart_on=`none` 
                type=`path`>
      <service_fmri value=`file://%(path)s` />
    </dependency>
".

Definition method_template : string := tpl "
    <exec_method name=`%(name)s`
                 type=`method` 
                 exec=`%(command)s` 
                 timeout_seconds=`%(timeout)d`>
    </exec_method>
".

Definition manifest_template : string := tpl "<?xml version=`1.0`?>
<!DOCTYPE service_bundle SYSTEM `/usr/share/lib/xml/dtd/service_bundle.dtd.1`>
<service_bundle type=`manifest` name=`%(name)s`>
  <service name=`%(service_name)s` type=`service` version=`1`>
    <create_default_instance enabled=`true`/>
    %(dependencies)s
    <template>
      <common_name>
        <loctext xml:lang=`C`>%(title)s</loctext>
      </common_name>
    </template>
  </service>
</service_bundle>
".

Definition dependency_xml (dependency : string) : string :=
  if String.eqb dependency "network" then network_dependency
  else if String.eqb dependency "filesystem" then filesystem_dependency
  else EmptyString.

Definition config_xml (config : string) : result string :=
  fmt config_dependency
      (Mapping [("name", PStr (sub_dot_dash (basename config)));
                ("path", PStr config)]).

Fixpoint configs_xml (configs : list string) : result string :=
  match configs with
  | [] => Ok EmptyString
  | config :: rest =>
      x <-- config_xml config ;;
      xs <-- configs_xml rest ;;
      Ok (x +:+ xs)
  end.

(** [self.method_template % {'name': ..., 'command': ..., 'timeout': ...}] *)
Definition method (name command : string) (timeout : Z) : result string :=
  fmt method_template
      (Mapping [("name", PStr name); ("command", PStr command);
                ("timeout", PInt timeout)]).

(** The method fragments that [generate_manifest] appends after the
    dependencies: the [if]/[elif] on the commands and the init script. *)
Definition methods_xml (self : t) : result string :=
  match start_command self, stop_command self with
  | Some start, Some stop =>
      m1 <-- method "start" (fst start) (snd start) ;;
      m2 <-- method "stop" (fst stop) (snd stop) ;;
      m3 <-- match refresh_command self with
             | Some refresh => method "refresh" (fst refresh) (snd refresh)
             | None => method "refresh" (fst start +:+ "; " +:+ fst stop)
                              (snd start + snd stop)
             end ;;
      m4 <-- match restart_command self with
             | Some restart => method "restart" (fst restart) (snd restart)
             | None => method "restart" (fst start +:+ "; " +:+ fst stop)
                              (snd start + snd stop)
             end ;;
      Ok (m1 +:+ m2 +:+ m3 +:+ m4)
  | _, _ =>
      if truthy (init_script self) then
        m1 <-- method "start" "%s start" 60 ;;
        m2 <-- method "stop" "%s stop" 60 ;;
        m3 <-- method "refresh" "%s stop; %s start" 60 ;;
        m4 <-- method "restart" "%s stop; %s start" 60 ;;
        Ok (m1 +:+ m2 +:+ m3 +:+ m4)
      else Ok EmptyString
  end.

(** The text [generate_manifest] writes, from the descriptor and the two
    lists it refers to. *)
Definition manifest_text (self : t) (deps configs : list string) : result string :=
  let dependencies_xml := String.concat EmptyString (map dependency_xml deps) in
  cfg <-- configs_xml configs ;;
  methods <-- methods_xml self ;;
  fmt manifest_template
      (Mapping [("name", PStr (name self));
                ("title", PStr (title self));
                ("service_name", PStr (service_name self));
                ("dependencies", PStr (dependencies_xml +:+ cfg +:+ methods))]).

Definition read_list (a : nat) : M (list string) :=
  λ w, (Ok (default [] (heap w !! a)), w).

Section WithEnv.
Variable env : Env.

Definition generate_manifest (self : t) (path : string) : M unit :=
  deps <- read_list (dependencies self) ;;
  configs <- read_list (config_files self) ;;
  text <- lift (manifest_text self deps configs) ;;
  write_file env path text.

Definition manifest_path (self : t) : M string :=
  file <- lift (fmt "%s.xml" (Args [PStr (name self)])) ;;
  let path := join TMPDIR file in
  generate_manifest self path ;;
  ret path.

End WithEnv.
End ServiceManifest.

(** ** [PrototypeFile] and [PkgInfoFile] *)

Module PrototypeFile.

(** What has been written to [prototype] and to each of the four scripts;
    a script that was never opened is [None].  The script opens each file
    when the object or the script is first used and the text reaches the
    file when it is closed: the model keeps the text in the object and
    writes the files in [close], so it says nothing of the files of a run
    that ends before [close]. *)
Record t : Type := mk {
  fd : list string;
  preinstall_fd : option (list string);
  postinstall_fd : option (list string);
  preremove_fd : option (list string);
  postremove_fd : option (list string);
}.

Definition __init__ : t := mk [] None None None None.

Definition write (self : t) (data : string) : t :=
  mk (fd self ++ [data]) (preinstall_fd self) (postinstall_fd self)
     (preremove_fd self) (postremove_fd self).

(** [include(name, path=None)]: the test is on the truth of [path]. *)
Definition include (self : t) (name : string) (path : option string) : result t :=
  if truthy path then
    line <-- fmt ("i %s=%s" +:+ nl)
                 (Args [PStr name; PStr (default EmptyString path)]) ;;
    Ok (write self line)
  else
    line <-- fmt ("i %s" +:+ nl) (Args [PStr name]) ;;
    Ok (write self line).

(** The lines of a script after [line] is added; opening it writes the
    interpreter line first. *)
Definition script_add (script : option (list string)) (line : string) : list string :=
  match script with
  | Some ls => ls ++ [line; nl]
  | None => ["#!/bin/sh" +:+ nl; line; nl]
  end.

Definition opened (self : t) (script : option (list string)) (name : string) : result t :=
  match script with
  | Some _ => Ok self
  | None => include self name None
  end.

Definition preinstall (self : t) (line : string) : result t :=
  s <-- opened self (preinstall_fd self) "preinstall" ;;
  Ok (mk (fd s) (Some (script_add (preinstall_fd self) line)) (postinstall_fd s)
         (preremove_fd s) (postremove_fd s)).

Definition postinstall (self : t) (line : string) : result t :=
  s <-- opened self (postinstall_fd self) "postinstall" ;;
  Ok (mk (fd s) (preinstall_fd s) (Some (script_add (postinstall_fd self) line))
         (preremove_fd s) (postremove_fd s)).

Definition preremove (self : t) (line : string) : result t :=
  s <-- opened self (preremove_fd self) "preremove" ;;
  Ok (mk (fd s) (preinstall_fd s) (postinstall_fd s)
         (Some (script_add (preremove_fd self) line)) (postremove_fd s)).

Definition postremove (self : t) (line : string) : result t :=
  s <-- opened self (postremove_fd self) "postremove" ;;
  Ok (mk (fd s) (preinstall_fd s) (postinstall_fd s) (preremove_fd s)
         (Some (script_add (postremove_fd self) line))).

Section WithEnv.
Variable env : Env.

Definition close_script (script : option (list string)) (name : string) : M unit :=
  match script with
  | Some ls =>
      write_file env name (String.concat EmptyString ls) ;;
      os_chmod name 493
  | None => ret tt
  end.

(** [close]: the scripts that were opened, made executable, and then
    [prototype] itself. *)
Definition close (self : t) : M unit :=
  close_script (preinstall_fd self) "preinstall" ;;
  close_script (postinstall_fd self) "postinstall" ;;
  close_script (preremove_fd self) "preremove" ;;
  close_script (postremove_fd self) "postremove" ;;
  write_file env "prototype" (String.concat EmptyString (fd self)).

End WithEnv.
End PrototypeFile.

Module PkgInfoFile.

Record t : Type := mk {
  name : string;
  title : string;
  version : string;
  category : string;
}.

Definition __init__ (name title version : string) : t :=
  mk name title version "application".

Definition close (env : Env) (self : t) : M unit :=
  text <- lift (fmt ("PKG=%s" +:+ nl +:+ "NAME=%s" +:+ nl +:+ "VERSION=%s" +:+ nl
                     +:+ "CATEGORY=%s" +:+ nl)
                    (Args [PStr (name self); PStr (title self);
                           PStr (version self); PStr (category self)])) ;;
  write_file env "pkginfo" text.

End PkgInfoFile.

(** ** [Package] *)

Module Package.

(** [self.manifest] holds the path of a manifest file or a descriptor. *)
Inductive manifest_ref : Type :=
| ManifestPath (path : string)
| ManifestObject (sm : ServiceManifest.t).

Record t : Type := mk {
  tarball : string;
  base : string;
  name : string;
  title : string;
  version : string;
  manifest : option manifest_ref;
}.

(** The class attributes: the object as [__init__] finds it, unless a
    subclass has assigned to it before. *)
Definition class_attrs : t :=
  mk EmptyString EmptyString EmptyString EmptyString EmptyString None.

Definition set_manifest (self : t) (m : option manifest_ref) : t :=
  mk (tarball self) (base self) (name self) (title self) (version self) m.

Definition set_title (self : t) (title : string) : t :=
  mk (tarball self) (base self) (name self) title (version self) (manifest self).

(** The pattern ['(([^0-9]+?)-([-0-9_.]+))\.tar\.(gz|bz2|xz)+$']. *)
Definition name_class : Re.regex := Re.Class true [("0", "9")]%char.
Definition version_class : Re.regex :=
  Re.Class false [("-", "-"); ("0", "9"); ("_", "_"); (".", ".")]%char.
Definition ext_alt : Re.regex :=
  Re.Alt (Re.lits "gz") (Re.Alt (Re.lits "bz2") (Re.lits "xz")).
Definition tarball_re : Re.regex :=
  Re.Cat (Re.Group 1 (Re.Cat (Re.Group 2 (Re.PlusLazy name_class))
                        (Re.Cat (Re.Lit "-") (Re.Group 3 (Re.Plus version_class)))))
         (Re.Cat (Re.lits ".tar.")
                 (Re.Cat (Re.Plus (Re.Group 4 ext_alt)) Re.Eol)).

(** [match.group(n)] as a string; every group of [tarball_re] is bound by
    each of its matches. *)
Definition group_str (m : Re.match_object) (n : nat) : string :=
  default EmptyString (Re.group m n).

(** The truth value of [self.manifest]. *)
Definition has_manifest (self : t) : bool :=
  match manifest self with
  | None => false
  | Some (ManifestPath p) => negb (String.eqb p EmptyString)
  | Some (ManifestObject _) => true
  end.

(** The pattern ['d none / '] of the root entry of [prototype]. *)
Definition root_entry_re : Re.regex := Re.lits "d none / ".

Section WithEnv.
Variable env : Env.

Abbreviation shell := (CommandLineApp.shell env).
Abbreviation mkreader := (CommandLineApp.mkreader env).
Abbreviation shuttle := (CommandLineApp.shuttle env).

(** [Package(app, tarball)]; [tarball] is [None] when the argument is left
    out. *)
Definition __init__ (self : t) (tarball : option string) : M t :=
  self <- (if truthy tarball then
             let tarball := default EmptyString tarball in
             match Re.re_match tarball_re tarball with
             | None => raise (Exception ("Cannot parse tarball name: " +:+ tarball))
             | Some m =>
                 ret (mk (group_str m 0) (group_str m 1) (group_str m 2)
                         (if String.eqb (title self) EmptyString
                          then group_str m 2 else title self)
                         (group_str m 3) (manifest self))
             end
           else ret self) ;;
  cwd <- getcwd ;;
  file <- lift (fmt "%s.xml" (Args [PStr (name self)])) ;;
  let path := join cwd file in
  found <- isfile path ;;
  ret (if found then set_manifest self (Some (ManifestPath path)) else self).

(** The stages a subclass may override, and the two hooks it may add. *)
Record methods : Type := mkMethods {
  clean : t → M unit;
  unpack : t → M unit;
  prepare : t → M unit;
  configure : t → M unit;
  build : t → M unit;
  ignore_products : t → M unit;
  install : t → string → M unit;
  extend_prototype : option (t → PrototypeFile.t → string → M PrototypeFile.t);
  edit_prototype : option (t → PrototypeFile.t → string → M unit);
}.

Definition default_clean (self : t) : M unit :=
  there <- isdir (base self) ;;
  when there (rmtree (base self)).

(** One branch of [unpack]: the tool must be installed, then its output is
    shuttled into [tar]. *)
Definition unpack_with (tool_path tool package : string) (self : t) : M unit :=
  installed <- isfile tool_path ;;
  if negb installed
  then raise (Exception ("Please install the " +:+ package +:+ " package"))
  else shuttle [tool; "-dc"; tarball self] ["tar"; "-xf"; "-"].

Definition default_unpack (self : t) : M unit :=
  there <- isfile (tarball self) ;;
  if negb there then raise AssertionError else
  (if contains ".xz" (tarball self) then unpack_with "/usr/bin/xz" "xz" "xz" self
   else if contains ".bz2" (tarball self) then unpack_with "/usr/bin/bzip2" "bzip2" "bzip2" self
   else if contains ".gz" (tarball self) then unpack_with "/usr/bin/gzip" "gzip" "gzip" self
   else ret tt) ;;
  shell ["chown"; "-R"; "root:root"; base self] ;;
  ret tt.

Definition os_listdir (p : string) : M (list string) :=
  λ w, match (if named p then lookup (resolve w p) (fs w) else None) with
       | Some (Dir _ es) => (Ok (map fst es), w)
       | _ => (Raise (OSError "listdir"), w)
       end.

Definition default_prepare (self : t) : M unit :=
  shell ["git"; "init"] ;;
  hooks <- os_listdir ".git/hooks" ;;
  for_ hooks (λ entry, os_remove (join ".git/hooks" entry)) ;;
  shell ["git"; "add"; "."] ;;
  shell ["git"; "commit"; "-q"; "-m"; "Base"] ;;
  shell ["git"; "gc"; "--quiet"] ;;
  ret tt.

Definition default_configure (self : t) : M unit :=
  shell ["./configure"; "--prefix=/usr"; "--sysconfdir=/etc"] ;;
  ret tt.

Definition default_build (self : t) : M unit :=
  shell ("make" :: make_opts) ;;
  ret tt.

Definition default_ignore_products (self : t) : M unit :=
  lines <- mkreader ["git"; "ls-files"; "--other"; "--exclude-standard"] ;;
  write_file env ".gitignore"
             (String.concat EmptyString (map (λ line, "/" +:+ line) lines)).

Definition default_install (self : t) (staging : string) : M unit :=
  a <- lift (fmt "INSTALL=%s" (Args [PStr INSTALL])) ;;
  b <- lift (fmt "DESTDIR=%s" (Args [PStr staging])) ;;
  shell ["make"; a; b; "install"] ;;
  ret tt.

(** The class [Package] itself: no stage overridden, no hook. *)
Definition default_methods : methods :=
  mkMethods default_clean default_unpack default_prepare default_configure
            default_build default_ignore_products default_install None None.

Definition mkpkg (self : t) : M unit :=
  shell ["pkgmk"; "-o"] ;;
  file <- lift (fmt "%s.pkg" (Args [PStr (base self)])) ;;
  shell ["pkgtrans"; "-s"; "/var/spool/pkg"; join TMPDIR file; name self] ;;
  ret tt.

(** *** The blocks of [package], in the order of the method *)

(** [if self.manifest: ...]: render a descriptor to a temporary file, copy
    the manifest file into the profile directory of the staging area, and
    queue the three script lines. *)
Definition attach_manifest (self : t) (prototype : PrototypeFile.t)
    (staging : string) : M (t * PrototypeFile.t) :=
  if has_manifest self then
    rendered <-
        match manifest self with
        | Some (ManifestObject sm) =>
            path <- ServiceManifest.manifest_path env sm ;; ret (path, true)
        | Some (ManifestPath path) => ret (path, false)
        | None => ret (EmptyString, false)
        end ;;
    let '(path, manifest_is_tmpfile) := rendered in
    let self := set_manifest self (Some (ManifestPath path)) in
    let profile_dir := join staging "etc/svc/profile" in
    there <- isdir profile_dir ;;
    when (negb there) (os_makedirs env profile_dir) ;;
    shutil_copy env path profile_dir ;;
    when manifest_is_tmpfile (os_remove path) ;;
    line1 <- lift (fmt "svccfg import /etc/svc/profile/%s" (Args [PStr (basename path)])) ;;
    prototype <- lift (PrototypeFile.postinstall prototype line1) ;;
    line2 <- lift (fmt "svcadm disable %s" (Args [PStr (name self)])) ;;
    prototype <- lift (PrototypeFile.preremove prototype line2) ;;
    line3 <- lift (fmt "svccfg delete %s" (Args [PStr (name self)])) ;;
    prototype <- lift (PrototypeFile.postremove prototype line3) ;;
    ret (self, prototype)
  else ret (self, prototype).

(** [if not self.manifest and isfile(join(staging, 'etc/init.d',
    self.base)): self.manifest = ServiceManifest(...)]; the arguments of the
    call are evaluated from left to right. *)
Definition synthesize_manifest (self : t) (staging : string) : M t :=
  found <- isfile (join (join staging "etc/init.d") (base self)) ;;
  if (negb (has_manifest self) && found)%bool then
    service_name <- lift (fmt "application/%s" (Args [PStr (base self)])) ;;
    deps <- ServiceManifest.new_list ["filesystem"; "network"] ;;
    init_script <- lift (fmt "etc/init.d" (Args [PStr (base self)])) ;;
    ret (set_manifest self
           (Some (ManifestObject
                    (ServiceManifest.__init__ (name self) (title self) service_name
                                              (Some deps) None (Some init_script)))))
  else ret self.

(** The body of the inner loop of the walk: one directory [entry] of the
    staging area, named from the staging root. *)
Definition match_entry (staging entry : string) : M unit :=
  let path := join "/" entry in
  there <- isdir path ;;
  when there
    (info <- os_stat path ;;
     os_chown (join staging entry) (st_uid info) (st_gid info) ;;
     os_chmod (join staging entry) (st_mode info)).

(** [for root, dirs, files in os.walk(staging): for entry in ...].  The
    loop changes attributes only, so what [os.walk] lists is what the tree
    holds when the loop starts. *)
Definition match_ownership (staging : string) : M unit :=
  w <- get ;;
  for_ (match lookup (resolve w staging) (fs w) with
        | Some top => walk staging top
        | None => []
        end)
       (λ triple,
          let '(root, dirs, _) := triple in
          for_ (map (λ x, slice_from (String.length staging + 1) (join root x)) dirs)
               (match_entry staging)).

(** [for line in mkreader('pkgproto', ...): if not re.match('d none / ',
    line): prototype.write(line)] *)
Definition keep_line (line : string) : bool :=
  match Re.re_match root_entry_re line with
  | Some _ => false
  | None => true
  end.

Definition write_entries (prototype : PrototypeFile.t) (lines : list string)
    : PrototypeFile.t :=
  fold_left (λ prototype line,
               if keep_line line then PrototypeFile.write prototype line
               else prototype) lines prototype.

(** [package] up to the call of [prototype.close()]: the staging area is
    filled and [prototype] holds all that will be written to it. *)
Definition assemble (m : methods) (self : t) (staging : string)
    : M (t * PrototypeFile.t) :=
  there <- isdir staging ;;
  when there (rmtree staging) ;;
  os_makedirs env staging ;;
  let prototype := PrototypeFile.__init__ in
  attached <- attach_manifest self prototype staging ;;
  let '(self, prototype) := attached in
  install m self staging ;;
  self <- synthesize_manifest self staging ;;
  match_ownership staging ;;
  arg <- lift (fmt "%s=/" (Args [PStr staging])) ;;
  lines <- mkreader ["pkgproto"; arg] ;;
  let prototype := write_entries prototype lines in
  prototype <- lift (PrototypeFile.include prototype "pkginfo" None) ;;
  prototype <- match extend_prototype m with
               | Some extend => extend self prototype staging
               | None => ret prototype
               end ;;
  ret (self, prototype).

Definition package (m : methods) (self : t) : M t :=
  let staging := join TMPDIR "pkg-staging" in
  assembled <- assemble m self staging ;;
  let '(self, prototype) := assembled in
  PrototypeFile.close env prototype ;;
  match edit_prototype m with
  | Some edit => edit self prototype staging
  | None => ret tt
  end ;;
  PkgInfoFile.close env (PkgInfoFile.__init__ (name self) (title self) (version self)) ;;
  mkpkg self ;;
  rmtree staging ;;
  ret self.

(** The stages of [main] inside [try]. *)
Definition stages (m : methods) (self : t) : M t :=
  clean m self ;;
  unpack m self ;;
  os_chdir (base self) ;;
  git <- isfile "/usr/bin/git" ;;
  when git (prepare m self) ;;
  configure m self ;;
  build m self ;;
  git <- isfile "/usr/bin/git" ;;
  when git (ignore_products m self) ;;
  package m self.

Definition main (m : methods) (self : t) : M unit :=
  cwd <- getcwd ;;
  log_path <- lift (fmt "%s.log" (Args [PStr (name self)])) ;;
  write_file env log_path EmptyString ;;
  self <- finally (stages m self) (os_chdir cwd) ;;
  file <- lift (fmt "%s.pkg" (Args [PStr (base self)])) ;;
  let path := join TMPDIR file in
  built <- isfile path ;;
  if built then
    shutil_copy env path cwd ;;
    os_remove path ;;
    os_remove log_path ;;
    clean m self
  else ret tt.

End WithEnv.
End Package.

(** ** [PkgBuild]: the custom packages and the dispatcher *)

Module PkgBuild.

(** The classes of the script: [Package] itself and its subclasses. *)
Inductive variant : Type :=
| Generic
| Apcupsd
| BerkeleyDB
| Dovecot
| Glib
| Netatalk
| Ngircd
| GooglePerftools
| RubyEnterprise.

Definition pkgmap : list (string * variant) :=
  [("apcupsd", Apcupsd);
   ("db", BerkeleyDB);
   ("dovecot", Dovecot);
   ("glib", Glib);
   ("netatalk", Netatalk);
   ("ngircd", Ngircd);
   ("ruby-enterprise", RubyEnterprise)].

(** [pkgmap[key]] *)
Fixpoint pkgmap_get (key : string) (d : list (string * variant)) : option variant :=
  match d with
  | [] => None
  | (k, v) :: d' => if String.eqb key k then Some v else pkgmap_get key d'
  end.

(** [re.match(key + '-', path)] as a truth value; [None] when the key holds
    an operator of the pattern language. *)
Definition key_matches (key path : string) : option bool :=
  match Re.compile_plain (key +:+ "-") with
  | Some r =>
      Some (match Re.re_match r path with Some _ => true | None => false end)
  | None => None
  end.

(** The loop of [main] over [pkgmap.keys()], a dictionary's keys in the
    order the interpreter yields them: the class of the first key that
    matches, [Package] when the loop ends without a match. *)
Fixpoint select (keys : list string) (path : string) : option variant :=
  match keys with
  | [] => Some Generic
  | key :: rest =>
      match key_matches key path with
      | Some true => pkgmap_get key pkgmap
      | Some false => select rest path
      | None => None
      end
  end.

Section WithEnv.
Variable env : Env.

(** [self.manifest = ServiceManifest(self.name, self.title, service_name,
    dependencies, config_files, init_script=...)] with two list displays. *)
Definition attach (self : Package.t) (service_name : string)
    (dependencies config_files : list string) (init_script : option string)
    : M (Package.t * ServiceManifest.t) :=
  deps <- ServiceManifest.new_list dependencies ;;
  configs <- ServiceManifest.new_list config_files ;;
  let sm := ServiceManifest.__init__ (Package.name self) (Package.title self)
              service_name (Some deps) (Some configs) init_script in
  ret (Package.set_manifest self (Some (Package.ManifestObject sm)), sm).

Definition with_commands (p : Package.t * ServiceManifest.t)
    (start stop : string) : Package.t :=
  let sm := ServiceManifest.set_start_command (snd p) start ServiceManifest.default_timeout in
  let sm := ServiceManifest.set_stop_command sm stop ServiceManifest.default_timeout in
  Package.set_manifest (fst p) (Some (Package.ManifestObject sm)).

(** The constructor of each class. *)
Definition construct (cls : variant) (tarball : string) : M Package.t :=
  match cls with
  | Generic | BerkeleyDB | Glib | RubyEnterprise =>
      Package.__init__ Package.class_attrs (Some tarball)
  | Apcupsd =>
      self <- Package.__init__ Package.class_attrs (Some tarball) ;;
      p <- attach self "system/ups/apcupsd" ["filesystem"]
                  ["/etc/opt/apcupsd/apcupsd.conf"] (Some "/etc/init.d/apcupsd") ;;
      ret (fst p)
  | Netatalk =>
      self <- Package.__init__ Package.class_attrs (Some tarball) ;;
      p <- attach self "network/afp/netatalk" ["filesystem"; "network"]
                  ["/etc/netatalk/netatalk.conf"; "/etc/netatalk/afpd.conf";
                   "/etc/netatalk/AppleVolumes.default"]
                  (Some "/etc/init.d/netatalk") ;;
      ret (fst p)
  | Ngircd =>
      self <- Package.__init__
                (Package.set_title Package.class_attrs
                                   "ngIRCd: Next Generation IRC Daemon")
                (Some tarball) ;;
      p <- attach self "network/irc/ngircd" ["filesystem"; "network"]
                  ["/etc/ngircd.conf"] None ;;
      ret (with_commands p "/usr/sbin/ngircd" "/usr/bin/pkill ngircd")
  | Dovecot =>
      self <- Package.__init__
                (Package.set_title Package.class_attrs "Dovecot: Secure IMAP server")
                (Some tarball) ;;
      p <- attach self "network/imap/dovecot" ["filesystem"; "network"]
                  ["/etc/dovecot/dovecot.conf"] None ;;
      ret (with_commands p "/usr/sbin/dovecot" "/usr/sbin/dovecot stop")
  | GooglePerftools =>
      Package.__init__
        (Package.mk EmptyString "google-perftools-1.7" "google-perftools"
                    "Google Perftools" "1.7" None)
        None
  end.

(** [PkgBuild.main]: each archive is built by the class the loop selects.
    [overrides] stands for the stages and hooks the subclasses redefine. *)
Definition methods_of (overrides : variant → Package.methods) (cls : variant)
    : Package.methods :=
  match cls with
  | Generic => Package.default_methods env
  | _ => overrides cls
  end.

Definition main (overrides : variant → Package.methods) (keys : list string)
    (args : list string) : M unit :=
  for_ args (λ path,
    match select keys path with
    | Some cls =>
        self <- construct cls path ;;
        Package.main env (methods_of overrides cls) self
    | None => raise (ValueError "pattern")
    end).

End WithEnv.
End PkgBuild.

(** * Part II: properties of the embedding *)

(** ** Strings and their characters *)

Lemma chars_app (a b : string) : chars (a +:+ b) = chars a ++ chars b.
Proof. induction a as [|c a IH]; simpl; [done | by rewrite IH]. Qed.

Lemma str_app (a b : list ascii) : str (a ++ b) = str a +:+ str b.
Proof. induction a as [|c a IH]; simpl; [done | by rewrite IH]. Qed.

Lemma chars_str (l : list ascii) : chars (str l) = l.
Proof. apply String.list_ascii_of_string_of_list_ascii. Qed.

Lemma str_chars (s : string) : str (chars s) = s.
Proof. apply String.string_of_list_ascii_of_string. Qed.

Lemma chars_inj (a b : string) : chars a = chars b → a = b.
Proof. intros H. rewrite <- (str_chars a), <- (str_chars b). by rewrite H. Qed.

Lemma chars_nil (s : string) : chars s = [] → s = EmptyString.
Proof. by destruct s. Qed.

(** ** What a pattern matches *)

Module ReFacts.
Import Re.

(** [matches r c rest g]: [r] matches the text [c] when [rest] follows it,
    binding the groups [g]. *)
Inductive matches : regex → list ascii → list ascii → caps → Prop :=
| M_eps rest : matches Eps [] rest []
| M_lit c rest : matches (Lit c) [c] rest []
| M_class neg rs a rest :
    in_class neg rs a = true → matches (Class neg rs) [a] rest []
| M_cat r1 r2 c1 c2 rest g1 g2 :
    matches r1 c1 (c2 ++ rest) g1 → matches r2 c2 rest g2 →
    matches (Cat r1 r2) (c1 ++ c2) rest (g2 ++ g1)
| M_alt_l r1 r2 c rest g : matches r1 c rest g → matches (Alt r1 r2) c rest g
| M_alt_r r1 r2 c rest g : matches r2 c rest g → matches (Alt r1 r2) c rest g
| M_plus_one r c rest g : matches r c rest g → matches (Plus r) c rest g
| M_plus_more r c1 c2 rest g1 g2 :
    matches r c1 (c2 ++ rest) g1 → matches (Plus r) c2 rest g2 →
    matches (Plus r) (c1 ++ c2) rest (g2 ++ g1)
| M_lazy_one r c rest g : matches r c rest g → matches (PlusLazy r) c rest g
| M_lazy_more r c1 c2 rest g1 g2 :
    matches r c1 (c2 ++ rest) g1 → matches (PlusLazy r) c2 rest g2 →
    matches (PlusLazy r) (c1 ++ c2) rest (g2 ++ g1)
| M_group n r c rest g :
    matches r c rest g → matches (Group n r) c rest ((n, c) :: g)
| M_eol rest : at_eol rest = true → matches Eol [] rest [].

(** Patterns that cannot match the empty text, and patterns whose
    repetitions are of such patterns only. *)
Fixpoint nonnull (r : regex) : bool :=
  match r with
  | Eps | Eol => false
  | Lit _ | Class _ _ => true
  | Cat a b => nonnull a || nonnull b
  | Alt a b => nonnull a && nonnull b
  | Plus a | PlusLazy a | Group _ a => nonnull a
  end.

Fixpoint wf (r : regex) : bool :=
  match r with
  | Cat a b | Alt a b => wf a && wf b
  | Plus a | PlusLazy a => wf a && nonnull a
  | Group _ a => wf a
  | _ => true
  end.

Definition sound_at (r : regex) (body : list ascii → list outcome) : Prop :=
  ∀ s c s' g, In (c, s', g) (body s) → s = c ++ s' ∧ matches r c s' g.

Lemma step_char_In ok s c s' g :
  In (c, s', g) (step_char ok s) ↔ ∃ a, s = a :: s' ∧ c = [a] ∧ g = [] ∧ ok a = true.
Proof.
  destruct s as [|a s0]; simpl.
  - split; [tauto | intros (? & ? & _); discriminate].
  - destruct (ok a) eqn:E; simpl.
    + split.
      * intros [H | []]. injection H as <- <- <-. eauto.
      * intros (b & H & -> & -> & _). injection H as <- <-. by left.
    + split; [tauto |]. intros (b & H & _ & _ & Hb). injection H as <- <-. congruence.
Qed.

Lemma then_In o k x :
  In x (then_ o k) ↔ ∃ o2, In o2 (k (snd (fst o))) ∧ x = glue o o2.
Proof.
  unfold then_. rewrite in_map_iff. split; intros (o2 & H1 & H2); eauto.
Qed.

Lemma plus_loop_sound r body :
  sound_at r body → ∀ fuel, sound_at (Plus r) (plus_loop body fuel).
Proof.
  intros Hb fuel. induction fuel as [|fuel IH]; intros s c s' g; simpl; [tauto |].
  rewrite in_flat_map. intros ([[c1 s1] g1] & H1 & H2).
  apply Hb in H1 as [-> M1]. apply in_app_iff in H2 as [H2 | [H2 | []]].
  - apply then_In in H2 as ([[c2 s2] g2] & H2 & E). simpl in *.
    apply IH in H2 as [-> M2]. injection E as -> -> ->.
    split; [by rewrite app_assoc | by constructor].
  - injection H2 as <- <- <-. split; [done | by constructor].
Qed.

Lemma plus_lazy_loop_sound r body :
  sound_at r body → ∀ fuel, sound_at (PlusLazy r) (plus_lazy_loop body fuel).
Proof.
  intros Hb fuel. induction fuel as [|fuel IH]; intros s c s' g; simpl; [tauto |].
  rewrite in_flat_map. intros ([[c1 s1] g1] & H1 & H2).
  apply Hb in H1 as [-> M1]. destruct H2 as [H2 | H2].
  - injection H2 as <- <- <-. split; [done | by constructor].
  - apply then_In in H2 as ([[c2 s2] g2] & H2 & E). simpl in *.
    apply IH in H2 as [-> M2]. injection E as -> -> ->.
    split; [by rewrite app_assoc | by constructor].
Qed.

(** Every outcome of the search is a match. *)
Lemma exec_sound r : sound_at r (exec r).
Proof.
  induction r as [|a|neg rs|r1 IH1 r2 IH2|r1 IH1 r2 IH2|r IH|r IH|n r IH|];
    intros s c s' g; simpl.
  - intros [H | []]. injection H as <- <- <-. split; [done | constructor].
  - rewrite step_char_In. intros (b & -> & -> & -> & Hb).
    apply Ascii.eqb_eq in Hb as <-. split; [done | constructor].
  - rewrite step_char_In. intros (b & -> & -> & -> & Hb).
    split; [done | by constructor].
  - rewrite in_flat_map. intros ([[c1 s1] g1] & H1 & H2).
    apply IH1 in H1 as [-> M1].
    apply then_In in H2 as ([[c2 s2] g2] & H2 & E). simpl in *.
    apply IH2 in H2 as [-> M2]. injection E as -> -> ->.
    split; [by rewrite app_assoc | by constructor].
  - rewrite in_app_iff. intros [H | H].
    + apply IH1 in H as [-> M1]. split; [done | by apply M_alt_l].
    + apply IH2 in H as [-> M2]. split; [done | by apply M_alt_r].
  - intros H. by apply (plus_loop_sound r (exec r) IH (S (length s))).
  - intros H. by apply (plus_lazy_loop_sound r (exec r) IH (S (length s))).
  - rewrite in_map_iff. intros ([[c1 s1] g1] & E & H). simpl in E.
    injection E as <- <- <-. apply IH in H as [-> M1].
    split; [done | by constructor].
  - destruct (at_eol s) eqn:E; [| by intros []].
    intros [H | []]. injection H as <- <- <-. split; [done | by constructor].
Qed.

Lemma matches_nonnull r c rest g :
  matches r c rest g → nonnull r = true → c ≠ [].
Proof.
  induction 1; simpl; intros Hn; try discriminate; try done; auto.
  - apply orb_true_iff in Hn as [Hn | Hn].
    + intros E. apply app_eq_nil in E as [E _]. by apply IHmatches1.
    + intros E. apply app_eq_nil in E as [_ E]. by apply IHmatches2.
  - apply andb_true_iff in Hn as [Hn _]. auto.
  - apply andb_true_iff in Hn as [_ Hn]. auto.
  - intros E. apply app_eq_nil in E as [E _]. by apply IHmatches1.
  - intros E. apply app_eq_nil in E as [E _]. by apply IHmatches1.
Qed.

Lemma plus_loop_mono body n m s x :
  n ≤ m → In x (plus_loop body n s) → In x (plus_loop body m s).
Proof.
  revert m s x. induction n as [|n IH]; intros m s x Hle; simpl; [tauto |].
  destruct m as [|m]; [lia |]. simpl. rewrite !in_flat_map.
  intros (o & H1 & H2). exists o. split; [done |].
  apply in_app_iff in H2 as [H2 | H2]; apply in_app_iff; [left | by right].
  apply then_In in H2 as (o2 & H2 & ->). apply then_In. exists o2.
  split; [| done]. apply IH; [lia | done].
Qed.

Lemma plus_lazy_loop_mono body n m s x :
  n ≤ m → In x (plus_lazy_loop body n s) → In x (plus_lazy_loop body m s).
Proof.
  revert m s x. induction n as [|n IH]; intros m s x Hle; simpl; [tauto |].
  destruct m as [|m]; [lia |]. simpl. rewrite !in_flat_map.
  intros (o & H1 & H2). exists o. split; [done |].
  destruct H2 as [H2 | H2]; [by left | right].
  apply then_In in H2 as (o2 & H2 & ->). apply then_In. exists o2.
  split; [| done]. apply IH; [lia | done].
Qed.

(** Every match is an outcome of the search. *)
Lemma exec_complete r c rest g :
  matches r c rest g → wf r = true → In (c, rest, g) (exec r (c ++ rest)).
Proof.
  induction 1 as [rest|a rest|neg rs a rest Ha|r1 r2 c1 c2 rest g1 g2 M1 IH1 M2 IH2
                 |r1 r2 c rest g M1 IH1|r1 r2 c rest g M1 IH1
                 |r c rest g M1 IH1|r c1 c2 rest g1 g2 M1 IH1 M2 IH2
                 |r c rest g M1 IH1|r c1 c2 rest g1 g2 M1 IH1 M2 IH2
                 |n r c rest g M1 IH1|rest Hr]; simpl; intros Hwf.
  - by left.
  - rewrite Ascii.eqb_refl. by left.
  - rewrite Ha. by left.
  - apply andb_true_iff in Hwf as [W1 W2]. rewrite in_flat_map.
    exists (c1, c2 ++ rest, g1). split.
    + rewrite <- app_assoc. auto.
    + apply then_In. exists (c2, rest, g2). split; [simpl; auto | done].
  - apply andb_true_iff in Hwf as [W1 W2]. apply in_app_iff. auto.
  - apply andb_true_iff in Hwf as [W1 W2]. apply in_app_iff. auto.
  - apply andb_true_iff in Hwf as [W1 W2]. rewrite in_flat_map.
    exists (c, rest, g). split; [auto |]. apply in_app_iff. right. by left.
  - pose proof Hwf as Hwf'. apply andb_true_iff in Hwf as [W1 W2].
    rewrite in_flat_map. exists (c1, c2 ++ rest, g1). split.
    + rewrite <- app_assoc. auto.
    + apply in_app_iff. left. apply then_In. exists (c2, rest, g2).
      split; [| done]. simpl.
      apply plus_loop_mono with (n := S (length (c2 ++ rest))); [| by apply IH2].
      pose proof (matches_nonnull _ _ _ _ M1 W2). rewrite !length_app.
      destruct c1; [done | simpl; lia].
  - apply andb_true_iff in Hwf as [W1 W2]. rewrite in_flat_map.
    exists (c, rest, g). split; [auto |]. by left.
  - pose proof Hwf as Hwf'. apply andb_true_iff in Hwf as [W1 W2].
    rewrite in_flat_map. exists (c1, c2 ++ rest, g1). split.
    + rewrite <- app_assoc. auto.
    + right. apply then_In. exists (c2, rest, g2).
      split; [| done]. simpl.
      apply plus_lazy_loop_mono with (n := S (length (c2 ++ rest))); [| by apply IH2].
      pose proof (matches_nonnull _ _ _ _ M1 W2). rewrite !length_app.
      destruct c1; [done | simpl; lia].
  - rewrite in_map_iff. exists (c, rest, g). split; [done | auto].
  - rewrite Hr. by left.
Qed.

(** [re.match] answers [None] exactly when no prefix matches. *)
Lemma re_match_None r s :
  wf r = true →
  re_match r s = None ↔ ∀ c rest g, chars s = c ++ rest → ¬ matches r c rest g.
Proof.
  intros Hwf. unfold re_match. split.
  - intros H c rest g E Hm. apply exec_complete in Hm; [| done].
    rewrite <- E in Hm. destruct (exec r (chars s)) as [|[[? ?] ?] ?]; [done | discriminate].
  - intros H. destruct (exec r (chars s)) as [|[[c rest] g] l] eqn:E; [done |].
    exfalso. destruct (exec_sound r (chars s) c rest g) as [E1 M1].
    { rewrite E. by left. }
    by apply (H c rest g).
Qed.

(** What [re.match] reports is a match of a prefix. *)
Lemma re_match_Some r s m :
  re_match r s = Some m →
  ∃ c rest, chars s = c ++ rest ∧ matches r c rest (groups m) ∧ group0 m = str c.
Proof.
  unfold re_match. destruct (exec r (chars s)) as [|[[c rest] g] l] eqn:E; [done |].
  intros [= <-]. destruct (exec_sound r (chars s) c rest g) as [E1 M1].
  { rewrite E. by left. }
  exists c, rest. done.
Qed.

End ReFacts.

(** ** The archive name: the pattern of [Package.__init__] *)

Import ReFacts.

(** A name is a non-empty text without digits; a version is a non-empty
    text of digits, dashes, dots and underscores. *)
Definition name_char (a : ascii) : bool := Re.in_class true [("0", "9")]%char a.
Definition version_char (a : ascii) : bool :=
  Re.in_class false [("-", "-"); ("0", "9"); ("_", "_"); (".", ".")]%char a.

Definition nonempty (l : list ascii) : bool :=
  match l with
  | [] => false
  | _ => true
  end.

Definition name_ok (n : string) : bool :=
  nonempty (chars n) && forallb name_char (chars n).
Definition version_ok (v : string) : bool :=
  nonempty (chars v) && forallb version_char (chars v).

Definition exts : list string := ["gz"; "bz2"; "xz"].

(** The file names of the form [<name>-<version>.tar.<ext>]. *)
Definition archive_name (s : string) : Prop :=
  ∃ n v e, name_ok n = true ∧ version_ok v = true ∧ In e exts
           ∧ s = n +:+ "-" +:+ v +:+ ".tar." +:+ e.

(** The file names the pattern of the script accepts: the extension may be
    repeated, and one newline may end the name. *)
Definition accepted_name (s : string) : Prop :=
  ∃ n v es tail,
    name_ok n = true ∧ version_ok v = true
    ∧ es ≠ [] ∧ Forall (λ e, In e exts) es
    ∧ (tail = EmptyString ∨ tail = nl)
    ∧ s = n +:+ "-" +:+ v +:+ ".tar." +:+ String.concat EmptyString es +:+ tail.

Lemma matches_class_inv neg rs c rest g :
  matches (Re.Class neg rs) c rest g →
  ∃ a, c = [a] ∧ g = [] ∧ Re.in_class neg rs a = true.
Proof. intros H. inversion H; subst. eauto. Qed.

Lemma matches_lit_inv a c rest g :
  matches (Re.Lit a) c rest g → c = [a] ∧ g = [].
Proof. intros H. by inversion H. Qed.

Lemma matches_cat_inv r1 r2 c rest g :
  matches (Re.Cat r1 r2) c rest g →
  ∃ c1 c2 g1 g2, c = c1 ++ c2 ∧ g = g2 ++ g1
                 ∧ matches r1 c1 (c2 ++ rest) g1 ∧ matches r2 c2 rest g2.
Proof. intros H. inversion H; subst. eauto 10. Qed.

Lemma matches_alt_inv r1 r2 c rest g :
  matches (Re.Alt r1 r2) c rest g → matches r1 c rest g ∨ matches r2 c rest g.
Proof. intros H. inversion H; subst; auto. Qed.

Lemma matches_group_inv n r c rest g :
  matches (Re.Group n r) c rest g → ∃ g', g = (n, c) :: g' ∧ matches r c rest g'.
Proof. intros H. inversion H; subst. eauto. Qed.

Lemma matches_eol_inv c rest g :
  matches Re.Eol c rest g → c = [] ∧ g = [] ∧ Re.at_eol rest = true.
Proof. intros H. by inversion H. Qed.

Lemma matches_lits_list l c rest g :
  matches (foldr (λ c r, Re.Cat (Re.Lit c) r) Re.Eps l) c rest g ↔ c = l ∧ g = [].
Proof.
  revert c g. induction l as [|a l IH]; intros c g; simpl.
  - split.
    + intros H. by inversion H.
    + intros [-> ->]. constructor.
  - split.
    + intros H. apply matches_cat_inv in H as (c1 & c2 & g1 & g2 & -> & -> & M1 & M2).
      apply matches_lit_inv in M1 as [-> ->]. apply IH in M2 as [-> ->]. done.
    + intros [-> ->]. change (a :: l) with ([a] ++ l).
      change (@nil (nat * list ascii)) with (@nil (nat * list ascii) ++ []).
      constructor; [constructor | by apply IH].
Qed.

Lemma matches_lits w c rest g :
  matches (Re.lits w) c rest g ↔ c = chars w ∧ g = [].
Proof. apply matches_lits_list. Qed.

Lemma matches_plus_class neg rs c rest g :
  matches (Re.Plus (Re.Class neg rs)) c rest g
  ↔ c ≠ [] ∧ forallb (Re.in_class neg rs) c = true ∧ g = [].
Proof.
  split.
  - remember (Re.Plus (Re.Class neg rs)) as r eqn:Er. intros H. revert Er.
    induction H as [| | | | | |r c rest g M1 _|r c1 c2 rest g1 g2 M1 _ M2 IH2| | | |];
      intros Er; try discriminate; injection Er as ->.
    + apply matches_class_inv in M1 as (a & -> & -> & Ha). simpl. by rewrite Ha.
    + apply matches_class_inv in M1 as (a & -> & -> & Ha).
      destruct (IH2 eq_refl) as (_ & Hall & ->). simpl. by rewrite Ha, Hall.
  - intros (Hne & Hall & ->). revert rest Hne Hall.
    induction c as [|a c IH]; intros rest Hne Hall; [done |].
    simpl in Hall. apply andb_true_iff in Hall as [Ha Hall].
    destruct c as [|b c].
    + apply M_plus_one. by constructor.
    + change (a :: b :: c) with ([a] ++ b :: c).
      change (@nil (nat * list ascii)) with (@nil (nat * list ascii) ++ []).
      apply M_plus_more; [by constructor | by apply IH].
Qed.

Lemma matches_lazy_class neg rs c rest g :
  matches (Re.PlusLazy (Re.Class neg rs)) c rest g
  ↔ c ≠ [] ∧ forallb (Re.in_class neg rs) c = true ∧ g = [].
Proof.
  split.
  - remember (Re.PlusLazy (Re.Class neg rs)) as r eqn:Er. intros H. revert Er.
    induction H as [| | | | | | | |r c rest g M1 _|r c1 c2 rest g1 g2 M1 _ M2 IH2| |];
      intros Er; try discriminate; injection Er as ->.
    + apply matches_class_inv in M1 as (a & -> & -> & Ha). simpl. by rewrite Ha.
    + apply matches_class_inv in M1 as (a & -> & -> & Ha).
      destruct (IH2 eq_refl) as (_ & Hall & ->). simpl. by rewrite Ha, Hall.
  - intros (Hne & Hall & ->). revert rest Hne Hall.
    induction c as [|a c IH]; intros rest Hne Hall; [done |].
    simpl in Hall. apply andb_true_iff in Hall as [Ha Hall].
    destruct c as [|b c].
    + apply M_lazy_one. by constructor.
    + change (a :: b :: c) with ([a] ++ b :: c).
      change (@nil (nat * list ascii)) with (@nil (nat * list ascii) ++ []).
      apply M_lazy_more; [by constructor | by apply IH].
Qed.

Lemma matches_ext c rest g :
  matches Package.ext_alt c rest g ↔ In c (map chars exts) ∧ g = [].
Proof.
  unfold Package.ext_alt. split.
  - intros H. apply matches_alt_inv in H as [M1 | H].
    + apply matches_lits in M1 as [-> ->]. simpl. auto.
    + apply matches_alt_inv in H as [M2 | M2];
        apply matches_lits in M2 as [-> ->]; simpl; auto.
  - intros [Hin ->]. simpl in Hin. destruct Hin as [<- | [<- | [<- | []]]].
    + apply M_alt_l. by apply matches_lits.
    + apply M_alt_r, M_alt_l. by apply matches_lits.
    + apply M_alt_r, M_alt_r. by apply matches_lits.
Qed.

(** The groups the repeated extension binds: group 4, once per round, the
    last round first. *)
Definition ext_caps (es : list (list ascii)) : Re.caps :=
  rev (map (λ e, (4, e)) es).

Lemma matches_exts c rest g :
  matches (Re.Plus (Re.Group 4 Package.ext_alt)) c rest g
  ↔ ∃ es, es ≠ [] ∧ Forall (λ e, In e (map chars exts)) es
          ∧ c = concat es ∧ g = ext_caps es.
Proof.
  split.
  - remember (Re.Plus (Re.Group 4 Package.ext_alt)) as r eqn:Er. intros H. revert Er.
    induction H as [| | | | | |r c rest g M1 _|r c1 c2 rest g1 g2 M1 _ M2 IH2| | | |];
      intros Er; try discriminate; injection Er as ->.
    + apply matches_group_inv in M1 as (g' & -> & M1).
      apply matches_ext in M1 as [Hin ->].
      exists [c]. simpl. rewrite app_nil_r. repeat split; auto.
    + apply matches_group_inv in M1 as (g' & -> & M1).
      apply matches_ext in M1 as [Hin ->].
      destruct (IH2 eq_refl) as (es & Hne & Hall & -> & ->).
      exists (c1 :: es). unfold ext_caps. simpl. repeat split; auto.
  - intros (es & Hne & Hall & -> & ->). revert rest.
    induction es as [|e es IH]; intros rest; [done |].
    apply Forall_cons in Hall as [He Hall]. destruct es as [|e' es].
    + simpl. rewrite app_nil_r. apply M_plus_one.
      constructor. by apply matches_ext.
    + unfold ext_caps. change (concat (e :: e' :: es)) with (e ++ concat (e' :: es)).
      change (rev (map (λ e0, (4, e0)) (e :: e' :: es)))
        with (rev (map (λ e0 : list ascii, (4, e0)) (e' :: es)) ++ [(4, e)]).
      apply M_plus_more.
      * constructor. by apply matches_ext.
      * by apply IH.
Qed.

Lemma lookup_cap_skip n l g :
  Forall (λ p : nat * list ascii, fst p ≠ n) l →
  Re.lookup_cap n (l ++ g) = Re.lookup_cap n g.
Proof.
  induction 1 as [|[k c] l Hk _ IH]; simpl; [done |].
  simpl in Hk. destruct (Nat.eqb_spec k n); [done | apply IH].
Qed.

Lemma ext_caps_only_4 es : Forall (λ p : nat * list ascii, fst p ≠ 1 ∧ fst p ≠ 2 ∧ fst p ≠ 3) (ext_caps es).
Proof.
  unfold ext_caps. apply List.Forall_rev, Forall_map, Forall_forall.
  intros e _. simpl. lia.
Qed.

(** The matches of the whole pattern: a name, a dash, a version, [.tar.],
    extensions, and the end of the line; groups 1 to 3 are the base, the
    name and the version. *)
Lemma tarball_matches c rest g :
  matches Package.tarball_re c rest g
  ↔ ∃ n v es,
      n ≠ [] ∧ forallb name_char n = true
      ∧ v ≠ [] ∧ forallb version_char v = true
      ∧ es ≠ [] ∧ Forall (λ e, In e (map chars exts)) es
      ∧ Re.at_eol rest = true
      ∧ c = (n ++ "-"%char :: v) ++ chars ".tar." ++ concat es
      ∧ g = ext_caps es ++ [(1, n ++ "-"%char :: v); (3, v); (2, n)].
Proof.
  unfold Package.tarball_re. split.
  - intros H.
    apply matches_cat_inv in H as (c1 & c2 & g1 & g2 & -> & -> & M1 & M2).
    apply matches_group_inv in M1 as (g1' & -> & M1).
    apply matches_cat_inv in M1 as (ca & cb & ga & gb & -> & -> & Ma & Mb).
    apply matches_group_inv in Ma as (ga' & -> & Ma).
    apply matches_lazy_class in Ma as (Hn & Hnall & ->).
    apply matches_cat_inv in Mb as (cx & cy & gx & gy & -> & -> & Mx & My).
    apply matches_lit_inv in Mx as [-> ->].
    apply matches_group_inv in My as (gy' & -> & My).
    apply matches_plus_class in My as (Hv & Hvall & ->).
    apply matches_cat_inv in M2 as (cl & c3 & gl & g3 & -> & -> & Ml & M3).
    apply matches_lits in Ml as [-> ->].
    apply matches_cat_inv in M3 as (ce & c0 & ge & g0 & -> & -> & Me & M0).
    apply matches_exts in Me as (es & Hes & Hall & -> & ->).
    apply matches_eol_inv in M0 as (-> & -> & Heol).
    exists ca, cy, es. simpl. rewrite !app_nil_r. done.
  - intros (n & v & es & Hn & Hnall & Hv & Hvall & Hes & Hall & Heol & -> & ->).
    constructor.
    + constructor.
      change [(3, v); (2, n)] with ([(3, v)] ++ [] ++ [(2, n)]). rewrite app_assoc.
      constructor.
      * constructor. by apply matches_lazy_class.
      * change ("-"%char :: v) with (["-"%char] ++ v). constructor; [constructor |].
        constructor. by apply matches_plus_class.
    + rewrite <- (app_nil_r (ext_caps es)).
      constructor; [by apply matches_lits |].
      rewrite <- (app_nil_r (concat es)), <- (app_nil_l (ext_caps es)).
      constructor; [| by constructor].
      apply matches_exts. exists es. done.
Qed.

Lemma tarball_re_wf : wf Package.tarball_re = true.
Proof. reflexivity. Qed.

(** The object [__init__] builds from a match, before it looks for the
    manifest file. *)
Definition parsed (self : Package.t) (m : Re.match_object) : Package.t :=
  Package.mk (Package.group_str m 0) (Package.group_str m 1) (Package.group_str m 2)
             (if String.eqb (Package.title self) EmptyString
              then Package.group_str m 2 else Package.title self)
             (Package.group_str m 3) (Package.manifest self).

(** The manifest file [__init__] looks for, and what it does on finding
    it. *)
Definition sibling_manifest (w : World) (p : Package.t) : string :=
  join (cwd w) (Package.name p +:+ ".xml").

Definition adopt (w : World) (p : Package.t) : Package.t :=
  if isfile_in w (sibling_manifest w p)
  then Package.set_manifest p (Some (Package.ManifestPath (sibling_manifest w p)))
  else p.

Lemma init_with_tarball self s w :
  s ≠ EmptyString →
  Package.__init__ self (Some s) w =
    match Re.re_match Package.tarball_re s with
    | Some m => (Ok (adopt w (parsed self m)), w)
    | None => (Raise (Exception ("Cannot parse tarball name: " +:+ s)), w)
    end.
Proof.
  intros Hs. unfold Package.__init__, bind. simpl.
  destruct (String.eqb_spec s EmptyString) as [|_]; [done |]. simpl.
  destruct (Re.re_match Package.tarball_re s) as [m|]; [| done].
  unfold adopt, sibling_manifest, parsed. simpl. done.
Qed.

Lemma init_without_tarball self w :
  Package.__init__ self None w = (Ok (adopt w self), w).
Proof. reflexivity. Qed.

Lemma init_empty_tarball self w :
  Package.__init__ self (Some EmptyString) w = (Ok (adopt w self), w).
Proof. reflexivity. Qed.

(** *** Decomposing an archive name *)

Lemma span_unique {A} (P : A → bool) (l1 l2 : list A) x y r1 r2 :
  forallb P l1 = true → P x = false → forallb P l2 = true → P y = false →
  l1 ++ x :: r1 = l2 ++ y :: r2 → l1 = l2 ∧ x = y ∧ r1 = r2.
Proof.
  revert l2. induction l1 as [|a l1 IH]; intros [|b l2] H1 Hx H2 Hy E; simpl in *.
  - by injection E as -> ->.
  - injection E as -> _. apply andb_true_iff in H2 as [H2 _]. congruence.
  - injection E as -> _. apply andb_true_iff in H1 as [H1 _]. congruence.
  - injection E as -> E. apply andb_true_iff in H1 as [_ H1].
    apply andb_true_iff in H2 as [_ H2].
    destruct (IH l2 H1 Hx H2 Hy E) as (-> & -> & ->). done.
Qed.

Lemma first_violation {A} (P : A → bool) (l : list A) a :
  P a = false →
  ∃ l1 x l2, l ++ [a] = l1 ++ x :: l2 ∧ forallb P l1 = true ∧ P x = false.
Proof.
  intros Ha. induction l as [|b l (l1 & x & l2 & E & H1 & Hx)]; simpl.
  - exists [], a, []. done.
  - destruct (P b) eqn:Hb.
    + exists (b :: l1), x, l2. simpl. rewrite E, Hb, H1. done.
    + exists [], b, (l ++ [a]). done.
Qed.

Lemma at_eol_cases rest :
  Re.at_eol rest = true → rest = [] ∨ rest = chars nl.
Proof.
  destruct rest as [|c [|? ?]]; simpl; try done; [auto |].
  intros H. apply Ascii.eqb_eq in H as ->. by right.
Qed.

Ltac rev_eq H :=
  apply (f_equal (@rev ascii)) in H;
  repeat (rewrite ?rev_app_distr, ?concat_app in H; simpl in H).

Ltac ext_cases H :=
  simpl in H; destruct H as [<- | [<- | [<- | []]]].

(** A name that ends in an extension does not end in a newline. *)
Lemma ext_then_eol (a e c rest : list ascii) :
  In e (map chars exts) → Re.at_eol rest = true → a ++ e = c ++ rest → rest = [].
Proof.
  intros He Hr E. apply at_eol_cases in Hr as [-> | ->]; [done |].
  exfalso. ext_cases He; rev_eq E; congruence.
Qed.

(** After [.tar.], a name that ends in [.tar.<ext>] holds one extension. *)
Lemma ext_single (a b e : list ascii) (es : list (list ascii)) :
  In e (map chars exts) → es ≠ [] → Forall (λ e, In e (map chars exts)) es →
  a ++ chars ".tar." ++ e = b ++ chars ".tar." ++ concat es →
  ∃ e', In e' (map chars exts) ∧ concat es = e'.
Proof.
  intros He Hes Hall E.
  destruct (exists_last Hes) as (es0 & e2 & ->).
  apply Forall_app in Hall as [Hall0 He2]. apply Forall_cons in He2 as [He2 _].
  destruct es0 as [|e0 es0'].
  - exists e2. simpl. by rewrite app_nil_r.
  - exfalso. assert (Hne : e0 :: es0' ≠ []) by done.
    destruct (exists_last Hne) as (es1 & e1 & E1). rewrite E1 in *. clear E1 Hne.
    apply Forall_app in Hall0 as [_ He1]. apply Forall_cons in He1 as [He1 _].
    ext_cases He; ext_cases He1; ext_cases He2; rev_eq E; congruence.
Qed.

Lemma forallb_snoc {A} (P : A → bool) l a :
  forallb P (l ++ [a]) = true → forallb P l = true ∧ P a = true.
Proof.
  rewrite forallb_app. simpl. rewrite andb_true_r. apply andb_true_iff.
Qed.

(** *** The order of the search

    [re] reports the first outcome of the search.  The name is matched by
    a lazy repetition, so the search tries the shortest name first: the
    name [re] reports is the shortest one with which the rest of the
    pattern matches. *)

(** The first outcome of a concatenation comes from the first outcome of
    its left part that the right part can continue. *)
Lemma flat_map_head {A B} (f : A → list B) (l : list A) (x : B) (rest : list B) :
  flat_map f l = x :: rest →
  ∃ l1 a l2 r, l = l1 ++ a :: l2 ∧ Forall (λ b, f b = []) l1 ∧ f a = x :: r.
Proof.
  induction l as [|a l IH]; [done |]. cbn [flat_map].
  destruct (f a) as [|y r] eqn:Ea.
  - intros H. destruct (IH H) as (l1 & a' & l2 & r' & -> & Hall & Ha').
    exists (a :: l1), a', l2, r'. split; [done |]. split; [by constructor | done].
  - intros [= -> _]. exists [], a, l, r. done.
Qed.

(** Lists in the order of a key. *)
Fixpoint sorted_by {A} (key : A → nat) (l : list A) : Prop :=
  match l with
  | [] => True
  | a :: l' => Forall (λ o, key a ≤ key o) l' ∧ sorted_by key l'
  end.

Lemma sorted_by_app {A} (key : A → nat) (l1 l2 : list A) :
  sorted_by key l1 → sorted_by key l2 →
  (∀ a o, In a l1 → In o l2 → key a ≤ key o) →
  sorted_by key (l1 ++ l2).
Proof.
  induction l1 as [|a l1 IH]; [done |]. cbn [sorted_by app].
  intros [Ha H1] H2 Hcross. split.
  - apply Forall_app. split; [done |]. apply List.Forall_forall.
    intros o Ho. apply Hcross; [by left | done].
  - apply IH; [done | done |]. intros b o Hb Ho. apply Hcross; [by right | done].
Qed.

Lemma sorted_by_map {A B} (f : A → B) (key : B → nat) (l : list A) :
  sorted_by (λ a, key (f a)) l → sorted_by key (map f l).
Proof.
  induction l as [|a l IH]; [done |]. cbn [sorted_by map].
  intros [Ha Hl]. split; [| by apply IH].
  apply List.Forall_forall. intros o Ho. apply in_map_iff in Ho as (b & <- & Hb).
  rewrite List.Forall_forall in Ha. by apply Ha.
Qed.

Lemma sorted_by_mono {A} (key key' : A → nat) (l : list A) :
  (∀ a b, key a ≤ key b → key' a ≤ key' b) →
  sorted_by key l → sorted_by key' l.
Proof.
  intros Hm. induction l as [|a l IH]; [done |]. cbn [sorted_by].
  intros [Ha Hl]. split; [| by apply IH].
  eapply Forall_impl; [exact Ha |]. intros o. apply Hm.
Qed.

Lemma sorted_by_const {A} (key : A → nat) (l : list A) (k : nat) :
  (∀ x, In x l → key x = k) → sorted_by key l.
Proof.
  induction l as [|a l IH]; [done |]. intros Hk. cbn [sorted_by]. split.
  - apply List.Forall_forall. intros o Ho.
    rewrite (Hk a) by (by left). rewrite (Hk o) by (by right). done.
  - apply IH. intros x Hx. apply Hk. by right.
Qed.

Lemma sorted_by_flat_map {A B} (k : A → nat) (key : B → nat) (f : A → list B)
    (l : list A) :
  sorted_by k l → (∀ a x, In a l → In x (f a) → key x = k a) →
  sorted_by key (flat_map f l).
Proof.
  induction l as [|a l IH]; [done |]. cbn [sorted_by flat_map].
  intros [Ha Hl] Hk. apply sorted_by_app.
  - apply (sorted_by_const key (f a) (k a)). intros x Hx. apply Hk; [by left | done].
  - apply IH; [done |]. intros b x Hb Hx. apply Hk; [by right | done].
  - intros x y Hx Hy. apply in_flat_map in Hy as (b & Hb & Hy).
    rewrite (Hk a x) by (done || by left). rewrite (Hk b y) by (done || by right).
    rewrite List.Forall_forall in Ha. by apply Ha.
Qed.

Lemma sorted_by_tail {A} (key : A → nat) (l1 l2 : list A) (a o : A) :
  sorted_by key (l1 ++ a :: l2) → In o (a :: l2) → key a ≤ key o.
Proof.
  induction l1 as [|b l1 IH]; cbn [sorted_by app].
  - intros [Ha _] [<- | Ho]; [done |]. rewrite List.Forall_forall in Ha. by apply Ha.
  - intros [_ Hl]. by apply IH.
Qed.

(** The length of the text of an outcome, and of the name it binds. *)
Definition text_len (o : Re.outcome) : nat := length (fst (fst o)).

Definition name_len (g : Re.caps) : nat :=
  length (default [] (Re.lookup_cap 2 g)).

(** A lazy repetition of a class tries the shorter texts first. *)
Lemma lazy_class_sorted (ok : ascii → bool) (fuel : nat) (s : list ascii) :
  sorted_by text_len (Re.plus_lazy_loop (Re.step_char ok) fuel s).
Proof.
  revert s. induction fuel as [|fuel IH]; intros s; [done |].
  cbn [Re.plus_lazy_loop]. destruct s as [|a s']; [done |].
  cbn [Re.step_char]. destruct (ok a); [| done].
  cbn [flat_map]. rewrite app_nil_r. cbn [sorted_by]. split.
  - apply List.Forall_forall. intros o Ho.
    apply then_In in Ho as ([[c2 s2] g2] & _ & ->). unfold text_len. simpl. lia.
  - unfold Re.then_. apply sorted_by_map.
    apply (sorted_by_mono text_len); [| apply IH].
    intros [[c1 s1] g1] [[c2 s2] g2]. unfold text_len. simpl. lia.
Qed.

(** The parts of the pattern. *)
Definition name_group : Re.regex := Re.Group 2 (Re.PlusLazy Package.name_class).
Definition version_part : Re.regex :=
  Re.Cat (Re.Lit "-") (Re.Group 3 (Re.Plus Package.version_class)).
Definition base_group : Re.regex := Re.Group 1 (Re.Cat name_group version_part).
Definition ext_part : Re.regex :=
  Re.Cat (Re.lits ".tar.") (Re.Cat (Re.Plus (Re.Group 4 Package.ext_alt)) Re.Eol).

Lemma tarball_re_parts : Package.tarball_re = Re.Cat base_group ext_part.
Proof. reflexivity. Qed.

Lemma version_part_caps c rest g :
  matches version_part c rest g → ∃ v, g = [(3, v)].
Proof.
  intros H. apply matches_cat_inv in H as (c1 & c2 & g1 & g2 & -> & -> & M1 & M2).
  apply matches_lit_inv in M1 as [-> ->].
  apply matches_group_inv in M2 as (g' & -> & M2).
  apply matches_plus_class in M2 as (_ & _ & ->). by exists c2.
Qed.

Lemma ext_part_caps c rest g :
  matches ext_part c rest g → name_len (g ++ []) = 0 ∧ ∀ g', name_len (g ++ g') = name_len g'.
Proof.
  intros H. apply matches_cat_inv in H as (c1 & c2 & g1 & g2 & -> & -> & M1 & M2).
  apply matches_lits in M1 as [-> ->].
  apply matches_cat_inv in M2 as (ce & c0 & ge & g0 & -> & -> & Me & M0).
  apply matches_exts in Me as (es & _ & _ & -> & ->).
  apply matches_eol_inv in M0 as (-> & -> & _).
  assert (Hskip : ∀ g', name_len ((([] ++ ext_caps es) ++ []) ++ g') = name_len g').
  { intros g'. unfold name_len. rewrite app_nil_r. cbn [app].
    rewrite lookup_cap_skip; [done |].
    eapply Forall_impl; [apply ext_caps_only_4 |]. simpl. intros ? ?. lia. }
  split; [by rewrite Hskip | exact Hskip].
Qed.

(** The outcomes of the base group come in the order of the length of the
    name. *)
Lemma base_group_sorted (s : list ascii) :
  sorted_by (λ o, name_len (snd o)) (Re.exec base_group s).
Proof.
  change (Re.exec base_group s)
    with (map (Re.bind_group 1)
            (flat_map (λ o, Re.then_ o (Re.exec version_part))
               (map (Re.bind_group 2)
                  (Re.plus_lazy_loop
                     (Re.step_char (Re.in_class true [("0", "9")]%char))
                     (S (length s)) s)))).
  apply sorted_by_map.
  apply (sorted_by_flat_map text_len).
  - apply sorted_by_map.
    apply (sorted_by_mono text_len); [| apply lazy_class_sorted].
    by intros [[c1 s1] g1] [[c2 s2] g2].
  - intros a x Ha Hx. apply in_map_iff in Ha as ([[c s1] g0] & <- & Ha).
    apply then_In in Hx as ([[c2 s2] g2] & Hx & ->).
    apply exec_sound in Hx as [_ Hx]. apply version_part_caps in Hx as [v ->].
    reflexivity.
Qed.

(** The name [re.match] reports is no longer than the name of any match
    of the pattern at the start of the text. *)
Lemma tarball_match_first (s : string) (m : Re.match_object) c' rest' g' :
  Re.re_match Package.tarball_re s = Some m →
  chars s = c' ++ rest' → matches Package.tarball_re c' rest' g' →
  name_len (Re.groups m) ≤ name_len g'.
Proof.
  unfold Re.re_match. rewrite tarball_re_parts.
  destruct (Re.exec _ (chars s)) as [|[[c r] g] l] eqn:E; [done |].
  intros [= <-] Es M. cbn [Re.groups].
  change (Re.exec (Re.Cat base_group ext_part) (chars s))
    with (flat_map (λ o, Re.then_ o (Re.exec ext_part)) (Re.exec base_group (chars s)))
    in E.
  apply flat_map_head in E as (l1 & a & l2 & r' & EL & Hfail & Ha).
  assert (Hin : In (c, r, g) (Re.then_ a (Re.exec ext_part))) by (rewrite Ha; by left).
  apply then_In in Hin as ([[c2 s2] g2] & H2 & Eg).
  apply exec_sound in H2 as [_ H2]. apply ext_part_caps in H2 as [_ H2].
  destruct a as [[ca sa] ga]. cbn [Re.glue] in Eg. injection Eg as -> -> ->.
  rewrite H2.
  apply matches_cat_inv in M as (c1 & c2' & g1' & g2' & -> & -> & M1 & M2).
  pose proof (ext_part_caps _ _ _ M2) as [_ H2']. rewrite H2'.
  apply exec_complete in M1; [| reflexivity].
  apply exec_complete in M2; [| reflexivity].
  rewrite <- app_assoc in Es. rewrite <- Es, EL in M1.
  apply in_app_iff in M1 as [M1 | M1].
  - exfalso. rewrite List.Forall_forall in Hfail. specialize (Hfail _ M1). cbv beta in Hfail.
    match type of Hfail with
    | ?t = [] =>
        assert (Hx : In (Re.glue (c1, c2' ++ rest', g1') (c2', rest', g2')) t)
    end.
    { apply then_In. by exists (c2', rest', g2'). }
    by rewrite Hfail in Hx.
  - pose proof (base_group_sorted (chars s)) as Hs. rewrite EL in Hs.
    exact (sorted_by_tail _ _ _ _ _ Hs M1).
Qed.

Lemma append_empty_r (s : string) : s +:+ EmptyString = s.
Proof.
  induction s as [|a s IH]; [reflexivity |].
  change (String a (s +:+ EmptyString) = String a s). by rewrite IH.
Qed.

Lemma str_concat (es : list (list ascii)) :
  str (concat es) = String.concat EmptyString (map str es).
Proof.
  induction es as [|e es IH]; [done |].
  simpl concat. rewrite str_app, IH. destruct es as [|e' es]; simpl.
  - apply append_empty_r.
  - done.
Qed.

Lemma ext_of_chars e :
  In e (map chars exts) → ∃ e0, In e0 exts ∧ e = chars e0.
Proof. rewrite in_map_iff. intros (e0 & <- & H). eauto. Qed.

Lemma ext_no_dash es :
  Forall (λ e, In e (map chars exts)) es → Forall (λ c, c ≠ "-"%char) (concat es).
Proof.
  induction 1 as [|e es He _ IH]; simpl; [constructor |].
  apply Forall_app. split; [| done].
  ext_cases He; repeat constructor; done.
Qed.

Lemma adopt_fields w p :
  Package.tarball (adopt w p) = Package.tarball p
  ∧ Package.base (adopt w p) = Package.base p
  ∧ Package.name (adopt w p) = Package.name p
  ∧ Package.title (adopt w p) = Package.title p
  ∧ Package.version (adopt w p) = Package.version p.
Proof. unfold adopt. by destruct (isfile_in _ _). Qed.

(** A dash of the name, not its first character, that only dashes, dots
    and underscores separate from the end of the name: the pattern can end
    the name before such a dash, and, taking the shortest name, it does. *)
Fixpoint dash_tail (l : list ascii) : bool :=
  match l with
  | [] => false
  | a :: l' => (Ascii.eqb a "-" && forallb version_char l') || dash_tail l'
  end.

Definition splits_early (n : string) : bool :=
  match chars n with
  | [] => false
  | _ :: l => dash_tail l
  end.

Lemma dash_tail_app (n k : list ascii) :
  forallb version_char k = true → dash_tail (n ++ "-"%char :: k) = true.
Proof.
  intros Hk. induction n as [|a n IH]; cbn [app dash_tail].
  - by rewrite Hk.
  - rewrite IH. apply orb_true_r.
Qed.

Lemma dash_tail_split (l : list ascii) :
  dash_tail l = true →
  ∃ n k, l = n ++ "-"%char :: k ∧ forallb version_char k = true.
Proof.
  induction l as [|a l IH]; [done |]. cbn [dash_tail]. intros H.
  apply orb_true_iff in H as [H | H].
  - apply andb_true_iff in H as [Ha Hl]. apply Ascii.eqb_eq in Ha as ->.
    by exists [], l.
  - destruct (IH H) as (n & k & -> & Hk). by exists (a :: n), k.
Qed.

(** After a version, [.t] follows; a dash cannot come later. *)
Lemma version_run (v k x y : list ascii) :
  forallb version_char v = true → Forall (λ c, c ≠ "-"%char) x →
  v ++ "."%char :: "t"%char :: x = k ++ "-"%char :: y →
  forallb version_char k = true.
Proof.
  intros Hv Hx. revert v Hv. induction k as [|z k IH]; intros v Hv E; [done |].
  destruct v as [|d v].
  - exfalso. cbn [app] in E. injection E as <- E. destruct k as [|z' k].
    + discriminate E.
    + cbn [app] in E. injection E as <- E. rewrite List.Forall_forall in Hx.
      apply (Hx "-"%char); [| done]. rewrite E. apply in_app_iff. right. by left.
  - cbn [app] in E. injection E as <- E. cbn [forallb] in Hv.
    apply andb_true_iff in Hv as [Hd Hv]. cbn [forallb]. rewrite Hd.
    by apply (IH v).
Qed.

Lemma version_unique (v v' x x' : list ascii) :
  forallb version_char v = true → forallb version_char v' = true →
  v ++ chars ".tar." ++ x = v' ++ chars ".tar." ++ x' → v = v'.
Proof.
  intros Hv Hv' E.
  assert (E3 : (v ++ ["."%char]) ++ "t"%char :: chars "ar." ++ x
               = (v' ++ ["."%char]) ++ "t"%char :: chars "ar." ++ x').
  { rewrite <- !app_assoc. exact E. }
  apply span_unique with (P := version_char) in E3 as (E3 & _ & _); try done.
  - by apply app_inj_tail in E3 as [-> _].
  - rewrite forallb_app, Hv. done.
  - rewrite forallb_app, Hv'. done.
Qed.

Lemma name_ok_chars n :
  name_ok n = true ↔ chars n ≠ [] ∧ forallb name_char (chars n) = true.
Proof.
  unfold name_ok. rewrite andb_true_iff.
  destruct (chars n); simpl; intuition congruence.
Qed.

Lemma version_ok_chars v :
  version_ok v = true ↔ chars v ≠ [] ∧ forallb version_char (chars v) = true.
Proof.
  unfold version_ok. rewrite andb_true_iff.
  destruct (chars v); simpl; intuition congruence.
Qed.

Lemma archive_chars (n v x : string) :
  chars (n +:+ "-" +:+ v +:+ ".tar." +:+ x)
  = (chars n ++ "-"%char :: chars v) ++ chars ".tar." ++ chars x.
Proof. rewrite !chars_app. simpl. by rewrite <- !app_assoc. Qed.

(** What [re.match] answers on an archive name, and on any name it
    accepts. *)
Lemma tarball_match_inv s m :
  Re.re_match Package.tarball_re s = Some m →
  ∃ n v es rest,
    n ≠ [] ∧ forallb name_char n = true ∧ v ≠ [] ∧ forallb version_char v = true
    ∧ es ≠ [] ∧ Forall (λ e, In e (map chars exts)) es ∧ Re.at_eol rest = true
    ∧ chars s = ((n ++ "-"%char :: v) ++ chars ".tar." ++ concat es) ++ rest
    ∧ Re.group0 m = str ((n ++ "-"%char :: v) ++ chars ".tar." ++ concat es)
    ∧ Package.group_str m 1 = str (n ++ "-"%char :: v)
    ∧ Package.group_str m 2 = str n
    ∧ Package.group_str m 3 = str v.
Proof.
  intros H. apply re_match_Some in H as (c & rest & E & M & E0).
  apply tarball_matches in M
    as (n & v & es & Hn & Hnall & Hv & Hvall & Hes & Hall & Heol & -> & Eg).
  exists n, v, es, rest. repeat split; try done.
  all: unfold Package.group_str, Re.group; rewrite Eg.
  all: rewrite lookup_cap_skip; [done |].
  all: eapply Forall_impl; [apply ext_caps_only_4 |]; simpl; intros ? ?; lia.
Qed.

Lemma tarball_match_archive n v e :
  name_ok n = true → version_ok v = true → In e exts →
  ∃ m, Re.re_match Package.tarball_re (n +:+ "-" +:+ v +:+ ".tar." +:+ e) = Some m.
Proof.
  intros Hn Hv He. apply name_ok_chars in Hn as [Hn Hnall].
  apply version_ok_chars in Hv as [Hv Hvall].
  destruct (Re.re_match _ _) as [m|] eqn:E; [eauto |]. exfalso.
  rewrite re_match_None in E by apply tarball_re_wf.
  eapply (E _ []); [by rewrite app_nil_r |].
  apply tarball_matches. exists (chars n), (chars v), [chars e].
  repeat split; try done.
  - constructor; [| constructor]. by apply in_map.
  - rewrite archive_chars. simpl. by rewrite app_nil_r.
Qed.

(** A world to run examples in: an empty root directory. *)
Definition empty_world : World :=
  mkWorld (Dir (Stat 0 0 493) []) "/" ∅ [].

(** What [re.match] answers on an archive name, with the order of the
    search: the name it reports is no longer than the name of any way of
    reading the text as a name, a dash, a version, [.tar.] and
    extensions. *)
Lemma tarball_match_shortest s m n' v' es' rest' :
  Re.re_match Package.tarball_re s = Some m →
  n' ≠ [] → forallb name_char n' = true → v' ≠ [] → forallb version_char v' = true →
  es' ≠ [] → Forall (λ e, In e (map chars exts)) es' → Re.at_eol rest' = true →
  chars s = ((n' ++ "-"%char :: v') ++ chars ".tar." ++ concat es') ++ rest' →
  length (chars (Package.group_str m 2)) ≤ length n'.
Proof.
  intros Hm Hn Hnall Hv Hvall Hes Hall Heol Es.
  assert (M : matches Package.tarball_re
                ((n' ++ "-"%char :: v') ++ chars ".tar." ++ concat es') rest'
                (ext_caps es' ++ [(1, n' ++ "-"%char :: v'); (3, v'); (2, n')])).
  { apply tarball_matches. exists n', v', es'. done. }
  pose proof (tarball_match_first s m _ _ _ Hm Es M) as Hle.
  pose proof Hm as Hm'. apply re_match_Some in Hm' as (c & rest & _ & M0 & _).
  apply tarball_matches in M0 as (n & v & es & _ & _ & _ & _ & _ & _ & _ & _ & Eg).
  destruct (tarball_match_inv s m Hm) as (n0 & v0 & es0 & rest0 & _ & _ & _ & _ & _ & _
                                          & _ & _ & _ & _ & E2 & _).
  assert (Hskip : ∀ es1 a b c1, name_len (ext_caps es1 ++ [(1, a); (3, b); (2, c1)])
                               = length c1).
  { intros es1 a b c1. unfold name_len. rewrite lookup_cap_skip; [done |].
    eapply Forall_impl; [apply ext_caps_only_4 |]. simpl. intros ? ?. lia. }
  rewrite Eg, !Hskip in Hle.
  assert (En : Package.group_str m 2 = str n).
  { unfold Package.group_str, Re.group. rewrite Eg.
    rewrite lookup_cap_skip; [done |].
    eapply Forall_impl; [apply ext_caps_only_4 |]. simpl. intros ? ?. lia. }
  by rewrite En, chars_str.
Qed.

Lemma init_archive_name (self : Package.t) (w : World) (n v e : string) :
  name_ok n = true → version_ok v = true → In e exts →
  let s := n +:+ "-" +:+ v +:+ ".tar." +:+ e in
  ∃ p, Package.__init__ self (Some s) w = (Ok p, w)
       ∧ Package.tarball p = s
       ∧ Package.base p = Package.name p +:+ "-" +:+ Package.version p
       ∧ name_ok (Package.name p) = true
       ∧ version_ok (Package.version p) = true
       ∧ (∃ e', In e' exts ∧ s = Package.base p +:+ ".tar." +:+ e')
       ∧ ((Package.name p = n ∧ Package.version p = v) ↔ splits_early n = false).
Proof.
  intros Hn Hv He s.
  destruct (tarball_match_archive n v e Hn Hv He) as [m Hm]. fold s in Hm.
  assert (Hs : s ≠ EmptyString).
  { apply name_ok_chars in Hn as [Hn _]. intros E. apply Hn.
    apply (f_equal chars) in E. unfold s in E. rewrite chars_app in E.
    by apply app_eq_nil in E as [E _]. }
  rewrite (init_with_tarball self s w Hs), Hm.
  destruct (tarball_match_inv s m Hm)
    as (n' & v' & es & rest & Hn' & Hnall' & Hv' & Hvall' & Hes & Hall & Heol
        & Ec & E0 & E1 & E2 & E3).
  assert (Es : chars s = (chars n ++ "-"%char :: chars v) ++ chars ".tar." ++ chars e)
    by apply archive_chars.
  assert (Hrest : rest = []).
  { apply (ext_then_eol ((chars n ++ "-"%char :: chars v) ++ chars ".tar.") (chars e)
             ((n' ++ "-"%char :: v') ++ chars ".tar." ++ concat es) rest);
      [by apply in_map | done |].
    rewrite <- Ec, Es. by rewrite <- !app_assoc. }
  subst rest. rewrite app_nil_r in Ec.
  pose proof (tarball_match_shortest s m) as Hshort. rewrite E2, chars_str in Hshort.
  exists (adopt w (parsed self m)). split; [done |].
  destruct (adopt_fields w (parsed self m)) as (-> & -> & -> & _ & ->).
  unfold parsed.
  cbn [Package.tarball Package.base Package.name Package.version].
  change (Package.group_str m 0) with (Re.group0 m).
  rewrite E0, E1, E2, E3, <- Ec, str_chars.
  split; [done |]. split; [by rewrite str_app |].
  split; [apply name_ok_chars; by rewrite chars_str |].
  split; [apply version_ok_chars; by rewrite chars_str |].
  apply name_ok_chars in Hn as [Hn Hnall]. apply version_ok_chars in Hv as [Hv Hvall].
  assert (Ee : chars s = ((chars n ++ "-"%char :: chars v) ++ chars ".tar."
                          ++ concat [chars e]) ++ []).
  { rewrite Es. cbn [concat]. by rewrite !app_nil_r. }
  split.
  - destruct (ext_single (chars n ++ "-"%char :: chars v) (n' ++ "-"%char :: v')
                (chars e) es) as (e' & He' & Ee'); [by apply in_map | done | done | |].
    { rewrite <- Es. exact Ec. }
    apply ext_of_chars in He' as (e0 & He0 & ->). exists e0. split; [done |].
    apply chars_inj. rewrite Ec, Ee', !chars_app, chars_str. done.
  - assert (E' : n' ++ "-"%char :: v' ++ chars ".tar." ++ concat es
                 = chars n ++ "-"%char :: chars v ++ chars ".tar." ++ chars e).
    { rewrite Es in Ec. rewrite <- !app_assoc in Ec. cbn [app] in Ec.
      symmetry. exact Ec. }
    split.
    + (* the name is the given one: no shorter name was there to take *)
      intros [En _]. destruct (splits_early n) eqn:Hearly; [exfalso | done].
      unfold splits_early in Hearly. destruct (chars n) as [|a l] eqn:Ecn; [done |].
      apply dash_tail_split in Hearly as (n2 & k & -> & Hk).
      apply (f_equal chars) in En. rewrite chars_str, Ecn in En.
      cbn [forallb] in Hnall. apply andb_true_iff in Hnall as [Ha Hnall].
      rewrite forallb_app in Hnall. apply andb_true_iff in Hnall as [Hn2 _].
      specialize (Hshort (a :: n2) (k ++ "-"%char :: chars v) [chars e] []).
      rewrite En in Hshort. cbn [length] in Hshort. rewrite length_app in Hshort.
      cbn [length] in Hshort.
      enough (S (length n2 + S (length k)) ≤ S (length n2)) by lia.
      apply Hshort; try done.
      * cbn [forallb]. by rewrite Ha, Hn2.
      * by destruct k.
      * rewrite forallb_app, Hk. done.
      * constructor; [by apply in_map | constructor].
      * rewrite Ee. cbn [concat]. rewrite !app_nil_r. rewrite <- !app_assoc.
        cbn [app]. by rewrite <- !app_assoc.
    + (* no shorter name: the name and the version are the given ones *)
      intros Hearly.
      pose proof (Hshort (chars n) (chars v) [chars e] [] Hm Hn Hnall Hv Hvall) as Hle.
      assert (Hlen : length n' ≤ length (chars n)).
      { apply Hle; [done | | done | exact Ee].
        constructor; [by apply in_map | constructor]. }
      assert (Enn : n' = chars n).
      { apply app_eq_app in E' as (k & [[E1' E2'] | [E1' E2']]).
        - destruct k as [|z k]; [by rewrite app_nil_r in E1' |]. exfalso.
          apply (f_equal (@length ascii)) in E1'. rewrite length_app in E1'.
          cbn [length] in E1'. lia.
        - destruct k as [|z k]; [by rewrite app_nil_r in E1' |]. exfalso.
          cbn [app] in E2'. injection E2' as <- E2'.
          assert (Hk : forallb version_char k = true).
          { apply (version_run v' k (chars "ar." ++ concat es)
                     (chars v ++ chars ".tar." ++ chars e)); [done | | exact E2'].
            apply Forall_app. split; [| by apply ext_no_dash].
            repeat constructor; done. }
          unfold splits_early in Hearly. rewrite E1' in Hearly.
          destruct n' as [|a n2]; [done |]. cbn [app] in Hearly.
          by rewrite (dash_tail_app n2 k Hk) in Hearly. }
      subst n'. apply app_inv_head in E'. injection E' as E'.
      apply version_unique in E' as ->; [| done | done].
      by rewrite !str_chars.
Qed.

Lemma init_rejects (self : Package.t) (w : World) (s : string) :
  s ≠ EmptyString → ¬ accepted_name s →
  Package.__init__ self (Some s) w
  = (Raise (Exception ("Cannot parse tarball name: " +:+ s)), w).
Proof.
  intros Hs Hno. rewrite (init_with_tarball self s w Hs).
  destruct (Re.re_match Package.tarball_re s) as [m|] eqn:Hm; [| done].
  exfalso. apply Hno.
  destruct (tarball_match_inv s m Hm)
    as (n & v & es & rest & Hn & Hnall & Hv & Hvall & Hes & Hall & Heol
        & Ec & _).
  exists (str n), (str v), (map str es), (str rest). repeat split.
  - apply name_ok_chars. by rewrite chars_str.
  - apply version_ok_chars. by rewrite chars_str.
  - by destruct es.
  - apply Forall_map. eapply Forall_impl; [exact Hall |]. simpl.
    intros e He. apply ext_of_chars in He as (e0 & He0 & ->). by rewrite str_chars.
  - apply at_eol_cases in Heol as [-> | ->]; auto.
  - apply chars_inj. rewrite Ec, !chars_app, <- str_concat, !chars_str. simpl.
    by rewrite <- !app_assoc.
Qed.

Lemma accepted_has_dash s : accepted_name s → In "-"%char (chars s).
Proof.
  intros (n & v & es & tail & _ & _ & _ & _ & _ & ->).
  rewrite !chars_app. apply in_app_iff. right. by left.
Qed.

(** C1, as amended.  Constructing a [Package] from a file name of the form
    [<name>-<version>.tar.<ext>] succeeds: the tarball is the whole file
    name and the base is [name-version] for a name and a version that the
    file name holds before [.tar.<ext>].  They are the given name and
    version exactly when the given name does not split early: the pattern
    takes the shortest name, so a dash of the name with only dashes, dots
    and underscores after it ends the name there.  A non-empty file name
    that the pattern does not accept (name, dash, version, [.tar.], one or
    more extensions, an optional final newline) raises the parse error.
    With no tarball, or with the empty one, nothing is parsed and nothing
    raised: the construction keeps the identity fields as the class or
    the subclass has set them. *)
Theorem init_parses_archive_names (self : Package.t) (w : World) (s : string) :
  (∀ n v e, name_ok n = true → version_ok v = true → In e exts →
            s = n +:+ "-" +:+ v +:+ ".tar." +:+ e →
     ∃ p, Package.__init__ self (Some s) w = (Ok p, w)
          ∧ Package.tarball p = s
          ∧ Package.base p = Package.name p +:+ "-" +:+ Package.version p
          ∧ name_ok (Package.name p) = true
          ∧ version_ok (Package.version p) = true
          ∧ (∃ e', In e' exts ∧ s = Package.base p +:+ ".tar." +:+ e')
          ∧ ((Package.name p = n ∧ Package.version p = v)
             ↔ splits_early n = false))
  ∧ (s ≠ EmptyString → ¬ accepted_name s →
     Package.__init__ self (Some s) w
     = (Raise (Exception ("Cannot parse tarball name: " +:+ s)), w))
  ∧ (∀ tarball, tarball = None ∨ tarball = Some EmptyString →
     ∃ p, Package.__init__ self tarball w = (Ok p, w)
          ∧ Package.tarball p = Package.tarball self
          ∧ Package.base p = Package.base self
          ∧ Package.name p = Package.name self
          ∧ Package.title p = Package.title self
          ∧ Package.version p = Package.version self).
Proof.
  split; [| split].
  - intros n v e Hn Hv He ->. by apply init_archive_name.
  - apply init_rejects.
  - intros tarball Ht. exists (adopt w self). split.
    + destruct Ht as [-> | ->]; [apply init_without_tarball | apply init_empty_tarball].
    + destruct (adopt_fields w self) as (-> & -> & -> & -> & ->). done.
Qed.

Lemma gzgz_not_archive_name : ¬ archive_name "foo-2.3.tar.gzgz".
Proof.
  intros (n & v & e & _ & _ & He & E).
  apply (f_equal chars) in E. rewrite archive_chars in E.
  ext_cases He; rev_eq E; congruence.
Qed.

Lemma empty_not_archive_name : ¬ archive_name EmptyString.
Proof.
  intros (n & v & e & Hn & _ & _ & E). apply name_ok_chars in Hn as [Hn _].
  apply (f_equal chars) in E. rewrite archive_chars in E. simpl in E.
  symmetry in E. apply app_eq_nil in E as [E _]. by apply app_eq_nil in E as [E _].
Qed.

(** C1, as stated, fails in three ways.  A repeated extension is parsed,
    though the file name is not of the form [<name>-<version>.tar.<ext>].
    The empty name is taken for no tarball at all and raises nothing.  And
    [foo--1.tar.gz], which is of the form with the name [foo-] and the
    version [1], is parsed as the name [foo] and the version [-1]. *)
Lemma init_accepts_other_names :
  (¬ archive_name "foo-2.3.tar.gzgz"
   ∧ ∃ p, Package.__init__ Package.class_attrs (Some "foo-2.3.tar.gzgz") empty_world
          = (Ok p, empty_world)
          ∧ Package.base p = "foo-2.3" ∧ Package.tarball p = "foo-2.3.tar.gzgz")
  ∧ (¬ archive_name EmptyString
     ∧ Package.__init__ Package.class_attrs (Some EmptyString) empty_world
       = (Ok Package.class_attrs, empty_world))
  ∧ (name_ok "foo-" = true ∧ version_ok "1" = true
     ∧ "foo--1.tar.gz" = "foo-" +:+ "-" +:+ "1" +:+ ".tar." +:+ "gz"
     ∧ ∃ p, Package.__init__ Package.class_attrs (Some "foo--1.tar.gz") empty_world
            = (Ok p, empty_world)
            ∧ Package.name p = "foo" ∧ Package.version p = "-1"
            ∧ Package.base p = "foo--1").
Proof.
  split; [| split]; [split | split |].
  - apply gzgz_not_archive_name.
  - eexists. split; [vm_compute; reflexivity | done].
  - apply empty_not_archive_name.
  - vm_compute. reflexivity.
  - split; [reflexivity |]. split; [reflexivity |]. split; [reflexivity |].
    eexists. split; [vm_compute; reflexivity | done].
Qed.

(** The theorem at [foo-2.3.tar.gz], at [foo.zip] and at the empty
    name. *)
Lemma init_parses_archive_names_witness :
  (∃ p, Package.__init__ Package.class_attrs (Some "foo-2.3.tar.gz") empty_world
        = (Ok p, empty_world)
        ∧ Package.name p = "foo" ∧ Package.version p = "2.3")
  ∧ Package.__init__ Package.class_attrs (Some "foo.zip") empty_world
    = (Raise (Exception "Cannot parse tarball name: foo.zip"), empty_world)
  ∧ ∃ p, Package.__init__ Package.class_attrs (Some EmptyString) empty_world
         = (Ok p, empty_world)
         ∧ Package.name p = EmptyString.
Proof.
  destruct (init_parses_archive_names Package.class_attrs empty_world "foo-2.3.tar.gz")
    as (H1 & _ & _).
  destruct (init_parses_archive_names Package.class_attrs empty_world "foo.zip")
    as (_ & H2 & H3).
  split; [| split].
  - destruct (H1 "foo" "2.3" "gz") as (p & Hp & _ & _ & _ & _ & _ & Hu);
      [reflexivity | reflexivity | simpl; auto | reflexivity |].
    exists p. split; [exact Hp |]. apply Hu. reflexivity.
  - apply H2; [discriminate |]. intros H. apply accepted_has_dash in H.
    simpl in H. intuition discriminate.
  - destruct (H3 (Some EmptyString)) as (p & Hp & _ & _ & Hname & _); [by right |].
    exists p. split; [exact Hp | exact Hname].
Defined.

(** ** The service manifest: method fragments *)

(** An [exec_method] element, as the template spells it. *)
Definition exec_method (name command : string) (timeout : Z) : string :=
  tpl "
    <exec_method name=`" +:+ name +:+ tpl "`
                 type=`method` 
                 exec=`" +:+ command +:+ tpl "` 
                 timeout_seconds=`" +:+ str_of_int timeout +:+ tpl "`>
    </exec_method>
".







(** C3, on the code.  With [start = ("A", 10)], [stop = ("B", 5)] and no
    refresh or restart command, the rendered [refresh] and [restart] run
    the start command first and the stop command second, with the timeout
    15: the command is [A; B], not [B; A]. *)
Theorem refresh_runs_start_before_stop :
  let sm := ServiceManifest.set_stop_command
              (ServiceManifest.set_start_command
                 (ServiceManifest.__init__ "svc" "Service" "application/svc"
                                           None None None) "A" 10) "B" 5 in
  ServiceManifest.methods_xml sm
  = Ok (exec_method "start" "A" 10 +:+ exec_method "stop" "B" 5
        +:+ exec_method "refresh" "A; B" 15 +:+ exec_method "restart" "A; B" 15)
  ∧ exec_method "refresh" "A; B" 15 ≠ exec_method "refresh" "B; A" 15.
Proof. split; [reflexivity | discriminate]. Qed.



(** ** The default lists of [ServiceManifest.__init__] *)

(** Two descriptors built with the defaults, the first one extended before
    the second one is read. *)
Definition extend_then_read (first second : ServiceManifest.t)
    (dependency config_file : string) : M (list string * list string) :=
  ServiceManifest.add_dependency first dependency ;;
  ServiceManifest.add_config_file first config_file ;;
  deps <- ServiceManifest.read_list (ServiceManifest.dependencies second) ;;
  configs <- ServiceManifest.read_list (ServiceManifest.config_files second) ;;
  ret (deps, configs).

(** C10.  The lists a descriptor gets when it is built without the
    [dependencies] and [config_files] arguments are the two lists of the
    class: what [add_dependency] and [add_config_file] append through one
    such descriptor is what another one, built with the defaults, reads. *)
Theorem default_lists_are_shared (w : World) (deps0 configs0 : list string)
    (name1 title1 service1 name2 title2 service2 dependency config_file : string)
    (script1 script2 : option string) :
  heap w !! ServiceManifest.default_dependencies = Some deps0 →
  heap w !! ServiceManifest.default_config_files = Some configs0 →
  let first := ServiceManifest.__init__ name1 title1 service1 None None script1 in
  let second := ServiceManifest.__init__ name2 title2 service2 None None script2 in
  ServiceManifest.dependencies first = ServiceManifest.dependencies second
  ∧ ServiceManifest.config_files first = ServiceManifest.config_files second
  ∧ ∃ w', extend_then_read first second dependency config_file w
          = (Ok (deps0 ++ [dependency], configs0 ++ [config_file]), w').
Proof.
  intros Hd Hc first second. split; [done |]. split; [done |].
  eexists. unfold extend_then_read, bind, ServiceManifest.add_dependency,
    ServiceManifest.add_config_file, ServiceManifest.list_append,
    ServiceManifest.read_list, ret. simpl.
  rewrite lookup_alter_eq, lookup_alter_ne, lookup_alter_eq, lookup_alter_ne by done.
  rewrite Hd, Hc. reflexivity.
Qed.

(** The theorem on the heap the class statement leaves: the second
    descriptor depends on [network] though nothing was added to it. *)
Lemma default_lists_are_shared_witness :
  ∃ w', extend_then_read
          (ServiceManifest.__init__ "a" "A" "application/a" None None None)
          (ServiceManifest.__init__ "b" "B" "application/b" None None None)
          "network" "/etc/a.conf"
          (mkWorld (Dir (Stat 0 0 493) []) "/" ServiceManifest.class_heap [])
        = (Ok (["filesystem"; "network"], ["/etc/a.conf"]), w').
Proof.
  exact (proj2 (proj2 (default_lists_are_shared
           (mkWorld (Dir (Stat 0 0 493) []) "/" ServiceManifest.class_heap [])
           ["filesystem"] [] "a" "A" "application/a" "b" "B" "application/b"
           "network" "/etc/a.conf" None None eq_refl eq_refl))).
Defined.

(** ** Running the script: inversion of the monad *)

Lemma bind_Ok {A B} (m : M A) (k : A → M B) w b w' :
  bind m k w = (Ok b, w') → ∃ a w1, m w = (Ok a, w1) ∧ k a w1 = (Ok b, w').
Proof.
  unfold bind. destruct (m w) as [[a|e] w1] eqn:E; [eauto | discriminate].
Qed.


Lemma bind_step {A B} (m : M A) (k : A → M B) w a w1 :
  m w = (Ok a, w1) → bind m k w = k a w1.
Proof. unfold bind. by intros ->. Qed.

Lemma lift_Ok {A} (r : result A) w a w' :
  lift r w = (Ok a, w') → r = Ok a ∧ w' = w.
Proof. unfold lift. by intros [= -> ->]. Qed.

Lemma ret_Ok {A} (x : A) w a w' : ret x w = (Ok a, w') → a = x ∧ w' = w.
Proof. unfold ret. by intros [= -> ->]. Qed.

Ltac bind_inv H :=
  let a := fresh "a" in
  let w := fresh "w" in
  let H1 := fresh "Hstep" in
  apply bind_Ok in H as (a & w & H1 & H).

Tactic Notation "bind_as" hyp(H) ident(a) ident(w) ident(H1) :=
  apply bind_Ok in H as (a & w & H1 & H).

(** ** The root entry of [prototype] *)

(** A line of [pkgproto] is the entry of the root directory when it starts
    with [d none / ]. *)
Definition is_root_entry (line : string) : bool := startswith "d none / " line.

Lemma lits_wf w : wf (Re.lits w) = true.
Proof. unfold Re.lits. induction (chars w) as [|a l IH]; simpl; [done | exact IH]. Qed.

Lemma prefix_app (w s : string) :
  String.prefix w s = true ↔ ∃ rest, s = w +:+ rest.
Proof.
  revert w. induction s as [|b s IH]; intros [|a w]; simpl.
  - split; [intros _; by exists EmptyString | done].
  - split; [done | intros [rest E]; discriminate].
  - split; [intros _; by exists (String b s) | done].
  - destruct (ascii_dec a b) as [-> | Hne].
    + rewrite IH. split; intros [rest E]; exists rest.
      * by rewrite E.
      * by injection E.
    + split; [done |]. intros [rest E]. injection E as E _. congruence.
Qed.

(** [re.match] with a pattern of ordinary characters is a prefix test. *)
Lemma lits_match_prefix (w s : string) :
  match Re.re_match (Re.lits w) s with Some _ => true | None => false end
  = String.prefix w s.
Proof.
  destruct (Re.re_match (Re.lits w) s) as [m|] eqn:E.
  - symmetry. apply prefix_app.
    apply re_match_Some in E as (c & rest & Ec & M & _).
    apply matches_lits in M as [-> _]. exists (str rest).
    apply chars_inj. by rewrite chars_app, chars_str.
  - destruct (String.prefix w s) eqn:Hp; [| done]. exfalso.
    apply prefix_app in Hp as [rest ->].
    rewrite re_match_None in E by apply lits_wf.
    apply (E (chars w) (chars rest) []); [by rewrite chars_app |].
    by apply matches_lits.
Qed.

Lemma keep_line_spec line : Package.keep_line line = negb (is_root_entry line).
Proof.
  unfold Package.keep_line, is_root_entry, startswith, Package.root_entry_re.
  rewrite <- lits_match_prefix.
  destruct (Re.re_match (Re.lits "d none / ") line); reflexivity.
Qed.

Lemma write_entries_fd prototype lines :
  PrototypeFile.fd (Package.write_entries prototype lines)
  = PrototypeFile.fd prototype ++ List.filter (λ l, negb (is_root_entry l)) lines.
Proof.
  unfold Package.write_entries. revert prototype.
  induction lines as [|line lines IH]; intros prototype; simpl.
  - by rewrite app_nil_r.
  - rewrite IH, keep_line_spec.
    destruct (is_root_entry line); simpl; [done | by rewrite <- app_assoc].
Qed.

(** The directives [i <name>] that the scripts put into [prototype]. *)
Definition is_include (chunk : string) : bool := startswith "i " chunk.

Lemma include_fd prototype name p' :
  PrototypeFile.include prototype name None = Ok p' →
  PrototypeFile.fd p' = PrototypeFile.fd prototype ++ ["i " +:+ name +:+ nl]
  ∧ PrototypeFile.preinstall_fd p' = PrototypeFile.preinstall_fd prototype
  ∧ PrototypeFile.postinstall_fd p' = PrototypeFile.postinstall_fd prototype
  ∧ PrototypeFile.preremove_fd p' = PrototypeFile.preremove_fd prototype
  ∧ PrototypeFile.postremove_fd p' = PrototypeFile.postremove_fd prototype.
Proof. unfold PrototypeFile.include. intros [= <-]. done. Qed.

Definition only_includes (prototype : PrototypeFile.t) : Prop :=
  Forall (λ c, is_include c = true) (PrototypeFile.fd prototype).

Lemma opened_only_includes prototype script name p' :
  only_includes prototype →
  PrototypeFile.opened prototype script name = Ok p' → only_includes p'.
Proof.
  unfold PrototypeFile.opened. intros Hp. destruct script.
  { intros E. injection E as <-. exact Hp. }
  intros H. apply include_fd in H as (E & _). unfold only_includes. rewrite E.
  apply Forall_app. split; [done |]. constructor; [| constructor].
  apply prefix_app. by eexists.
Qed.

Lemma postinstall_only_includes prototype line p' :
  only_includes prototype →
  PrototypeFile.postinstall prototype line = Ok p' → only_includes p'.
Proof.
  unfold PrototypeFile.postinstall, rbind. intros Hp.
  destruct (PrototypeFile.opened _ _ _) as [s|] eqn:E; [| done].
  intros [= <-]. by apply opened_only_includes in E.
Qed.

Lemma preremove_only_includes prototype line p' :
  only_includes prototype →
  PrototypeFile.preremove prototype line = Ok p' → only_includes p'.
Proof.
  unfold PrototypeFile.preremove, rbind. intros Hp.
  destruct (PrototypeFile.opened _ _ _) as [s|] eqn:E; [| done].
  intros [= <-]. by apply opened_only_includes in E.
Qed.

Lemma postremove_only_includes prototype line p' :
  only_includes prototype →
  PrototypeFile.postremove prototype line = Ok p' → only_includes p'.
Proof.
  unfold PrototypeFile.postremove, rbind. intros Hp.
  destruct (PrototypeFile.opened _ _ _) as [s|] eqn:E; [| done].
  intros [= <-]. by apply opened_only_includes in E.
Qed.

Lemma when_Ok (b : bool) (m : M unit) w u w' :
  when b m w = (Ok u, w') → (b = true ∧ m w = (Ok u, w')) ∨ (b = false ∧ w' = w).
Proof.
  destruct b; simpl; [by left |]. intros H. apply ret_Ok in H as [_ ->]. by right.
Qed.

Lemma attach_manifest_only_includes env self staging w self' p' w' :
  Package.attach_manifest env self PrototypeFile.__init__ staging w
  = (Ok (self', p'), w') →
  only_includes p'.
Proof.
  unfold Package.attach_manifest. destruct (Package.has_manifest self).
  - intros H. bind_as H rendered w1 Hrender. destruct rendered as [path tmp].
    do 4 bind_inv H. bind_as H line1 w6 Hline1.
    bind_as H p1 w7 Hp1. apply lift_Ok in Hp1 as [Hp1 _].
    bind_as H line2 w8 Hline2.
    bind_as H p2 w9 Hp2. apply lift_Ok in Hp2 as [Hp2 _].
    bind_as H line3 w10 Hline3.
    bind_as H p3 w11 Hp3. apply lift_Ok in Hp3 as [Hp3 _].
    apply ret_Ok in H as [[= -> ->] _].
    eapply postremove_only_includes; [| exact Hp3].
    eapply preremove_only_includes; [| exact Hp2].
    eapply postinstall_only_includes; [| exact Hp1].
    constructor.
  - intros H. apply ret_Ok in H as [[= -> ->] _]. constructor.
Qed.

Lemma include_not_root chunk : is_include chunk = true → is_root_entry chunk = false.
Proof.
  unfold is_include, is_root_entry, startswith.
  intros H. apply prefix_app in H as [rest ->]. reflexivity.
Qed.

(** C5.  When [package] comes to close [prototype], what it has written to
    it is: the directives of the scripts, then every line of [pkgproto]
    but the root entries, in order, then the directive of [pkginfo]; no
    chunk of it is a root entry.  (No subclass hook has added lines of its
    own.) *)
Theorem prototype_excludes_root (env : Env) (m : Package.methods)
    (self self' : Package.t) (staging : string) (prototype : PrototypeFile.t)
    (w w' : World) :
  Package.extend_prototype m = None →
  Package.assemble env m self staging w = (Ok (self', prototype), w') →
  ∃ scripts lines w1 w2,
    CommandLineApp.mkreader env ["pkgproto"; staging +:+ "=/"] w1 = (Ok lines, w2)
    ∧ Forall (λ c, is_include c = true) scripts
    ∧ PrototypeFile.fd prototype
      = scripts ++ List.filter (λ l, negb (is_root_entry l)) lines
                ++ ["i pkginfo" +:+ nl]
    ∧ Forall (λ c, is_root_entry c = false) (PrototypeFile.fd prototype).
Proof.
  intros Hhook H. unfold Package.assemble in H. rewrite Hhook in H.
  do 3 bind_inv H. bind_as H attached w4 Hattach.
  destruct attached as [self1 p1].
  apply attach_manifest_only_includes in Hattach.
  do 3 bind_inv H. bind_as H arg w8 Harg. apply lift_Ok in Harg as [[= <-] ->].
  bind_as H lines w9 Hlines.
  bind_as H p2 w10 Hinc. apply lift_Ok in Hinc as [Hinc ->].
  bind_as H p3 w11 Hext. apply ret_Ok in Hext as [-> ->].
  apply ret_Ok in H as [[= -> ->] ->].
  apply include_fd in Hinc as (Efd & _). rewrite write_entries_fd in Efd.
  exists (PrototypeFile.fd p1), lines. do 2 eexists.
  split; [exact Hlines |]. split; [exact Hattach |].
  split; [by rewrite Efd, <- app_assoc |].
  rewrite Efd. repeat (apply Forall_app; split).
  - eapply Forall_impl; [exact Hattach |]. apply include_not_root.
  - apply List.Forall_forall. intros l Hl. apply filter_In in Hl as [_ Hl].
    by apply negb_true_iff.
  - by constructor.
Qed.

(** ** A run of the script: [foo-2.3.tar.gz] *)

(** A system on which the default stages run through.  [/etc] and
    [/etc/init.d] belong to [root:sys]; [git] is not installed; there is no
    [foo.xml] beside the archive. *)
Definition dir_mode : Z := 16877.
Definition file_mode : Z := 33188.

Definition demo_fs : node :=
  Dir (Stat 0 0 dir_mode)
    [("etc", Dir (Stat 0 3 dir_mode) [("init.d", Dir (Stat 0 3 dir_mode) [])]);
     ("tmp", Dir (Stat 0 3 17407) []);
     ("usr", Dir (Stat 0 3 dir_mode)
               [("bin", Dir (Stat 0 2 dir_mode)
                          [("gzip", File (Stat 0 2 33261) "ELF")])]);
     ("work", Dir (Stat 100 10 dir_mode)
                [("foo-2.3.tar.gz", File (Stat 100 10 file_mode) "archive")])].

Definition demo_world : World := mkWorld demo_fs "/work" ServiceManifest.class_heap [].

(** What the external programs do there.  The archive unpacks into
    [foo-2.3]; [make install] puts the script named [script] into
    [etc/init.d] under the staging root, as the install user 100:10;
    [pkgproto] lists the staging area; [pkgtrans] leaves the package in
    [/tmp].  The decompressor and [tar] end with the statuses [zstatus] and
    [tstatus]; every other program ends with 0. *)
Definition demo_stage (script : string) (t : node) : node :=
  let st := Stat 100 10 dir_mode in
  let t1 := default t (mkdir_p st ["tmp"; "pkg-staging"; "etc"; "init.d"] t) in
  default t1 (put_file (Stat 100 10 33261) "#!/bin/sh"
                       ["tmp"; "pkg-staging"; "etc"; "init.d"; script] t1).

Definition demo_env (script : string) (zstatus tstatus : Z) : Env :=
  mkEnv
    (λ args cwd t,
       match args with
       | ["make"; _; _; "install"] => (0%Z, demo_stage script t)
       | "pkgtrans" :: _ =>
           (0%Z, default t (put_file (Stat 0 0 file_mode) "package"
                                     ["tmp"; "foo-2.3.pkg"] t))
       | _ => (0%Z, t)
       end)
    (λ args cwd t,
       match args with
       | "pkgproto" :: _ =>
           (["d none / 0755 root root" +:+ nl;
             "d none etc 0755 root sys" +:+ nl;
             "d none etc/init.d 0755 root sys" +:+ nl;
             "f none etc/init.d/" +:+ script +:+ " 0755 root root" +:+ nl],
            0%Z, t)
       | _ => ([], 0%Z, t)
       end)
    (λ producer consumer cwd t,
       (zstatus, tstatus,
        default t (mkdir_p (Stat 0 0 dir_mode) (components cwd ++ ["foo-2.3"]) t)))
    (Stat 0 0 dir_mode)
    (Stat 0 0 file_mode).

(** The package object of the archive, as the constructor builds it. *)
Definition foo_package : Package.t :=
  Package.mk "foo-2.3.tar.gz" "foo-2.3" "foo" "foo" "2.3" None.

Lemma foo_package_constructed :
  Package.__init__ Package.class_attrs (Some "foo-2.3.tar.gz") demo_world
  = (Ok foo_package, demo_world).
Proof. vm_compute. reflexivity. Qed.

(** The content of a file of the world. *)
Definition read_file (w : World) (p : string) : option string :=
  match lookup (resolve w p) (fs w) with
  | Some (File _ c) => Some c
  | _ => None
  end.

(** C2, on the code.  Archive [foo-2.3.tar.gz], no [foo.xml], default
    stages, and an install step that writes [etc/init.d/foo] under the
    staging root.  The run ends without a descriptor: [self.manifest] is
    still [None], no [postinstall] script imports a manifest, and
    [prototype] holds the entries of [pkgproto] (the root entry left out)
    and the [pkginfo] directive only.  [package] looks for the script under
    the name of the base, [etc/init.d/foo-2.3]; when the install step
    writes that file, the format ['etc/init.d' % self.base] raises
    [TypeError].  And the methods that [generate_manifest] renders for a
    descriptor with an init script run the literal text [%s], not the
    script. *)
Theorem init_script_is_not_picked_up :
  (let env := demo_env "foo" 0 0 in
   (∃ w', Package.stages env (Package.default_methods env) foo_package demo_world
          = (Ok foo_package, w')
          ∧ isfile_in w' "postinstall" = false
          ∧ read_file w' "prototype"
            = Some ("d none etc 0755 root sys" +:+ nl
                    +:+ "d none etc/init.d 0755 root sys" +:+ nl
                    +:+ "f none etc/init.d/foo 0755 root root" +:+ nl
                    +:+ "i pkginfo" +:+ nl))
   ∧ (let installed := with_fs (demo_stage "foo" demo_fs) demo_world in
      isfile_in installed "/tmp/pkg-staging/etc/init.d/foo" = true
      ∧ Package.synthesize_manifest foo_package "/tmp/pkg-staging" installed
        = (Ok foo_package, installed)))
  ∧ (let env := demo_env "foo-2.3" 0 0 in
     ∃ w', Package.stages env (Package.default_methods env) foo_package demo_world
           = (Raise (TypeError "not all arguments converted during string formatting"),
              w'))
  ∧ ServiceManifest.methods_xml
      (ServiceManifest.__init__ "foo" "foo" "application/foo-2.3" None None
                                (Some "etc/init.d/foo"))
    = Ok (exec_method "start" "%s start" 60
          +:+ exec_method "stop" "%s stop" 60
          +:+ exec_method "refresh" "%s stop; %s start" 60
          +:+ exec_method "restart" "%s stop; %s start" 60).
Proof.
  split; [split |split].
  - eexists. split; [vm_compute; reflexivity |]. split; vm_compute; reflexivity.
  - split; vm_compute; reflexivity.
  - eexists. vm_compute. reflexivity.
  - reflexivity.
Qed.

(** The theorem of C5 on that run. *)
Lemma prototype_excludes_root_witness :
  let env := demo_env "foo" 0 0 in
  let w := with_cwd "/work/foo-2.3"
             (with_fs (default demo_fs
                         (mkdir_p (Stat 0 0 dir_mode) ["work"; "foo-2.3"] demo_fs))
                      demo_world) in
  ∃ self' prototype w',
    Package.assemble env (Package.default_methods env) foo_package
                     "/tmp/pkg-staging" w = (Ok (self', prototype), w')
    ∧ PrototypeFile.fd prototype
      = ["d none etc 0755 root sys" +:+ nl;
         "d none etc/init.d 0755 root sys" +:+ nl;
         "f none etc/init.d/foo 0755 root root" +:+ nl;
         "i pkginfo" +:+ nl]
    ∧ Forall (λ c, is_root_entry c = false) (PrototypeFile.fd prototype).
Proof.
  intros env w.
  destruct (Package.assemble env (Package.default_methods env) foo_package
              "/tmp/pkg-staging" w) as [[[self' prototype]|e] w'] eqn:Hrun.
  - exists self', prototype, w'. split; [reflexivity |].
    destruct (prototype_excludes_root env (Package.default_methods env) foo_package
                self' "/tmp/pkg-staging" prototype w w' eq_refl Hrun)
      as (scripts & lines & w1 & w2 & _ & _ & _ & Hroot).
    split; [| exact Hroot].
    vm_compute in Hrun. injection Hrun as _ <- _. reflexivity.
  - vm_compute in Hrun. discriminate Hrun.
Defined.

(** ** The dispatcher *)

Definition registered_keys : list string := map fst PkgBuild.pkgmap.

(** The class registered under the key that, followed by a dash, starts
    the path; [Generic] when there is no such key. *)
Definition class_of (path : string) : PkgBuild.variant :=
  match List.find (λ kc, startswith (fst kc +:+ "-") path) PkgBuild.pkgmap with
  | Some (_, cls) => cls
  | None => PkgBuild.Generic
  end.

Lemma key_matches_prefix key path :
  In key registered_keys →
  PkgBuild.key_matches key path = Some (startswith (key +:+ "-") path).
Proof.
  intros Hk. unfold PkgBuild.key_matches.
  assert (Hc : Re.compile_plain (key +:+ "-") = Some (Re.lits (key +:+ "-"))).
  { simpl in Hk. repeat (destruct Hk as [<- | Hk]; [reflexivity |]). done. }
  rewrite Hc. f_equal. apply lits_match_prefix.
Qed.

(** No path starts with two registered keys, each followed by a dash. *)
Lemma keys_exclusive k1 k2 path :
  In k1 registered_keys → In k2 registered_keys →
  startswith (k1 +:+ "-") path = true → startswith (k2 +:+ "-") path = true →
  k1 = k2.
Proof.
  unfold startswith. intros H1 H2 P1 P2.
  apply prefix_app in P1 as [r1 E1]. apply prefix_app in P2 as [r2 E2].
  rewrite E1 in E2. clear E1.
  simpl in H1, H2.
  repeat (destruct H1 as [<- | H1]); try done;
    repeat (destruct H2 as [<- | H2]); try done; discriminate E2.
Qed.

Lemma pkgmap_get_registered key cls :
  In (key, cls) PkgBuild.pkgmap → PkgBuild.pkgmap_get key PkgBuild.pkgmap = Some cls.
Proof.
  intros H. simpl in H.
  repeat (destruct H as [[= <- <-] | H]; [reflexivity |]). done.
Qed.

Lemma class_of_key key cls path :
  In (key, cls) PkgBuild.pkgmap → startswith (key +:+ "-") path = true →
  class_of path = cls.
Proof.
  intros Hin Hp. unfold class_of.
  destruct (List.find _ PkgBuild.pkgmap) as [[k c]|] eqn:E.
  - apply find_some in E as [Hin' Hp']. simpl in Hp'.
    assert (k = key).
    { apply (keys_exclusive k key path); try done.
      - by apply (in_map fst) in Hin'.
      - by apply (in_map fst) in Hin. }
    subst k. apply pkgmap_get_registered in Hin, Hin'. congruence.
  - eapply find_none in E; [| exact Hin]. simpl in E. congruence.
Qed.

Lemma class_of_none path :
  (∀ key, In key registered_keys → startswith (key +:+ "-") path = false) →
  class_of path = PkgBuild.Generic.
Proof.
  intros H. unfold class_of.
  destruct (List.find _ PkgBuild.pkgmap) as [[k c]|] eqn:E; [| done].
  apply find_some in E as [Hin Hp]. simpl in Hp.
  apply (in_map fst) in Hin. apply H in Hin. simpl in Hin. congruence.
Qed.

Lemma select_registered keys path :
  (∀ key, In key keys → In key registered_keys) →
  PkgBuild.select keys path
  = Some (match List.find (λ key, startswith (key +:+ "-") path) keys with
          | Some key => class_of path
          | None => PkgBuild.Generic
          end).
Proof.
  induction keys as [|key keys IH]; intros Hsub; [reflexivity |].
  cbn [PkgBuild.select List.find].
  rewrite key_matches_prefix by (apply Hsub; by left).
  destruct (startswith (key +:+ "-") path) eqn:Hp.
  - assert (Hk : In key registered_keys) by (apply Hsub; by left).
    unfold registered_keys in Hk. apply in_map_iff in Hk as ([k cls] & Ek & Hin).
    simpl in Ek. subst k. rewrite (pkgmap_get_registered key cls Hin).
    by rewrite (class_of_key key cls path Hin Hp).
  - apply IH. intros k Hk. apply Hsub. by right.
Qed.

(** C7.  Whatever the order in which the keys of [pkgmap] come, the loop
    selects one class for a path: the class registered under the key that,
    followed by a dash, is a prefix of the path, and [Package] when no
    registered key is such a prefix. *)
Theorem select_by_key_prefix (keys : list string) (path : string) :
  Permutation keys registered_keys →
  PkgBuild.select keys path = Some (class_of path)
  ∧ (∀ key cls, In (key, cls) PkgBuild.pkgmap →
                startswith (key +:+ "-") path = true → class_of path = cls)
  ∧ ((∀ key, In key registered_keys → startswith (key +:+ "-") path = false) →
     class_of path = PkgBuild.Generic)
  ∧ (class_of path ≠ PkgBuild.Generic →
     ∃ key, In key registered_keys ∧ startswith (key +:+ "-") path = true).
Proof.
  intros Hperm. repeat split.
  - rewrite select_registered.
    + destruct (List.find _ keys) as [key|] eqn:E; [done |].
      f_equal. symmetry. apply class_of_none. intros key Hk.
      eapply find_none in E; [exact E |].
      apply (Permutation_in key (Permutation_sym Hperm) Hk).
    + intros key Hk. apply (Permutation_in key Hperm Hk).
  - intros key cls. apply class_of_key.
  - apply class_of_none.
  - intros Hne. unfold class_of in Hne.
    destruct (List.find _ PkgBuild.pkgmap) as [[k c]|] eqn:E; [| done].
    apply find_some in E as [Hin Hp]. exists k. split; [| exact Hp].
    by apply (in_map fst) in Hin.
Qed.

(** The theorem with the keys in reverse order: [dovecot-2.0.tar.gz] is
    built by [Dovecot], [foo-1.0.tar.gz] by [Package]. *)
Lemma select_by_key_prefix_witness :
  PkgBuild.select (rev registered_keys) "dovecot-2.0.tar.gz" = Some PkgBuild.Dovecot
  ∧ PkgBuild.select (rev registered_keys) "foo-1.0.tar.gz" = Some PkgBuild.Generic.
Proof.
  split.
  - exact (proj1 (select_by_key_prefix (rev registered_keys) "dovecot-2.0.tar.gz"
                    (Permutation_sym (Permutation_rev registered_keys)))).
  - exact (proj1 (select_by_key_prefix (rev registered_keys) "foo-1.0.tar.gz"
                    (Permutation_sym (Permutation_rev registered_keys)))).
Defined.

(** The rule on the example of the specification: a key [foo] matches
    [foo-1.0.tar.gz] and not [foobar-1.0.tar.gz]. *)
Lemma key_foo_matches :
  PkgBuild.key_matches "foo" "foo-1.0.tar.gz" = Some true
  ∧ PkgBuild.key_matches "foo" "foobar-1.0.tar.gz" = Some false.
Proof. split; reflexivity. Qed.

(** ** External commands that fail *)

Section Failure.
Variable env : Env.





End Failure.

Section FailureOfStages.
Variable env : Env.


End FailureOfStages.

(** ** The file system tree *)

Lemma assoc_set_entry_eq x n es : assoc x (set_entry x n es) = Some n.
Proof.
  induction es as [|[y c] es IH]; simpl.
  - by rewrite String.eqb_refl.
  - destruct (String.eqb_spec x y) as [-> | Hne]; simpl.
    + by rewrite String.eqb_refl.
    + destruct (String.eqb_spec x y); [done | exact IH].
Qed.

Lemma assoc_set_entry_ne x y n es : x ≠ y → assoc y (set_entry x n es) = assoc y es.
Proof.
  intros Hne. induction es as [|[z c] es IH]; simpl.
  - destruct (String.eqb_spec y x); [congruence | done].
  - destruct (String.eqb_spec x z) as [-> | Hxz]; simpl.
    + destruct (String.eqb_spec y z); [congruence | done].
    + destruct (String.eqb_spec y z); [done | exact IH].
Qed.

Lemma lookup_app p q t :
  lookup (p ++ q) t = match lookup p t with Some n => lookup q n | None => None end.
Proof.
  revert t. induction p as [|x p IH]; intros t; simpl; [done |].
  destruct t as [|st es]; [done |]. destruct (assoc x es); [apply IH | done].
Qed.

Lemma lookup_snoc_parent p x t n :
  lookup (p ++ [x]) t = Some n → ∃ st es, lookup p t = Some (Dir st es).
Proof.
  rewrite lookup_app. destruct (lookup p t) as [[|st es]|]; simpl; try done. eauto.
Qed.

(** What [alter_node] changes: the node at the path. *)
Lemma alter_node_lookup f p t t' :
  alter_node f p t = Some t' →
  ∃ n n', lookup p t = Some n ∧ f n = Some n' ∧ lookup p t' = Some n'.
Proof.
  revert t t'. induction p as [|x p IH]; intros t t'; simpl.
  - intros H. eauto.
  - destruct t as [|st es]; [done |].
    destruct (assoc x es) as [c|] eqn:Ex; [| done].
    destruct (alter_node f p c) as [c'|] eqn:Ec; [| done].
    intros [= <-]. apply IH in Ec as (n & n' & H1 & H2 & H3).
    exists n, n'. simpl. by rewrite assoc_set_entry_eq.
Qed.

Lemma alter_node_exists f p t n n' :
  lookup p t = Some n → f n = Some n' → ∃ t', alter_node f p t = Some t'.
Proof.
  revert t. induction p as [|x p IH]; intros t; simpl.
  - intros [= ->] ->. eauto.
  - destruct t as [|st es]; [done |].
    destruct (assoc x es) as [c|] eqn:Ex; [| done].
    intros Hl Hf. destruct (IH c Hl Hf) as [c' ->]. eauto.
Qed.

Lemma path_snoc (p : path) : p ≠ [] → p = parent p ++ [leaf p].
Proof. intros Hp. by apply app_removelast_last. Qed.

Lemma put_file_lookup st c p t t' :
  put_file st c p t = Some t' → ∃ st', lookup p t' = Some (File st' c).
Proof.
  intros H. assert (Hp : p ≠ []) by (intros ->; discriminate H).
  assert (Hput : put_file st c p t
                 = alter_node
                     (λ d, match lookup [leaf p] d with
                           | Some (Dir _ _) => None
                           | Some (File st' _) => add_entry (leaf p) (File st' c) d
                           | None => add_entry (leaf p) (File st c) d
                           end) (parent p) t) by (by destruct p).
  rewrite Hput in H. clear Hput.
  apply alter_node_lookup in H as (d & d' & Hd & Hf & Hd').
  rewrite (path_snoc p Hp), lookup_app, Hd'.
  destruct d as [sd cd|sd es]; simpl in Hf; [discriminate |].
  destruct (assoc (leaf p) es) as [[st' c'|? ?]|];
    try discriminate; injection Hf as <-; simpl; rewrite assoc_set_entry_eq; eauto.
Qed.

Lemma mkdir_p_lookup st p t t' :
  mkdir_p st p t = Some t' → ∃ st' es, lookup p t' = Some (Dir st' es).
Proof.
  revert t t'. induction p as [|x p IH]; intros t t'; simpl.
  - destruct t; [done |]. intros [= <-]. eauto.
  - destruct t as [|s es]; [done |].
    destruct (mkdir_p st p _) as [c'|] eqn:Ec; [| done].
    intros [= <-]. simpl. rewrite assoc_set_entry_eq. by apply IH in Ec.
Qed.

Lemma lookup_empty_dir st q s c : lookup q (Dir st []) ≠ Some (File s c).
Proof. by destruct q. Qed.

(** [mkdir_p] makes directories only: the files are as before. *)
Lemma mkdir_p_files st p t t' q s c :
  mkdir_p st p t = Some t' →
  lookup q t' = Some (File s c) ↔ lookup q t = Some (File s c).
Proof.
  revert t t' q. induction p as [|x p IH]; intros t t' q; simpl.
  - destruct t; [done |]. by intros [= <-].
  - destruct t as [|sd es]; [done |].
    destruct (mkdir_p st p _) as [c'|] eqn:Ec; [| done].
    intros [= <-]. destruct q as [|y q]; simpl; [done |].
    destruct (String.eqb_spec x y) as [<- | Hne].
    + rewrite assoc_set_entry_eq. rewrite (IH _ _ q Ec).
      destruct (assoc x es) as [d|]; simpl; [done |].
      split; [| done]. intros H. by apply lookup_empty_dir in H.
    + by rewrite assoc_set_entry_ne.
Qed.

Lemma os_makedirs_Ok env p w w' :
  os_makedirs env p w = (Ok tt, w') →
  isdir_in w' p = true ∧ cwd w' = cwd w ∧ ∀ q, read_file w' q = read_file w q.
Proof.
  unfold os_makedirs, change_fs.
  destruct (named p) eqn:Hp; [| done].
  destruct (lookup (resolve w p) (fs w)) as [n|]; [done |].
  destruct (mkdir_p _ _ _) as [t'|] eqn:E; [| done].
  intros [= <-]. split; [| split; [done |]].
  - unfold isdir_in. rewrite Hp. cbn [andb].
    change (resolve (with_fs t' w) p) with (resolve w p).
    change (fs (with_fs t' w)) with t'.
    apply mkdir_p_lookup in E as (st' & es & ->). done.
  - intros q. unfold read_file.
    change (resolve (with_fs t' w) q) with (resolve w q).
    change (fs (with_fs t' w)) with t'.
    destruct (lookup (resolve w q) t') as [[s c|? ?]|] eqn:Hq'.
    + apply (mkdir_p_files _ _ _ _ _ _ _ E) in Hq'. by rewrite Hq'.
    + destruct (lookup (resolve w q) (fs w)) as [[s c|? ?]|] eqn:Hq; try done.
      apply (mkdir_p_files _ _ _ _ _ _ _ E) in Hq. congruence.
    + destruct (lookup (resolve w q) (fs w)) as [[s c|? ?]|] eqn:Hq; try done.
      apply (mkdir_p_files _ _ _ _ _ _ _ E) in Hq. congruence.
Qed.

(** [shutil.copy] into a directory: the file is there afterwards, under
    its own name and with its content. *)
Lemma shutil_copy_into_dir env src dst w w' :
  isdir_in w dst = true →
  shutil_copy env src dst w = (Ok tt, w') →
  ∃ c, read_file w src = Some c
       ∧ read_file w' (join dst (basename src)) = Some c.
Proof.
  intros Hdir. unfold shutil_copy. rewrite Hdir. unfold read_file.
  destruct (named src); [| done].
  destruct (lookup (resolve w src) (fs w)) as [[st c|? ?]|]; try done.
  intros H. exists c. split; [done |].
  bind_as H u w1 Hwrite. unfold write_file, change_fs in Hwrite.
  destruct (named (join dst (basename src))) eqn:Hnm; [| done].
  destruct (put_file _ _ _ _) as [t1|] eqn:Hput; [| done].
  injection Hwrite as _ <-. unfold os_chmod, change_fs in H. rewrite Hnm in H.
  destruct (alter_node _ _ _) as [t2|] eqn:Halter; [| done].
  injection H as <-. simpl.
  apply put_file_lookup in Hput as [st' Hput].
  apply alter_node_lookup in Halter as (n & n' & Hn & Hf & Hn').
  change (resolve (with_fs t1 w) (join dst (basename src)))
    with (resolve w (join dst (basename src))) in *.
  change (fs (with_fs t1 w)) with t1 in *.
  change (resolve (with_fs t2 (with_fs t1 w)) (join dst (basename src)))
    with (resolve w (join dst (basename src))).
  rewrite Hn'. rewrite Hput in Hn. injection Hn as <-. injection Hf as <-. done.
Qed.

Lemma isdir_Ok p w b w' : isdir p w = (Ok b, w') → b = isdir_in w p ∧ w' = w.
Proof. unfold isdir. by intros [= <- <-]. Qed.

Lemma isfile_Ok p w b w' : isfile p w = (Ok b, w') → b = isfile_in w p ∧ w' = w.
Proof. unfold isfile. by intros [= <- <-]. Qed.

(** ** The manifest file beside the archive *)

Lemma append_assoc (a b c : string) : (a +:+ b) +:+ c = a +:+ b +:+ c.
Proof.
  induction a as [|x a IH]; [reflexivity |].
  change (String x ((a +:+ b) +:+ c) = String x (a +:+ b +:+ c)). by rewrite IH.
Qed.

Lemma has_slash_app (a b : string) :
  has_slash (a +:+ b) = (has_slash a || has_slash b)%bool.
Proof. unfold has_slash. by rewrite chars_app, existsb_app. Qed.

Lemma has_slash_cons (a : ascii) (t : string) :
  has_slash (String a t) = (Ascii.eqb "/" a || has_slash t)%bool.
Proof. reflexivity. Qed.

Lemma components_go_cons (a : ascii) (s cur : string) :
  components_go (String a s) cur
  = if Ascii.eqb a "/" then flush cur ++ components_go s EmptyString
    else components_go s (cur +:+ String a EmptyString).
Proof. reflexivity. Qed.

Lemma components_go_plain (t cur : string) :
  has_slash t = false → components_go t cur = flush (cur +:+ t).
Proof.
  revert cur. induction t as [|a t IH]; intros cur.
  - intros _. by rewrite append_empty_r.
  - rewrite has_slash_cons, components_go_cons, Ascii.eqb_sym.
    destruct (Ascii.eqb a "/"); [done |]. intros Ht.
    rewrite IH by exact Ht. by rewrite append_assoc.
Qed.

Lemma prefix_slash (a : ascii) (y : string) :
  String.prefix "/" (String a y) = if ascii_dec "/" a then true else false.
Proof.
  change (String.prefix "/" (String a y))
    with (if ascii_dec "/" a then String.prefix EmptyString y else false).
  destruct (ascii_dec "/" a); [by destruct y | done].
Qed.

Lemma adopt_manifest w p :
  Package.manifest p = None →
  Package.manifest (adopt w p)
  = if isfile_in w (sibling_manifest w p)
    then Some (Package.ManifestPath (sibling_manifest w p))
    else None.
Proof.
  intros Hp. unfold adopt. by destruct (isfile_in w (sibling_manifest w p)).
Qed.

(** A directory with an archive of Dovecot and a manifest file beside it,
    and one with [foo-2.3.tar.gz] and [foo.xml]. *)
Definition xml_world (archive manifest : string) : World :=
  mkWorld
    (Dir (Stat 0 0 dir_mode)
       [("tmp", Dir (Stat 0 3 17407) []);
        ("work", Dir (Stat 100 10 dir_mode)
                   [(archive, File (Stat 100 10 file_mode) "archive");
                    (manifest, File (Stat 100 10 file_mode) "<service_bundle/>")])])
    "/work" ServiceManifest.class_heap [].

(** The classes whose constructor assigns a descriptor to
    [self.manifest]. *)
Definition descriptor_classes : list PkgBuild.variant :=
  [PkgBuild.Apcupsd; PkgBuild.Netatalk; PkgBuild.Ngircd; PkgBuild.Dovecot].

Lemma attach_descriptor self service deps configs script w p w' :
  PkgBuild.attach self service deps configs script w = (Ok p, w') →
  Package.manifest (fst p) = Some (Package.ManifestObject (snd p)).
Proof.
  unfold PkgBuild.attach. intros H.
  bind_as H d w1 Hd. bind_as H c w2 Hc. by apply ret_Ok in H as [-> _].
Qed.

(** C9, on the code.  The constructors of [Apcupsd], [Netatalk], [Ngircd]
    and [Dovecot] assign their own descriptor to [self.manifest] after
    [Package.__init__] has run: whatever lies beside the archive, the
    manifest of the package they construct is a descriptor, never the path
    of a file.  So with [dovecot.xml] beside [dovecot-2.0.tar.gz] the file
    is not adopted, and what [package] puts into the profile directory of
    the staging area is the manifest rendered from the descriptor, not the
    file. *)
Theorem dovecot_overrides_sibling_manifest :
  (∀ cls tarball w p w',
     In cls descriptor_classes →
     PkgBuild.construct cls tarball w = (Ok p, w') →
     ∃ sm, Package.manifest p = Some (Package.ManifestObject sm))
  ∧ let env := demo_env "dovecot" 0 0 in
    let w := xml_world "dovecot-2.0.tar.gz" "dovecot.xml" in
    isfile_in w "/work/dovecot.xml" = true
    ∧ ∃ p w1 sm,
        PkgBuild.construct PkgBuild.Dovecot "dovecot-2.0.tar.gz" w = (Ok p, w1)
        ∧ Package.manifest p = Some (Package.ManifestObject sm)
        ∧ ∃ p' prototype w2,
            Package.attach_manifest env p PrototypeFile.__init__ "/tmp/pkg-staging" w1
            = (Ok (p', prototype), w2)
            ∧ read_file w2 "/tmp/pkg-staging/etc/svc/profile/dovecot.xml"
              ≠ read_file w "/work/dovecot.xml".
Proof.
  split.
  - intros cls tarball w p w' Hcls H. cbn [descriptor_classes In] in Hcls.
    destruct Hcls as [<- | [<- | [<- | [<- | []]]]]; cbn [PkgBuild.construct] in H;
      bind_as H self w1 Hself; bind_as H q w2 Hq;
      apply attach_descriptor in Hq; apply ret_Ok in H as [-> _].
    + eauto.
    + eauto.
    + unfold PkgBuild.with_commands. cbn [Package.manifest Package.set_manifest]. eauto.
    + unfold PkgBuild.with_commands. cbn [Package.manifest Package.set_manifest]. eauto.
  - intros env w. split; [reflexivity |].
    eexists _, _, _. split; [vm_compute; reflexivity |]. split; [reflexivity |].
    eexists _, _, _. split; [vm_compute; reflexivity |].
    intros H. vm_compute in H. discriminate H.
Qed.

(** ** The walk over the staging area *)

(** A file name: not empty, no slash. *)
Definition valid_name (x : string) : bool :=
  negb (String.eqb x EmptyString) && negb (has_slash x).

Fixpoint distinct (l : list string) : bool :=
  match l with
  | [] => true
  | x :: l' => negb (existsb (String.eqb x) l') && distinct l'
  end.

(** A tree as a file system holds it: the names in a directory are file
    names and differ from each other. *)
Fixpoint valid_tree (t : node) : bool :=
  match t with
  | File _ _ => true
  | Dir _ es =>
      distinct (map fst es)
      && forallb (λ e, valid_name (fst e) && valid_tree (snd e)) es
  end.

Definition stat_at (p : path) (t : node) : option stat := node_stat <$> lookup p t.
Definition kind_at (p : path) (t : node) : option bool := is_dir <$> lookup p t.

(** A change of the attributes of a node. *)
Definition retag (g : stat → stat) (n : node) : node :=
  match n with
  | File st c => File (g st) c
  | Dir st es => Dir (g st) es
  end.

(** The attributes of a staged directory after it was matched with the
    installed one: the owner and the group of the latter and its
    permission bits. *)
Definition inherited (live old : stat) : stat :=
  Stat (st_uid live) (st_gid live) (chmod_mode (st_mode old) (st_mode live)).

(** The directories below [t], as paths from [pre], in the order in which
    the walk reaches them. *)
Fixpoint subdirs (pre : path) (t : node) : list path :=
  match t with
  | Dir _ es =>
      map (λ e, pre ++ [fst e]) (List.filter (λ e, is_dir (snd e)) es)
      ++ flat_map (λ e, let '(x, c) := e in
                        match c with
                        | Dir _ _ => subdirs (pre ++ [x]) c
                        | File _ _ => []
                        end) es
  | File _ _ => []
  end.

(** The relative path of given components. *)
Fixpoint slashed (q : path) : string :=
  match q with
  | [] => EmptyString
  | [x] => x
  | x :: q' => x +:+ "/" +:+ slashed q'
  end.

(** The path [os.walk] reports for the directory at [pre] below [top]. *)
Definition root_of (top : string) (pre : path) : string :=
  match pre with
  | [] => top
  | _ => top +:+ "/" +:+ slashed pre
  end.

Lemma node_ind' (P : node → Prop) :
  (∀ st c, P (File st c)) →
  (∀ st es, Forall (λ e, P (snd e)) es → P (Dir st es)) →
  ∀ t, P t.
Proof.
  intros Hf Hd. fix IH 1. intros [st c|st es]; [apply Hf |].
  apply Hd. induction es as [|[x c] es IHes]; constructor; [apply IH | exact IHes].
Qed.

Lemma valid_name_spec x :
  valid_name x = true ↔ x ≠ EmptyString ∧ has_slash x = false.
Proof.
  unfold valid_name. rewrite andb_true_iff, !negb_true_iff.
  destruct (String.eqb_spec x EmptyString) as [E|E]; split.
  - by intros [? _].
  - by intros [? _].
  - by intros [_ ?].
  - by intros [_ ?].
Qed.

Lemma components_plain x : valid_name x = true → components x = [x].
Proof.
  intros H. apply valid_name_spec in H as [Hne Hs]. unfold components.
  rewrite components_go_plain by exact Hs.
  change (EmptyString +:+ x) with x. by destruct x.
Qed.

Lemma components_go_slash (a b cur : string) :
  components_go (a +:+ String "/" b) cur
  = components_go a cur ++ components_go b EmptyString.
Proof.
  revert cur. induction a as [|c a IH]; intros cur.
  - change (EmptyString +:+ String "/" b) with (String "/"%char b).
    rewrite components_go_cons. reflexivity.
  - change (String c a +:+ String "/" b) with (String c (a +:+ String "/" b)).
    rewrite !components_go_cons. destruct (Ascii.eqb c "/").
    + by rewrite IH, app_assoc.
    + apply IH.
Qed.

Lemma components_slash (a b : string) :
  components (a +:+ "/" +:+ b) = components a ++ components b.
Proof. apply components_go_slash. Qed.

Lemma components_slashed q :
  forallb valid_name q = true → components (slashed q) = q.
Proof.
  induction q as [|x q IH]; [done |]. cbn [forallb]. intros H.
  apply andb_true_iff in H as [Hx Hq]. destruct q as [|y q].
  - by apply components_plain.
  - change (slashed (x :: y :: q)) with (x +:+ "/" +:+ slashed (y :: q)).
    by rewrite components_slash, (components_plain x Hx), (IH Hq).
Qed.

Lemma slashed_snoc q x :
  q ≠ [] → slashed (q ++ [x]) = slashed q +:+ "/" +:+ x.
Proof.
  induction q as [|y q IH]; [done |]. intros _. destruct q as [|z q].
  - reflexivity.
  - change (slashed ((y :: z :: q) ++ [x]))
      with (y +:+ "/" +:+ slashed ((z :: q) ++ [x])).
    rewrite IH by done.
    change (slashed (y :: z :: q)) with (y +:+ "/" +:+ slashed (z :: q)).
    by rewrite !append_assoc.
Qed.

Lemma slice_from_app (a b : string) : slice_from (String.length a) (a +:+ b) = b.
Proof. induction a as [|c a IH]; [by destruct b | exact IH]. Qed.

Lemma slice_from_slash (a b : string) :
  slice_from (String.length a + 1) (a +:+ "/" +:+ b) = b.
Proof.
  induction a as [|c a IH]; [by destruct b | exact IH].
Qed.

Lemma endswith_slash_app (a x : string) :
  x ≠ EmptyString → endswith_slash (a +:+ x) = endswith_slash x.
Proof.
  intros Hx. induction a as [|c a IH]; [done |].
  change (String c a +:+ x) with (String c (a +:+ x)).
  destruct (a +:+ x) eqn:E.
  - exfalso. destruct a; [by apply Hx | discriminate E].
  - exact IH.
Qed.

Lemma endswith_slash_plain x : has_slash x = false → endswith_slash x = false.
Proof.
  induction x as [|c x IH]; [done |]. rewrite has_slash_cons.
  intros H. apply orb_false_iff in H as [Hc Hx].
  destruct x as [|d x]; [| by apply IH].
  change (Ascii.eqb c "/" = false). by rewrite Ascii.eqb_sym.
Qed.

Lemma startswith_slash_plain x : has_slash x = false → startswith "/" x = false.
Proof.
  destruct x as [|c x]; [done |]. rewrite has_slash_cons. unfold startswith.
  rewrite prefix_slash. intros H. apply orb_false_iff in H as [Hc _].
  destruct (ascii_dec "/" c) as [<- |]; [done | done].
Qed.

(** [join] with a file name puts a slash between. *)
Lemma join_name (root x : string) :
  root ≠ EmptyString → endswith_slash root = false → valid_name x = true →
  join root x = root +:+ "/" +:+ x.
Proof.
  intros Hr He Hx. apply valid_name_spec in Hx as [Hne Hs]. unfold join.
  rewrite (startswith_slash_plain x Hs), He.
  by destruct (String.eqb_spec root EmptyString).
Qed.

Lemma chmod_mode_perm old new :
  Z.land (chmod_mode old new) perm_mask = Z.land new perm_mask.
Proof.
  unfold chmod_mode. apply Z.bits_inj'. intros n Hn.
  rewrite !Z.land_spec, Z.lor_spec, !Z.land_spec, Z.lnot_spec by exact Hn.
  by destruct (Z.testbit old n), (Z.testbit new n), (Z.testbit perm_mask n).
Qed.

Lemma chmod_mode_idem old new :
  chmod_mode (chmod_mode old new) new = chmod_mode old new.
Proof.
  unfold chmod_mode. apply Z.bits_inj'. intros n Hn.
  rewrite !Z.lor_spec, !Z.land_spec, Z.lor_spec, !Z.land_spec, Z.lnot_spec
    by exact Hn.
  by destruct (Z.testbit old n), (Z.testbit new n), (Z.testbit perm_mask n).
Qed.

Lemma inherited_idem live old :
  inherited live (inherited live old) = inherited live old.
Proof. unfold inherited. simpl. by rewrite chmod_mode_idem. Qed.

Lemma retag_below g x r t : lookup (x :: r) (retag g t) = lookup (x :: r) t.
Proof. by destruct t. Qed.

(** [alter_node] with a change of attributes: the tree keeps its shape, and
    the attributes change at the path only. *)
Lemma retag_alter g p t t' :
  alter_node (λ n, Some (retag g n)) p t = Some t' →
  (∀ r, kind_at r t' = kind_at r t)
  ∧ (∀ r, r ≠ p → stat_at r t' = stat_at r t)
  ∧ stat_at p t' = g <$> stat_at p t.
Proof.
  unfold kind_at, stat_at. revert t t'.
  induction p as [|x p IH]; intros t t'.
  - intros [= <-]. repeat split.
    + intros [|y r]; [by destruct t | by rewrite retag_below].
    + intros [|y r] Hr; [done | by rewrite retag_below].
    + by destruct t.
  - destruct t as [|st es]; [done |]. cbn [alter_node].
    destruct (assoc x es) as [c|] eqn:Ex; [| done].
    destruct (alter_node _ p c) as [c'|] eqn:Ec; [| done].
    intros [= <-]. destruct (IH c c' Ec) as (Hk & Hs & Hp).
    assert (Hl : ∀ y r, y ≠ x →
              lookup (y :: r) (Dir st (set_entry x c' es)) = lookup (y :: r) (Dir st es)).
    { intros y r Hy. cbn [lookup]. by rewrite assoc_set_entry_ne. }
    assert (Hx : ∀ r, lookup (x :: r) (Dir st (set_entry x c' es)) = lookup r c'
                      ∧ lookup (x :: r) (Dir st es) = lookup r c).
    { intros r. cbn [lookup]. by rewrite assoc_set_entry_eq, Ex. }
    repeat split.
    + intros [|y r]; [done |]. destruct (decide (y = x)) as [-> | Hy].
      * destruct (Hx r) as [-> ->]. apply Hk.
      * by rewrite Hl.
    + intros [|y r] Hr; [done |]. destruct (decide (y = x)) as [-> | Hy].
      * destruct (Hx r) as [-> ->]. apply Hs. congruence.
      * by rewrite Hl.
    + destruct (Hx p) as [-> ->]. apply Hp.
Qed.

Lemma slashed_cons x q : ∃ rest, slashed (x :: q) = x +:+ rest.
Proof.
  destruct q as [|y q]; [exists EmptyString | by eexists].
  by rewrite append_empty_r.
Qed.

Lemma slashed_nonempty q :
  q ≠ [] → forallb valid_name q = true → slashed q ≠ EmptyString.
Proof.
  destruct q as [|x q]; [done |]. intros _ H. cbn [forallb] in H.
  apply andb_true_iff in H as [Hx _]. apply valid_name_spec in Hx as [Hx _].
  destruct (slashed_cons x q) as [rest ->]. by destruct x.
Qed.

Lemma slashed_relative q :
  q ≠ [] → forallb valid_name q = true → startswith "/" (slashed q) = false.
Proof.
  destruct q as [|x q]; [done |]. intros _ H. cbn [forallb] in H.
  apply andb_true_iff in H as [Hx _]. apply valid_name_spec in Hx as [Hx Hs].
  destruct (slashed_cons x q) as [rest ->]. destruct x as [|c x]; [done |].
  change (String c x +:+ rest) with (String c (x +:+ rest)).
  pose proof (startswith_slash_plain _ Hs) as Hc. unfold startswith in *.
  rewrite prefix_slash in *. exact Hc.
Qed.

Lemma slashed_end q :
  q ≠ [] → forallb valid_name q = true → endswith_slash (slashed q) = false.
Proof.
  induction q as [|x q IH]; [done |]. intros _ H. cbn [forallb] in H.
  apply andb_true_iff in H as [Hx Hq]. destruct q as [|y q].
  - apply valid_name_spec in Hx as [_ Hs]. by apply endswith_slash_plain.
  - change (slashed (x :: y :: q)) with (x +:+ "/" +:+ slashed (y :: q)).
    assert (Hne : slashed (y :: q) ≠ EmptyString) by (by apply slashed_nonempty).
    rewrite endswith_slash_app.
    + rewrite (endswith_slash_app "/") by exact Hne. by apply IH.
    + discriminate.
Qed.

Section Walk.

Variable top : string.
Hypothesis top_nonempty : top ≠ EmptyString.
Hypothesis top_end : endswith_slash top = false.

Lemma root_of_snoc pre x :
  root_of top (pre ++ [x]) = top +:+ "/" +:+ slashed (pre ++ [x]).
Proof. by destruct pre. Qed.

Lemma join_root pre x :
  forallb valid_name pre = true → valid_name x = true →
  join (root_of top pre) x = root_of top (pre ++ [x]).
Proof.
  intros Hpre Hx. rewrite root_of_snoc. destruct pre as [|y pre].
  - by apply join_name.
  - pose proof (slashed_nonempty (y :: pre) ltac:(done) Hpre) as Hne.
    rewrite join_name; [| | | exact Hx].
    + rewrite slashed_snoc by done. unfold root_of. by rewrite !append_assoc.
    + unfold root_of. destruct top; [done | discriminate].
    + unfold root_of. rewrite endswith_slash_app by discriminate.
      rewrite (endswith_slash_app "/") by exact Hne. by apply slashed_end.
Qed.

(** What the inner loop runs over, for one triple of the walk. *)
Definition entries_of (triple : string * list string * list string) : list string :=
  let '(root, dirs, _) := triple in
  map (λ x, slice_from (String.length top + 1) (join root x)) dirs.

Lemma entry_slashed pre x :
  forallb valid_name pre = true → valid_name x = true →
  slice_from (String.length top + 1) (join (root_of top pre) x) = slashed (pre ++ [x]).
Proof.
  intros Hpre Hx. by rewrite join_root, root_of_snoc, slice_from_slash.
Qed.

Lemma valid_snoc pre x :
  forallb valid_name pre = true → valid_name x = true →
  forallb valid_name (pre ++ [x]) = true.
Proof. intros Hpre Hx. rewrite forallb_app. cbn [forallb]. by rewrite Hpre, Hx. Qed.

(** The entries of the walk are the directories of the tree. *)
Lemma walk_entries t : ∀ pre,
  valid_tree t = true → forallb valid_name pre = true →
  flat_map entries_of (walk (root_of top pre) t) = map slashed (subdirs pre t).
Proof.
  induction t as [st c|st es IH] using node_ind'; intros pre Ht Hpre; [done |].
  cbn [valid_tree] in Ht. apply andb_true_iff in Ht as [_ Hes].
  cbn [walk subdirs flat_map entries_of]. rewrite List.map_app. f_equal.
  - rewrite !List.map_map. apply List.map_ext_in. intros [x c] Hin.
    apply List.filter_In in Hin as [Hin _].
    rewrite forallb_forall in Hes. specialize (Hes _ Hin).
    apply andb_true_iff in Hes as [Hx _]. by apply entry_slashed.
  - induction es as [|[x c] es IHes]; [done |].
    cbn [forallb fst snd] in Hes. apply andb_true_iff in Hes as [Hxc Hes].
    apply andb_true_iff in Hxc as [Hx Hc].
    apply Forall_cons in IH as [IHc IH]. cbn [flat_map].
    rewrite List.flat_map_app, List.map_app, (IHes IH Hes). f_equal.
    destruct c as [|st' es']; [done |]. rewrite join_root by done.
    apply IHc; [exact Hc | by apply valid_snoc].
Qed.

End Walk.

Lemma for_app {A} (l1 l2 : list A) (body : A → M unit) w :
  for_ (l1 ++ l2) body w = (for_ l1 body ;; for_ l2 body) w.
Proof.
  revert w. induction l1 as [|x l1 IH]; intros w; [reflexivity |].
  change (for_ ((x :: l1) ++ l2) body w)
    with (match body x w with
          | (Ok _, w') => for_ (l1 ++ l2) body w'
          | (Raise e, w') => (Raise e, w')
          end).
  change ((for_ (x :: l1) body ;; for_ l2 body) w)
    with (match (match body x w with
                 | (Ok _, w') => for_ l1 body w'
                 | (Raise e, w') => (Raise e, w')
                 end) with
          | (Ok _, w') => for_ l2 body w'
          | (Raise e, w') => (Raise e, w')
          end).
  destruct (body x w) as [[[]|e] w1]; [| done]. apply IH.
Qed.

Lemma for_flat_map {A B} (g : A → list B) (h : A → M unit) (body : B → M unit) l :
  (∀ x w, h x w = for_ (g x) body w) →
  ∀ w, for_ l h w = for_ (flat_map g l) body w.
Proof.
  intros Hh. induction l as [|x l IH]; intros w; [done |].
  cbn [flat_map]. rewrite for_app.
  change (for_ (x :: l) h w) with (bind (h x) (λ _, for_ l h) w).
  unfold bind. rewrite Hh.
  destruct (for_ (g x) body w) as [[[]|e] w1]; [apply IH | done].
Qed.

Lemma assoc_In x c es : assoc x es = Some c → In (x, c) es.
Proof.
  induction es as [|[y d] es IH]; [done |]. cbn [assoc].
  destruct (String.eqb_spec x y) as [-> | Hne].
  - intros [= ->]. by left.
  - intros H. right. by apply IH.
Qed.

Lemma distinct_assoc x c es :
  distinct (map fst es) = true → In (x, c) es → assoc x es = Some c.
Proof.
  induction es as [|[y d] es IH]; [done |]. cbn [map fst distinct assoc].
  intros H. apply andb_true_iff in H as [Hy Hes]. apply negb_true_iff in Hy.
  intros [[= -> ->] | Hin].
  - by rewrite String.eqb_refl.
  - destruct (String.eqb_spec x y) as [-> | Hne]; [| by apply IH].
    exfalso. assert (Hex : existsb (String.eqb y) (map fst es) = true).
    { apply existsb_exists. exists y. split; [| apply String.eqb_refl].
      apply in_map_iff. by exists (y, c). }
    congruence.
Qed.

(** Every directory below [t] is listed. *)
Lemma subdirs_complete q : ∀ t pre st es,
  q ≠ [] → lookup q t = Some (Dir st es) → In (pre ++ q) (subdirs pre t).
Proof.
  induction q as [|x q IH]; intros t pre st es Hq; [done |].
  destruct t as [|st0 es0]; [done |]. cbn [lookup].
  destruct (assoc x es0) as [c|] eqn:Ex; [| done]. intros Hl.
  apply assoc_In in Ex. cbn [subdirs]. apply in_or_app.
  destruct q as [|y q].
  - left. injection Hl as ->. apply in_map_iff. exists (x, Dir st es).
    split; [done |]. by apply List.filter_In.
  - right. apply in_flat_map. exists (x, c). split; [exact Ex |].
    destruct c as [|st1 es1]; [done |].
    replace (pre ++ x :: y :: q) with ((pre ++ [x]) ++ y :: q)
      by (by rewrite <- app_assoc).
    by apply (IH _ _ st es).
Qed.

(** What is listed is a directory below [t], under a path of file names. *)
Lemma subdirs_sound t : ∀ pre q,
  valid_tree t = true → In q (subdirs pre t) →
  ∃ q', q = pre ++ q' ∧ q' ≠ [] ∧ forallb valid_name q' = true
        ∧ ∃ st es, lookup q' t = Some (Dir st es).
Proof.
  induction t as [st c|st es IH] using node_ind'; intros pre q Ht; [done |].
  cbn [valid_tree] in Ht. apply andb_true_iff in Ht as [Hd Hes].
  rewrite forallb_forall in Hes. rewrite List.Forall_forall in IH.
  cbn [subdirs]. intros Hin. apply in_app_or in Hin as [Hin | Hin].
  - apply in_map_iff in Hin as ([x c] & <- & Hin).
    apply List.filter_In in Hin as [Hin Hc]. cbn [fst snd] in *.
    specialize (Hes _ Hin). apply andb_true_iff in Hes as [Hx _].
    exists [x]. repeat split; [done | |].
    + cbn [forallb fst] in *. by rewrite Hx.
    + destruct c as [|st1 es1]; [done |]. exists st1, es1.
      cbn [lookup]. by rewrite (distinct_assoc x _ es Hd Hin).
  - apply in_flat_map in Hin as ([x c] & Hin & Hq).
    destruct c as [|st1 es1]; [done |].
    pose proof (Hes _ Hin) as Hxc. apply andb_true_iff in Hxc as [Hx Hc].
    destruct (IH _ Hin (pre ++ [x]) q Hc Hq) as (q' & -> & _ & Hv & st2 & es2 & Hl).
    exists (x :: q'). repeat split.
    + by rewrite <- app_assoc.
    + done.
    + cbn [forallb fst] in *. by rewrite Hx, Hv.
    + exists st2, es2. cbn [lookup]. by rewrite (distinct_assoc x _ es Hd Hin).
Qed.

Lemma join_relative (root e : string) :
  root ≠ EmptyString → endswith_slash root = false → startswith "/" e = false →
  join root e = root +:+ "/" +:+ e.
Proof.
  intros Hr He Hs. unfold join. rewrite Hs, He.
  by destruct (String.eqb_spec root EmptyString).
Qed.

Lemma join_absolute (a b : string) : startswith "/" b = true → join a b = b.
Proof. intros H. unfold join. by rewrite H. Qed.

Lemma startswith_app (a b : string) :
  startswith "/" a = true → startswith "/" (a +:+ b) = true.
Proof.
  destruct a as [|c a]; [done |]. unfold startswith.
  change (String c a +:+ b) with (String c (a +:+ b)). by rewrite !prefix_slash.
Qed.

(** The attributes of the directory at a path. *)
Definition dir_at (t : node) (q : path) : option stat :=
  match lookup q t with
  | Some (Dir l _) => Some l
  | _ => None
  end.

Lemma dir_at_ext t t' q :
  kind_at q t' = kind_at q t → stat_at q t' = stat_at q t →
  dir_at t' q = dir_at t q.
Proof.
  unfold kind_at, stat_at, dir_at.
  destruct (lookup q t') as [[]|], (lookup q t) as [[]|]; simpl; congruence.
Qed.

Lemma dir_at_None t t' q :
  kind_at q t' = kind_at q t → dir_at t q = None → dir_at t' q = None.
Proof.
  unfold kind_at, dir_at.
  destruct (lookup q t') as [[]|], (lookup q t) as [[]|]; simpl; congruence.
Qed.

Lemma kind_dir t t' r st es :
  kind_at r t' = kind_at r t → lookup r t = Some (Dir st es) →
  ∃ st' es', lookup r t' = Some (Dir st' es').
Proof.
  unfold kind_at. intros H Hl. rewrite Hl in H.
  destruct (lookup r t') as [[|st' es']|]; simpl in H; try done. eauto.
Qed.

Section Ownership.

Variables (staging : string) (stg : path).
Hypothesis staging_absolute : startswith "/" staging = true.
Hypothesis staging_end : endswith_slash staging = false.
Hypothesis staging_path : components staging = stg.

Lemma staging_nonempty : staging ≠ EmptyString.
Proof. intros E. by rewrite E in staging_absolute. Qed.

Lemma resolve_staging w : resolve w staging = stg.
Proof. unfold resolve. by rewrite join_absolute. Qed.

Lemma resolve_live w q :
  q ≠ [] → forallb valid_name q = true →
  resolve w (join "/" (slashed q)) = q.
Proof.
  intros Hq Hv. unfold resolve.
  assert (Hj : join "/" (slashed q) = String "/" (slashed q)).
  { unfold join. by rewrite slashed_relative. }
  rewrite Hj, join_absolute by (unfold startswith; by rewrite prefix_slash).
  unfold components. rewrite components_go_cons.
  change (components_go (slashed q) EmptyString = q).
  by apply components_slashed.
Qed.

Lemma resolve_staged w q :
  q ≠ [] → forallb valid_name q = true →
  resolve w (join staging (slashed q)) = stg ++ q.
Proof.
  intros Hq Hv. unfold resolve.
  rewrite (join_relative staging) by
    (try apply staging_nonempty; try exact staging_end; by apply slashed_relative).
  rewrite join_absolute by (by apply startswith_app).
  by rewrite components_slash, staging_path, components_slashed.
Qed.

(** The attributes of the staged directory [q] after it was visited, in a
    tree [t]. *)
Definition matched (t : node) (q : path) : option stat :=
  match dir_at t q with
  | Some l => inherited l <$> stat_at (stg ++ q) t
  | None => stat_at (stg ++ q) t
  end.

Lemma named_join_root x : named (join "/" x) = true.
Proof.
  unfold join, startswith. destruct x as [|a x]; [reflexivity |].
  rewrite prefix_slash. by destruct (ascii_dec "/" a).
Qed.

Lemma named_join_staging x : named (join staging x) = true.
Proof.
  pose proof staging_nonempty as Hs. unfold join, startswith.
  destruct x as [|a x].
  - destruct staging; [done |]. by destruct (_ || _)%bool.
  - rewrite prefix_slash. destruct (ascii_dec "/" a); [done |].
    destruct staging; [done |]. by destruct (_ || _)%bool.
Qed.

(** One round of the inner loop. *)
Lemma match_entry_step w q st es :
  q ≠ [] → forallb valid_name q = true →
  lookup (stg ++ q) (fs w) = Some (Dir st es) →
  ∃ t', Package.match_entry staging (slashed q) w = (Ok tt, with_fs t' w)
        ∧ (∀ r, kind_at r t' = kind_at r (fs w))
        ∧ (∀ r, r ≠ stg ++ q → stat_at r t' = stat_at r (fs w))
        ∧ stat_at (stg ++ q) t' = matched (fs w) q.
Proof.
  intros Hq Hv Hl. unfold Package.match_entry, matched, dir_at. cbv zeta.
  unfold bind at 1. unfold isdir, isdir_in. rewrite named_join_root. cbn [andb].
  rewrite resolve_live by done.
  destruct (lookup q (fs w)) as [[sl cl|l els]|] eqn:Hlive.
  1,3: exists (fs w); by destruct w.
  cbn [when]. unfold bind at 1. unfold os_stat at 1.
  rewrite named_join_root, resolve_live, Hlive by done. cbn [node_stat].
  destruct (alter_node_exists (λ n, Some (set_owner (st_uid l) (st_gid l) n))
              (stg ++ q) (fs w) _ _ Hl eq_refl) as [t1 Ht1].
  pose proof (retag_alter (λ s, Stat (st_uid l) (st_gid l) (st_mode s)) _ _ _ Ht1)
    as (Hk1 & Hs1 & Hp1).
  destruct (kind_dir _ t1 _ _ _ (Hk1 (stg ++ q)) Hl) as (st1 & es1 & Hl1).
  destruct (alter_node_exists (λ n, Some (set_mode (st_mode l) n))
              (stg ++ q) t1 _ _ Hl1 eq_refl) as [t2 Ht2].
  pose proof (retag_alter
                (λ s, Stat (st_uid s) (st_gid s) (chmod_mode (st_mode s) (st_mode l)))
                _ _ _ Ht2) as (Hk2 & Hs2 & Hp2).
  exists t2. repeat split.
  - unfold bind, os_chown, os_chmod, change_fs.
    rewrite named_join_staging, resolve_staged, Ht1 by done.
    rewrite resolve_staged by done. cbn [fs with_fs]. by rewrite Ht2.
  - intros r. by rewrite Hk2, Hk1.
  - intros r Hr. by rewrite Hs2, Hs1.
  - rewrite Hp2, Hp1. unfold stat_at. rewrite Hl. reflexivity.
Qed.

Variable t0 : node.

(** The state of the walk once the directories [D] were visited, from the
    tree [t0]: the attributes of a visited directory were matched, when
    the installed path is not in the staging area or is no directory;
    nothing else has changed. *)
Definition visited (D : list path) (t : node) : Prop :=
  (∀ r, kind_at r t = kind_at r t0)
  ∧ (∀ r, (∀ q, In q D → r ≠ stg ++ q) → stat_at r t = stat_at r t0)
  ∧ (∀ q, In q D → (∀ r, q ≠ stg ++ r) ∨ dir_at t0 q = None →
          stat_at (stg ++ q) t = matched t0 q).

Lemma matched_idem t q :
  dir_at t q = dir_at t0 q →
  stat_at (stg ++ q) t = matched t0 q →
  matched t q = matched t0 q.
Proof.
  unfold matched. intros -> ->. destruct (dir_at t0 q) as [l|]; [| done].
  destruct (stat_at (stg ++ q) t0) as [s|]; [| done].
  simpl. by rewrite inherited_idem.
Qed.

Lemma visited_step D t t' q :
  visited D t →
  (∀ r, kind_at r t' = kind_at r t) →
  (∀ r, r ≠ stg ++ q → stat_at r t' = stat_at r t) →
  stat_at (stg ++ q) t' = matched t q →
  visited (q :: D) t'.
Proof.
  intros (Hk & Hs & Hm) Hk' Hs' Hm'. repeat split.
  - intros r. by rewrite Hk'.
  - intros r Hr. rewrite Hs'; [| apply Hr; by left].
    apply Hs. intros q' Hq'. apply Hr. by right.
  - intros q' Hin Hcase.
    destruct (decide (q' = q)) as [-> | Hne].
    + rewrite Hm'.
      destruct (in_dec (λ a b : path, decide (a = b)) q D) as [HD | HD].
      * destruct Hcase as [Hout | Hnone].
        -- apply matched_idem; [| by apply Hm; [| left]].
           apply dir_at_ext; [apply Hk |]. apply Hs. intros q' _. apply Hout.
        -- specialize (Hm q HD (or_intror Hnone)). unfold matched in *.
           rewrite Hnone in *. by rewrite (dir_at_None t0 t q (Hk q) Hnone).
      * assert (Hsame : stat_at (stg ++ q) t = stat_at (stg ++ q) t0).
        { apply Hs. intros q' Hq' E. apply app_inv_head in E. congruence. }
        unfold matched. rewrite Hsame. destruct Hcase as [Hout | Hnone].
        -- rewrite (dir_at_ext t0 t q); [done | apply Hk |].
           apply Hs. intros q' _. apply Hout.
        -- by rewrite (dir_at_None t0 t q (Hk q) Hnone), Hnone.
    + destruct Hin as [-> | Hin]; [done |].
      rewrite Hs'; [by apply Hm |]. intros E. by apply app_inv_head in E.
Qed.

(** The inner loop over the directories [L]. *)
Lemma visit_all L : ∀ D w,
  (∀ q, In q L → q ≠ [] ∧ forallb valid_name q = true
                 ∧ ∃ st es, lookup (stg ++ q) t0 = Some (Dir st es)) →
  visited D (fs w) →
  ∃ t', for_ (map slashed L) (Package.match_entry staging) w = (Ok tt, with_fs t' w)
        ∧ visited (rev L ++ D) t'.
Proof.
  induction L as [|q L IH]; intros D w HL HD.
  - exists (fs w). split; [by destruct w | exact HD].
  - destruct (HL q) as (Hq & Hv & st & es & Hl); [by left |].
    destruct (kind_dir t0 (fs w) _ _ _ (proj1 HD (stg ++ q)) Hl) as (st' & es' & Hl').
    destruct (match_entry_step w q st' es' Hq Hv Hl') as (t1 & Hrun & Hk & Hs & Hm).
    destruct (IH (q :: D) (with_fs t1 w)) as (t' & Hrest & Hvis).
    + intros q' Hq'. apply HL. by right.
    + by apply (visited_step D (fs w)).
    + exists t'. split.
      * cbn [map for_]. unfold bind. rewrite Hrun. exact Hrest.
      * cbn [rev]. by rewrite <- app_assoc.
Qed.

End Ownership.

Lemma dir_at_stat t q s :
  kind_at q t = Some true → stat_at q t = Some s → dir_at t q = Some s.
Proof.
  unfold kind_at, stat_at, dir_at.
  destruct (lookup q t) as [[]|]; simpl; congruence.
Qed.

Lemma dir_at_lookup t q st es : lookup q t = Some (Dir st es) → dir_at t q = Some st.
Proof. unfold dir_at. by intros ->. Qed.

(** The walk over a staging area at the absolute path [staging]: it ends,
    and leaves each directory of the area matched with the installed
    one. *)
Lemma match_ownership_visits (staging : string) (stg : path) (w : World) (top : node) :
  startswith "/" staging = true → endswith_slash staging = false →
  components staging = stg →
  lookup stg (fs w) = Some top → valid_tree top = true →
  ∃ t', Package.match_ownership staging w = (Ok tt, with_fs t' w)
        ∧ visited stg (fs w) (subdirs [] top) t'.
Proof.
  intros Habs Hend Hstg Htop Hvalid.
  assert (Hne : staging ≠ EmptyString) by (by apply staging_nonempty).
  destruct (visit_all staging stg Habs Hend Hstg (fs w) (subdirs [] top) [] w)
    as (t' & Hrun & Hvis).
  - intros q Hq. apply subdirs_sound in Hq as (q' & -> & Hq' & Hv & st & es & Hl);
      [| exact Hvalid].
    split; [exact Hq' |]. split; [exact Hv |].
    exists st, es. by rewrite lookup_app, Htop.
  - split; [done |]. split; [done |]. by intros q [].
  - exists t'. split.
    + unfold Package.match_ownership, bind, get.
      rewrite (resolve_staging staging stg Habs Hstg), Htop.
      rewrite (for_flat_map (entries_of staging) _ (Package.match_entry staging));
        [| by intros [[root dirs] files] w0].
      change (walk staging top) with (walk (root_of staging []) top).
      by rewrite (walk_entries staging Hne Hend top []).
    + destruct Hvis as (Hk & Hs & Hm). repeat split; [exact Hk | |].
      * intros r Hr. apply Hs. intros q Hq. apply Hr.
        rewrite app_nil_r in Hq. by apply in_rev.
      * intros q Hq. apply Hm. rewrite app_nil_r. by apply in_rev in Hq.
Qed.

(** C6.  The walk of the assembly stage over the staging area
    [/tmp/pkg-staging] ends without an exception, and then, for every
    directory [q] below the staging root: when the path [/q] is a
    directory of the installed system with the attributes [live] (and does
    not lie in the staging area itself), it still is one, and the staged
    directory has the owner, the group and the permission bits of [live];
    when [/q] is no directory, the staged directory has the attributes
    [st] it was created with. *)
Theorem walk_matches_installed_directories (w : World) (top : node) :
  lookup ["tmp"; "pkg-staging"] (fs w) = Some top →
  valid_tree top = true →
  ∃ w', Package.match_ownership (join TMPDIR "pkg-staging") w = (Ok tt, w')
    ∧ ∀ q st es,
        q ≠ [] → lookup q top = Some (Dir st es) →
        (∀ live,
           dir_at (fs w) q = Some live →
           (∀ r, q ≠ ["tmp"; "pkg-staging"] ++ r) →
           dir_at (fs w') q = Some live
           ∧ ∃ st', dir_at (fs w') (["tmp"; "pkg-staging"] ++ q) = Some st'
                    ∧ st_uid st' = st_uid live
                    ∧ st_gid st' = st_gid live
                    ∧ Z.land (st_mode st') perm_mask
                      = Z.land (st_mode live) perm_mask)
        ∧ (dir_at (fs w) q = None →
           dir_at (fs w') (["tmp"; "pkg-staging"] ++ q) = Some st).
Proof.
  intros Htop Hvalid. set (stg := ["tmp"; "pkg-staging"]) in *.
  destruct (match_ownership_visits (join TMPDIR "pkg-staging") stg w top)
    as (t' & Hrun & Hk & Hs & Hm); try done.
  exists (with_fs t' w). split; [exact Hrun |].
  intros q st es Hq Hl. cbn [fs with_fs].
  assert (Hin : In q (subdirs [] top)) by (by apply (subdirs_complete q top [] st es)).
  assert (Hstaged : lookup (stg ++ q) (fs w) = Some (Dir st es))
    by (by rewrite lookup_app, Htop).
  assert (Hkind : kind_at (stg ++ q) t' = Some true).
  { rewrite Hk. unfold kind_at. by rewrite Hstaged. }
  assert (Hstat : stat_at (stg ++ q) (fs w) = Some st).
  { unfold stat_at. by rewrite Hstaged. }
  split.
  - intros live Hlive Hout. split.
    + rewrite <- Hlive. apply dir_at_ext; [apply Hk |].
      apply Hs. intros q' _. apply Hout.
    + exists (inherited live st). split; [| split; [done | split; [done |]]].
      * apply dir_at_stat; [exact Hkind |].
        rewrite (Hm q Hin (or_introl Hout)). unfold matched.
        by rewrite Hlive, Hstat.
      * apply chmod_mode_perm.
  - intros Hnone. apply dir_at_stat; [exact Hkind |].
    rewrite (Hm q Hin (or_intror Hnone)). unfold matched.
    by rewrite Hnone, Hstat.
Qed.

(** A staging area with [etc/init.d], which the installed system has as
    [root:sys] with mode 0755, and [opt/foo], which it has not; [make
    install] has created the directories as 100:10 with mode 0700. *)
Definition staged_world : World :=
  let st := Stat 100 10 16832 in
  let t1 := default demo_fs (mkdir_p st ["tmp"; "pkg-staging"; "etc"; "init.d"] demo_fs) in
  let t2 := default t1 (mkdir_p st ["tmp"; "pkg-staging"; "opt"; "foo"] t1) in
  with_fs t2 demo_world.

Lemma walk_matches_installed_directories_witness :
  ∃ w', Package.match_ownership (join TMPDIR "pkg-staging") staged_world = (Ok tt, w')
        ∧ (∃ st', dir_at (fs w') ["tmp"; "pkg-staging"; "etc"; "init.d"] = Some st'
                  ∧ st_uid st' = 0%Z ∧ st_gid st' = 3%Z
                  ∧ Z.land (st_mode st') perm_mask = 493%Z)
        ∧ dir_at (fs w') ["tmp"; "pkg-staging"; "opt"; "foo"]
          = Some (Stat 100 10 16832).
Proof.
  destruct (walk_matches_installed_directories staged_world
              (Dir (Stat 100 10 16832)
                 [("etc", Dir (Stat 100 10 16832) [("init.d", Dir (Stat 100 10 16832) [])]);
                  ("opt", Dir (Stat 100 10 16832) [("foo", Dir (Stat 100 10 16832) [])])]))
    as (w' & Hrun & Hall); [reflexivity | reflexivity |].
  exists w'. split; [exact Hrun |]. split.
  - destruct (Hall ["etc"; "init.d"] (Stat 100 10 16832) []) as [Hlive _];
      [discriminate | reflexivity |].
    destruct (Hlive (Stat 0 3 dir_mode)) as (_ & st' & Hst & Hu & Hg & Hmode);
      [reflexivity | intros r; discriminate |].
    exists st'. by repeat split.
  - destruct (Hall ["opt"; "foo"] (Stat 100 10 16832) []) as [_ Hnone];
      [discriminate | reflexivity |].
    apply Hnone. reflexivity.
Defined.

(** * Part III: more of the script *)

(** ** Rendering a manifest *)

(** The fragment of a configuration file, as the template spells it. *)
Definition config_fragment (config : string) : string :=
  tpl "
    <dependency name=`" +:+ sub_dot_dash (basename config) +:+ tpl "-config-file` 
                grouping=`require_all` 
                restart_on=`none` 
                type=`path`>
      <service_fmri value=`file://" +:+ config +:+ tpl "` />
    </dependency>
".

Lemma config_renders config :
  ServiceManifest.config_xml config = Ok (config_fragment config).
Proof. reflexivity. Qed.

Lemma concat_cons (x : string) (xs : list string) :
  String.concat EmptyString (x :: xs) = x +:+ String.concat EmptyString xs.
Proof. destruct xs; [by rewrite append_empty_r | reflexivity]. Qed.




(** The dependencies [generate_manifest] knows. *)
Definition known_dependency (d : string) : bool :=
  String.eqb d "network" || String.eqb d "filesystem".

Lemma dependency_xml_unknown d :
  known_dependency d = false → ServiceManifest.dependency_xml d = EmptyString.
Proof.
  unfold known_dependency, ServiceManifest.dependency_xml.
  destruct (String.eqb d "network"), (String.eqb d "filesystem"); done.
Qed.

(** X2.  A dependency other than [network] and [filesystem] leaves no
    trace in the manifest: the text is the one of the list without it. *)
Theorem unknown_dependencies_ignored (sm : ServiceManifest.t)
    (deps configs : list string) :
  ServiceManifest.manifest_text sm deps configs
  = ServiceManifest.manifest_text sm (List.filter known_dependency deps) configs.
Proof.
  unfold ServiceManifest.manifest_text. f_equal.
  assert (E : String.concat EmptyString (map ServiceManifest.dependency_xml deps)
              = String.concat EmptyString
                  (map ServiceManifest.dependency_xml (List.filter known_dependency deps))).
  { induction deps as [|d deps IH]; [reflexivity |]. cbn [map List.filter].
    destruct (known_dependency d) eqn:Hd.
    - cbn [map]. by rewrite !concat_cons, IH.
    - by rewrite concat_cons, (dependency_xml_unknown d Hd), IH. }
  by rewrite E.
Qed.

Definition has_dot (s : string) : bool := existsb (Ascii.eqb ".") (chars s).

Lemma basename_no_slash s : has_slash (basename s) = false.
Proof.
  induction s as [|c s IH]; [reflexivity |]. cbn [basename].
  destruct (has_slash (String c s)) eqn:E; [exact IH | exact E].
Qed.

Lemma sub_dot_dash_slash s : has_slash (sub_dot_dash s) = has_slash s.
Proof.
  induction s as [|c s IH]; [reflexivity |]. cbn [sub_dot_dash].
  rewrite !has_slash_cons, IH. f_equal.
  destruct (Ascii.eqb_spec c ".") as [-> | _]; reflexivity.
Qed.

Lemma sub_dot_dash_dot s : has_dot (sub_dot_dash s) = false.
Proof.
  unfold has_dot. induction s as [|c s IH]; [reflexivity |].
  cbn [sub_dot_dash]. change (chars (String ?a ?t)) with (a :: chars t).
  cbn [existsb]. rewrite IH, orb_false_r.
  destruct (Ascii.eqb_spec c ".") as [-> | Hne]; [reflexivity |].
  destruct (Ascii.eqb_spec "." c) as [<- | _]; [done | reflexivity].
Qed.

(** X3.  The dependency that [generate_manifest] renders for a
    configuration file is named after the last component of its path, with
    a dash for each dot: the name holds no slash and no dot, and the path
    goes into the [file://] reference as it is. *)
Theorem config_dependency_name (config : string) :
  ServiceManifest.config_xml config = Ok (config_fragment config)
  ∧ has_slash (sub_dot_dash (basename config)) = false
  ∧ has_dot (sub_dot_dash (basename config)) = false.
Proof.
  split; [apply config_renders |]. split; [| apply sub_dot_dash_dot].
  rewrite sub_dot_dash_slash. apply basename_no_slash.
Qed.

(** The descriptor without its four commands. *)
Definition without_commands (sm : ServiceManifest.t) : ServiceManifest.t :=
  ServiceManifest.mk (ServiceManifest.name sm) (ServiceManifest.title sm)
    (ServiceManifest.service_name sm) (ServiceManifest.dependencies sm)
    (ServiceManifest.config_files sm) (ServiceManifest.init_script sm)
    None None None None.

(** X4.  The commands of a descriptor count only when both a start and a
    stop command are set: with one of the two missing, the manifest is the
    one of the descriptor without any command, also when a refresh or a
    restart command is set. *)
Theorem commands_need_start_and_stop (sm : ServiceManifest.t) :
  ServiceManifest.start_command sm = None ∨ ServiceManifest.stop_command sm = None →
  ServiceManifest.methods_xml sm = ServiceManifest.methods_xml (without_commands sm)
  ∧ ∀ deps configs,
      ServiceManifest.manifest_text sm deps configs
      = ServiceManifest.manifest_text (without_commands sm) deps configs.
Proof.
  intros H.
  assert (E : ServiceManifest.methods_xml sm
              = ServiceManifest.methods_xml (without_commands sm)).
  { unfold ServiceManifest.methods_xml, without_commands. simpl.
    destruct H as [-> | ->]; [done |].
    by destruct (ServiceManifest.start_command sm). }
  split; [exact E |]. intros deps configs.
  unfold ServiceManifest.manifest_text. by rewrite E.
Qed.

(** A descriptor with a start and a refresh command and no stop command:
    no method is rendered. *)
Lemma commands_need_start_and_stop_witness :
  ServiceManifest.methods_xml
    (ServiceManifest.set_refresh_command
       (ServiceManifest.set_start_command
          (ServiceManifest.__init__ "svc" "Service" "application/svc" None None None)
          "/usr/sbin/svc" 60) "/usr/sbin/svc reload" 60)
  = Ok EmptyString.
Proof.
  exact (proj1 (commands_need_start_and_stop
    (ServiceManifest.set_refresh_command
       (ServiceManifest.set_start_command
          (ServiceManifest.__init__ "svc" "Service" "application/svc" None None None)
          "/usr/sbin/svc" 60) "/usr/sbin/svc reload" 60)
    (or_intror eq_refl))).
Defined.

(** ** The scripts of [prototype] *)

Inductive script : Type := Preinstall | Postinstall | Preremove | Postremove.

Definition script_name (s : script) : string :=
  match s with
  | Preinstall => "preinstall"
  | Postinstall => "postinstall"
  | Preremove => "preremove"
  | Postremove => "postremove"
  end.

Definition script_fd (s : script) (p : PrototypeFile.t) : option (list string) :=
  match s with
  | Preinstall => PrototypeFile.preinstall_fd p
  | Postinstall => PrototypeFile.postinstall_fd p
  | Preremove => PrototypeFile.preremove_fd p
  | Postremove => PrototypeFile.postremove_fd p
  end.

Definition script_write (s : script) : PrototypeFile.t → string → result PrototypeFile.t :=
  match s with
  | Preinstall => PrototypeFile.preinstall
  | Postinstall => PrototypeFile.postinstall
  | Preremove => PrototypeFile.preremove
  | Postremove => PrototypeFile.postremove
  end.

(** Calls of one method of [prototype], one for each line. *)
Fixpoint write_lines (f : PrototypeFile.t → string → result PrototypeFile.t)
    (p : PrototypeFile.t) (lines : list string) : result PrototypeFile.t :=
  match lines with
  | [] => Ok p
  | line :: rest => p' <-- f p line ;; write_lines f p' rest
  end.

(** The directive a script puts into [prototype] when it is opened. *)
Definition directive (s : script) (p : PrototypeFile.t) : list string :=
  match script_fd s p with
  | None => ["i " +:+ script_name s +:+ nl]
  | Some _ => []
  end.

Lemma script_write_once s p line :
  ∃ p', script_write s p line = Ok p'
        ∧ PrototypeFile.fd p' = PrototypeFile.fd p ++ directive s p
        ∧ script_fd s p' = Some (PrototypeFile.script_add (script_fd s p) line)
        ∧ ∀ other, other ≠ s → script_fd other p' = script_fd other p.
Proof.
  destruct p as [fd pre post prerm postrm].
  destruct s; unfold directive; cbn [script_write script_fd script_name];
    [destruct pre | destruct post | destruct prerm | destruct postrm];
    (eexists; split; [reflexivity |]; cbn; split; [by rewrite ?app_nil_r |];
     split; [reflexivity |]; by intros []).
Qed.

(** X5.  The first line written to a script opens it: the script starts
    with the interpreter line, and one directive naming it goes into
    [prototype].  Every line is followed by a newline, later lines add no
    directive, and the other scripts are left alone. *)
Theorem script_opened_once (s : script) (p : PrototypeFile.t)
    (line : string) (lines : list string) :
  ∃ p', write_lines (script_write s) p (line :: lines) = Ok p'
        ∧ PrototypeFile.fd p' = PrototypeFile.fd p ++ directive s p
        ∧ script_fd s p'
          = Some (default ["#!/bin/sh" +:+ nl] (script_fd s p)
                  ++ flat_map (λ l, [l; nl]) (line :: lines))
        ∧ ∀ other, other ≠ s → script_fd other p' = script_fd other p.
Proof.
  assert (Hopen : ∀ lines p ls,
    script_fd s p = Some ls →
    ∃ p', write_lines (script_write s) p lines = Ok p'
          ∧ PrototypeFile.fd p' = PrototypeFile.fd p
          ∧ script_fd s p' = Some (ls ++ flat_map (λ l, [l; nl]) lines)
          ∧ ∀ other, other ≠ s → script_fd other p' = script_fd other p).
  { clear. induction lines as [|l lines IH]; intros p ls Hp.
    - exists p. cbn. by rewrite app_nil_r.
    - destruct (script_write_once s p l) as (p1 & H1 & Hfd & Hs & Ho).
      unfold directive in Hfd. rewrite Hp in Hfd, Hs. cbn in Hs.
      destruct (IH p1 _ Hs) as (p' & H' & Hfd' & Hs' & Ho').
      exists p'. cbn [write_lines]. rewrite H1. cbn [rbind].
      split; [exact H' |]. split; [by rewrite Hfd', Hfd, app_nil_r |].
      split; [by rewrite Hs', <- app_assoc |].
      intros other Hne. by rewrite Ho', Ho. }
  destruct (script_write_once s p line) as (p1 & H1 & Hfd & Hs & Ho).
  destruct (Hopen lines p1 _ Hs) as (p' & H' & Hfd' & Hs' & Ho').
  exists p'. cbn [write_lines]. rewrite H1. cbn [rbind].
  split; [exact H' |]. split; [by rewrite Hfd', Hfd |].
  split.
  - rewrite Hs'. f_equal. destruct (script_fd s p) as [ls|]; cbn.
    + by rewrite <- app_assoc.
    + reflexivity.
  - intros other Hne. by rewrite Ho', Ho.
Qed.

(** ** Formats with one [%s] *)

Definition has_percent (s : string) : bool := existsb (Ascii.eqb "%") (chars s).

Lemma has_percent_cons c s :
  has_percent (String c s) = (Ascii.eqb "%" c || has_percent s)%bool.
Proof. reflexivity. Qed.

Lemma fmt_go_cons c t st args :
  fmt_go (String c t) st args
  = match st with
    | Text =>
        if Ascii.eqb c "%" then fmt_go t (Percent None) args
        else prepend (String c EmptyString) (fmt_go t Text args)
    | Key acc =>
        if Ascii.eqb c ")" then fmt_go t (Percent (Some acc)) args
        else fmt_go t (Key (acc +:+ String c EmptyString)) args
    | Percent key =>
        if Ascii.eqb c "(" then fmt_go t (Key EmptyString) args
        else if Ascii.eqb c "%" then prepend "%" (fmt_go t Text args)
        else if Ascii.eqb c "s" then
          match take_arg key args with
          | Ok (v, args') => prepend (conv_s v) (fmt_go t Text args')
          | Raise e => Raise e
          end
        else if Ascii.eqb c "d" then
          match take_arg key args with
          | Ok (v, args') =>
              match conv_d v with
              | Ok s => prepend s (fmt_go t Text args')
              | Raise e => Raise e
              end
          | Raise e => Raise e
          end
        else Raise (ValueError "unsupported format character")
    end.
Proof. reflexivity. Qed.

(** Text without a percent sign is copied. *)
Lemma fmt_go_text pre t args r :
  has_percent pre = false →
  fmt_go t Text args = Ok r →
  fmt_go (pre +:+ t) Text args = Ok (pre +:+ r).
Proof.
  intros Hpre Ht. induction pre as [|c pre IH]; [exact Ht |].
  rewrite has_percent_cons in Hpre. apply orb_false_iff in Hpre as [Hc Hpre].
  change (String c pre +:+ t) with (String c (pre +:+ t)).
  rewrite fmt_go_cons, Ascii.eqb_sym, Hc, (IH Hpre). reflexivity.
Qed.

Lemma fmt_plain post : has_percent post = false → fmt post (Args []) = Ok post.
Proof.
  intros H. unfold fmt. rewrite <- (append_empty_r post) at 1.
  rewrite (fmt_go_text post EmptyString (Args []) EmptyString H eq_refl).
  by rewrite append_empty_r.
Qed.

(** [(pre + '%s' + post) % x] is [pre + x + post], whatever [x] holds. *)
Lemma fmt_one pre post x :
  has_percent pre = false → has_percent post = false →
  fmt (pre +:+ "%s" +:+ post) (Args [PStr x]) = Ok (pre +:+ x +:+ post).
Proof.
  intros Hpre Hpost. unfold fmt. apply fmt_go_text; [exact Hpre |].
  change ("%s" +:+ post) with (String "%" (String "s" post)).
  rewrite !fmt_go_cons. cbn [Ascii.eqb Bool.eqb take_arg conv_s].
  change (fmt_go post Text (Args [])) with (fmt post (Args [])).
  by rewrite fmt_plain.
Qed.

Lemma fmt_last pre x :
  has_percent pre = false → fmt (pre +:+ "%s") (Args [PStr x]) = Ok (pre +:+ x).
Proof.
  intros Hpre. pose proof (fmt_one pre EmptyString x Hpre eq_refl) as H.
  change ("%s" +:+ EmptyString) with "%s" in H.
  by rewrite (append_empty_r x) in H.
Qed.

(** ** The scripts of a package with a manifest *)

(** [prototype] and the scripts when the manifest block of [package] is
    through, for the manifest file [path] of the package [name]. *)
Definition manifest_scripts (path name : string) : PrototypeFile.t :=
  PrototypeFile.mk
    ["i postinstall" +:+ nl; "i preremove" +:+ nl; "i postremove" +:+ nl]
    None
    (Some ["#!/bin/sh" +:+ nl;
           "svccfg import /etc/svc/profile/" +:+ basename path; nl])
    (Some ["#!/bin/sh" +:+ nl; "svcadm disable " +:+ name; nl])
    (Some ["#!/bin/sh" +:+ nl; "svccfg delete " +:+ name; nl]).

Lemma attach_manifest_scripts env self self' staging prototype w w' :
  Package.has_manifest self = true →
  Package.attach_manifest env self PrototypeFile.__init__ staging w
  = (Ok (self', prototype), w') →
  ∃ path, Package.manifest self' = Some (Package.ManifestPath path)
          ∧ Package.name self' = Package.name self
          ∧ prototype = manifest_scripts path (Package.name self).
Proof.
  unfold Package.attach_manifest. intros ->.
  intros H. bind_as H rendered w1 Hrender. destruct rendered as [path tmp].
  do 4 bind_inv H.
  bind_as H line1 w6 Hline1. apply lift_Ok in Hline1 as [Hline1 _].
  bind_as H p1 w7 Hp1. apply lift_Ok in Hp1 as [Hp1 _].
  bind_as H line2 w8 Hline2. apply lift_Ok in Hline2 as [Hline2 _].
  bind_as H p2 w9 Hp2. apply lift_Ok in Hp2 as [Hp2 _].
  bind_as H line3 w10 Hline3. apply lift_Ok in Hline3 as [Hline3 _].
  bind_as H p3 w11 Hp3. apply lift_Ok in Hp3 as [Hp3 _].
  apply ret_Ok in H as [[= -> ->] _].
  cbn [Package.name Package.set_manifest] in *.
  rewrite (fmt_last "svccfg import /etc/svc/profile/") in Hline1 by reflexivity.
  rewrite (fmt_last "svcadm disable ") in Hline2 by reflexivity.
  rewrite (fmt_last "svccfg delete ") in Hline3 by reflexivity.
  injection Hline1 as <-. injection Hline2 as <-. injection Hline3 as <-.
  injection Hp1 as <-. injection Hp2 as <-. injection Hp3 as <-.
  exists path. done.
Qed.

(** X6.  The manifest block of [package], on a new [prototype].  For a
    package with a manifest it leaves [self.manifest] as the path of a
    manifest file, and three scripts: [postinstall] imports the file of
    that name from [/etc/svc/profile], [preremove] disables and
    [postremove] deletes the service under the name of the package;
    [preinstall] is not opened.  For a package without a manifest it does
    nothing. *)
Theorem manifest_block_scripts (env : Env) (self self' : Package.t)
    (staging : string) (prototype : PrototypeFile.t) (w w' : World) :
  Package.attach_manifest env self PrototypeFile.__init__ staging w
  = (Ok (self', prototype), w') →
  if Package.has_manifest self
  then ∃ path, Package.manifest self' = Some (Package.ManifestPath path)
               ∧ Package.name self' = Package.name self
               ∧ prototype = manifest_scripts path (Package.name self)
  else self' = self ∧ prototype = PrototypeFile.__init__ ∧ w' = w.
Proof.
  destruct (Package.has_manifest self) eqn:Hm.
  - by apply attach_manifest_scripts.
  - unfold Package.attach_manifest. rewrite Hm.
    intros H. by apply ret_Ok in H as [[= -> ->] ->].
Qed.

(** The block for [foo-2.3.tar.gz] with [foo.xml] beside it. *)
Lemma manifest_block_scripts_witness :
  ∃ self' w',
    Package.attach_manifest (demo_env "foo" 0 0)
      (Package.mk "foo-2.3.tar.gz" "foo-2.3" "foo" "foo" "2.3"
                  (Some (Package.ManifestPath "/work/foo.xml")))
      PrototypeFile.__init__ "/tmp/pkg-staging"
      (xml_world "foo-2.3.tar.gz" "foo.xml")
    = (Ok (self', manifest_scripts "/work/foo.xml" "foo"), w').
Proof.
  destruct (Package.attach_manifest (demo_env "foo" 0 0)
              (Package.mk "foo-2.3.tar.gz" "foo-2.3" "foo" "foo" "2.3"
                          (Some (Package.ManifestPath "/work/foo.xml")))
              PrototypeFile.__init__ "/tmp/pkg-staging"
              (xml_world "foo-2.3.tar.gz" "foo.xml"))
    as [[[self' prototype]|e] w'] eqn:Ha; [| vm_compute in Ha; discriminate Ha].
  pose proof (manifest_block_scripts _ _ _ _ _ _ _ Ha) as H.
  cbn [Package.has_manifest Package.manifest String.eqb Ascii.eqb Bool.eqb negb] in H.
  destruct H as (path & Hm & _ & ->).
  assert (Es : Package.manifest self' = Some (Package.ManifestPath "/work/foo.xml")).
  { vm_compute in Ha. injection Ha as <- _. reflexivity. }
  rewrite Es in Hm. injection Hm as <-. by exists self', w'.
Defined.

(** ** [unpack]: the choice of the tool *)

(** X7.  [unpack] picks the decompressor by looking for [.xz] anywhere in
    the name of the archive, before it looks for [.bz2] and [.gz].  For a
    name that holds [.xz] and an archive that is there: without
    [/usr/bin/xz] it raises and starts nothing, whatever the extension of
    the archive is and whatever other tools are installed; with it, the
    processes it starts are [xz], [tar] and [chown], in this order. *)
Theorem unpack_tool_by_substring (env : Env) (self : Package.t) (w : World) :
  contains ".xz" (Package.tarball self) = true →
  isfile_in w (Package.tarball self) = true →
  (isfile_in w "/usr/bin/xz" = false →
   Package.default_unpack env self w
   = (Raise (Exception "Please install the xz package"), w))
  ∧ (isfile_in w "/usr/bin/xz" = true →
     ∃ r w', Package.default_unpack env self w = (r, w')
             ∧ started w'
               = started w ++ [["xz"; "-dc"; Package.tarball self];
                               ["tar"; "-xf"; "-"];
                               ["chown"; "-R"; "root:root"; Package.base self]]).
Proof.
  intros Hxz Hthere. split; intros Htool;
    unfold Package.default_unpack, Package.unpack_with, bind, isfile; cbv beta;
    rewrite Hthere; cbn [negb]; rewrite Hxz, Htool; cbn [negb].
  - reflexivity.
  - unfold CommandLineApp.shuttle, CommandLineApp.shell. cbv beta zeta.
    destruct (run_pipe env _ _ _ _) as [[z1 z2] t1].
    destruct (run_cmd env _ _ _) as [status t2].
    destruct (Z.eqb status 0); eexists _, _; (split; [reflexivity |]);
      cbn; by rewrite <- !app_assoc.
Qed.

(** An archive [foo.xz-1.0.tar.gz] on a system without [xz]: [unpack] asks
    for [xz]. *)
Lemma unpack_tool_by_substring_witness :
  Package.default_unpack (demo_env "foo" 0 0)
    (Package.mk "foo.xz-1.0.tar.gz" "foo.xz-1.0" "foo.xz" "foo.xz" "1.0" None)
    (xml_world "foo.xz-1.0.tar.gz" "foo.xz.xml")
  = (Raise (Exception "Please install the xz package"),
     xml_world "foo.xz-1.0.tar.gz" "foo.xz.xml").
Proof.
  apply (unpack_tool_by_substring (demo_env "foo" 0 0)
           (Package.mk "foo.xz-1.0.tar.gz" "foo.xz-1.0" "foo.xz" "foo.xz" "1.0" None)
           (xml_world "foo.xz-1.0.tar.gz" "foo.xz.xml"));
    reflexivity.
Defined.

(** ** [main]: the working directory *)

Lemma change_fs_cwd f err w r w' : change_fs f err w = (r, w') → cwd w' = cwd w.
Proof. unfold change_fs. destruct (f w); by intros [= _ <-]. Qed.

Lemma write_file_cwd env p c w r w' : write_file env p c w = (r, w') → cwd w' = cwd w.
Proof. apply change_fs_cwd. Qed.

Lemma os_remove_cwd p w r w' : os_remove p w = (r, w') → cwd w' = cwd w.
Proof. apply change_fs_cwd. Qed.

Lemma shutil_copy_cwd env src dst w r w' :
  shutil_copy env src dst w = (r, w') → cwd w' = cwd w.
Proof.
  unfold shutil_copy.
  destruct (if named src then lookup (resolve w src) (fs w) else None)
    as [[st c|? ?]|]; try by intros [= _ <-].
  unfold bind. destruct (write_file env _ c w) as [[u|e] w1] eqn:H1.
  - intros H2. unfold os_chmod in H2. apply change_fs_cwd in H2.
    apply write_file_cwd in H1. congruence.
  - intros [= _ <-]. by apply write_file_cwd in H1.
Qed.

(** [try: ... finally: os.chdir(c)] for an absolute [c]: the working
    directory is [c] afterwards, or the [chdir] has failed. *)
Lemma finally_chdir {A} (m : M A) (c : string) w r w' :
  startswith "/" c = true →
  finally m (os_chdir c) w = (r, w') →
  cwd w' = c ∨ r = Raise (OSError "chdir").
Proof.
  intros Habs. unfold finally, os_chdir.
  destruct (m w) as [r0 w1]. destruct (isdir_in w1 c).
  - intros [= _ <-]. left. cbn. by apply join_absolute.
  - intros [= <- _]. by right.
Qed.

Lemma bind_cases {A B} (m : M A) (k : A → M B) w r w' :
  bind m k w = (r, w') →
  (∃ e, m w = (Raise e, w') ∧ r = Raise e)
  ∨ (∃ a w1, m w = (Ok a, w1) ∧ k a w1 = (r, w')).
Proof.
  unfold bind. destruct (m w) as [[a|e] w1].
  - intros H. right. eauto.
  - intros [= <- <-]. left. eauto.
Qed.

Lemma lift_cases {A} (x : result A) w r w' : lift x w = (r, w') → r = x ∧ w' = w.
Proof. unfold lift. by intros [= <- <-]. Qed.

(** X8.  [main] ends in the directory in which it was called, through the
    [finally] clause around the stages: whether the stages end or raise,
    and whatever directory they were in by then.  The one exception is a
    failure of that [chdir] itself.  ([clean], which runs once more at the
    end, is assumed not to change the directory, as the one of [Package]
    does not.) *)
Theorem main_restores_cwd (env : Env) (m : Package.methods) (self : Package.t)
    (w : World) (r : result unit) (w' : World) :
  startswith "/" (cwd w) = true →
  (∀ s w1 r1 w2, Package.clean m s w1 = (r1, w2) → cwd w2 = cwd w1) →
  Package.main env m self w = (r, w') →
  cwd w' = cwd w ∨ r = Raise (OSError "chdir").
Proof.
  intros Habs Hclean H. unfold Package.main in H.
  apply bind_cases in H as [(e & H & _) | (c & w0 & Hc & H)];
    [discriminate H |].
  injection Hc as <- <-.
  apply bind_cases in H as [(e & H & _) | (log_path & w0 & Hlog & H)].
  { apply lift_cases in H as [_ ->]. by left. }
  apply lift_cases in Hlog as [_ ->].
  apply bind_cases in H as [(e & H & _) | ([] & w1 & Hw1 & H)].
  { apply write_file_cwd in H. by left. }
  apply write_file_cwd in Hw1.
  apply bind_cases in H as [(e & H & ->) | (self' & w2 & Hw2 & H)].
  { apply (finally_chdir _ _ _ _ _ Habs) in H as [H | H].
    - left. exact H.
    - right. by injection H as ->. }
  apply (finally_chdir _ _ _ _ _ Habs) in Hw2 as [Hw2 | Hw2];
    [| discriminate Hw2].
  apply bind_cases in H as [(e & H & _) | (file & w3 & Hfile & H)].
  { apply lift_cases in H as [_ ->]. by left. }
  apply lift_cases in Hfile as [_ ->].
  apply bind_cases in H as [(e & H & _) | (built & w3 & Hbuilt & H)];
    [discriminate H |].
  injection Hbuilt as <- <-.
  destruct (isfile_in w2 _).
  - apply bind_cases in H as [(e & H & _) | ([] & w3 & Hw3 & H)].
    { apply shutil_copy_cwd in H. left. congruence. }
    apply shutil_copy_cwd in Hw3.
    apply bind_cases in H as [(e & H & _) | ([] & w4 & Hw4 & H)].
    { apply os_remove_cwd in H. left. congruence. }
    apply os_remove_cwd in Hw4.
    apply bind_cases in H as [(e & H & _) | ([] & w5 & Hw5 & H)].
    { apply os_remove_cwd in H. left. congruence. }
    apply os_remove_cwd in Hw5.
    apply Hclean in H. left. congruence.
  - apply ret_Ok in H as [_ ->] || injection H as _ <-. by left.
Qed.

Lemma default_clean_cwd self w r w' :
  Package.default_clean self w = (r, w') → cwd w' = cwd w.
Proof.
  unfold Package.default_clean, bind, isdir.
  destruct (isdir_in w (Package.base self)); cbn [when].
  - unfold rmtree. apply change_fs_cwd.
  - by intros [= _ <-].
Qed.

(** The run of [foo-2.3.tar.gz] ends in [/work], where it began. *)
Lemma main_restores_cwd_witness :
  cwd (snd (Package.main (demo_env "foo" 0 0)
              (Package.default_methods (demo_env "foo" 0 0))
              foo_package demo_world))
  = "/work".
Proof.
  assert (H : Package.main (demo_env "foo" 0 0)
                (Package.default_methods (demo_env "foo" 0 0)) foo_package demo_world
              = (fst (Package.main (demo_env "foo" 0 0)
                        (Package.default_methods (demo_env "foo" 0 0))
                        foo_package demo_world),
                 snd (Package.main (demo_env "foo" 0 0)
                        (Package.default_methods (demo_env "foo" 0 0))
                        foo_package demo_world)))
    by apply surjective_pairing.
  destruct (main_restores_cwd (demo_env "foo" 0 0)
              (Package.default_methods (demo_env "foo" 0 0)) foo_package demo_world
              _ _ eq_refl (λ s w1 r1 w2, default_clean_cwd s w1 r1 w2) H) as [E | E].
  - exact E.
  - vm_compute in E. discriminate E.
Defined.

(** ** The dispatcher and paths with a directory *)

(** X9.  The key of a class is looked for at the start of the path as it
    was given: a path that starts with a slash or a dot, as an archive
    named with its directory does, is built by [Package], whatever the
    name of the archive is. *)
Theorem select_path_with_directory (keys : list string) (c : ascii) (rest : string) :
  Permutation keys registered_keys →
  c = "/"%char ∨ c = "."%char →
  PkgBuild.select keys (String c rest) = Some PkgBuild.Generic.
Proof.
  intros Hperm Hc. rewrite select_registered
    by (intros key Hk; apply (Permutation_in key Hperm Hk)).
  destruct (List.find _ keys) as [key|] eqn:E; [| done].
  f_equal. apply class_of_none. intros k Hk. unfold startswith.
  simpl in Hk.
  destruct Hc as [-> | ->];
    repeat (destruct Hk as [<- | Hk]; [reflexivity |]); done.
Qed.

(** The key is found at the start of the path only: [./dovecot-2.0.tar.gz]
    is not built by [Dovecot]. *)
Lemma select_path_with_directory_witness :
  PkgBuild.select registered_keys "./dovecot-2.0.tar.gz" = Some PkgBuild.Generic.
Proof.
  apply (select_path_with_directory registered_keys "." "/dovecot-2.0.tar.gz").
  - reflexivity.
  - by right.
Defined.

(** ** The constructors *)

Lemma init_title self tarball w p w' :
  Package.__init__ self tarball w = (Ok p, w') →
  Package.title p
  = if (String.eqb (Package.title self) EmptyString && truthy tarball)%bool
    then Package.name p else Package.title self.
Proof.
  destruct tarball as [s|].
  - destruct (String.eqb_spec s EmptyString) as [-> | Hs].
    + rewrite init_empty_tarball. intros [= <- _]. cbn [truthy String.eqb negb].
      rewrite andb_false_r. by destruct (adopt_fields w self) as (_ & _ & _ & -> & _).
    + rewrite (init_with_tarball self s w Hs).
      destruct (Re.re_match Package.tarball_re s) as [m|]; [| done].
      intros [= <- _].
      destruct (adopt_fields w (parsed self m)) as (_ & _ & -> & -> & _).
      unfold parsed. cbn [Package.title Package.name truthy].
      destruct (String.eqb_spec s EmptyString) as [|_]; [done |]. cbn [negb].
      rewrite andb_true_r. reflexivity.
  - rewrite init_without_tarball. intros [= <- _]. cbn [truthy].
    rewrite andb_false_r. by destruct (adopt_fields w self) as (_ & _ & _ & -> & _).
Qed.

Lemma init_empty_title self tarball w p w' :
  Package.title self = EmptyString → Package.name self = EmptyString →
  Package.__init__ self tarball w = (Ok p, w') →
  Package.title p = Package.name p.
Proof.
  intros Ht Hn H. rewrite (init_title _ _ _ _ _ H), Ht. cbn [String.eqb andb].
  destruct (truthy tarball) eqn:E; [done |].
  destruct tarball as [s|].
  - cbn [truthy] in E. apply negb_false_iff in E.
    apply String.eqb_eq in E as ->. rewrite init_empty_tarball in H.
    injection H as <- _. by destruct (adopt_fields w self) as (_ & _ & -> & _).
  - rewrite init_without_tarball in H. injection H as <- _.
    by destruct (adopt_fields w self) as (_ & _ & -> & _).
Qed.

Lemma attach_fields self service_name deps configs script w p sm w' :
  PkgBuild.attach self service_name deps configs script w = (Ok (p, sm), w') →
  Package.name p = Package.name self ∧ Package.title p = Package.title self
  ∧ Package.manifest p = Some (Package.ManifestObject sm)
  ∧ ServiceManifest.name sm = Package.name self
  ∧ ServiceManifest.title sm = Package.title self.
Proof. unfold PkgBuild.attach, bind, ServiceManifest.new_list, ret. by intros [= <- <- _]. Qed.

(** The title a class gives to its packages; [None] for the name of the
    package. *)
Definition class_title (cls : PkgBuild.variant) : option string :=
  match cls with
  | PkgBuild.Dovecot => Some "Dovecot: Secure IMAP server"
  | PkgBuild.Ngircd => Some "ngIRCd: Next Generation IRC Daemon"
  | PkgBuild.GooglePerftools => Some "Google Perftools"
  | _ => None
  end.

(** X10.  The title of a package that a constructor returns is the name
    found in the archive name, but for [Dovecot], [Ngircd] and
    [GooglePerftools], whose title is the one the class sets; and the
    descriptor a constructor attaches carries the name and the title of
    the package. *)
Theorem construct_title (cls : PkgBuild.variant) (tarball : string)
    (w w' : World) (p : Package.t) :
  PkgBuild.construct cls tarball w = (Ok p, w') →
  Package.title p = default (Package.name p) (class_title cls)
  ∧ ∀ sm, Package.manifest p = Some (Package.ManifestObject sm) →
          ServiceManifest.name sm = Package.name p
          ∧ ServiceManifest.title sm = Package.title p.
Proof.
  assert (Hplain : ∀ self tb w0 q w1,
            Package.manifest self = None →
            Package.__init__ self tb w0 = (Ok q, w1) →
            ∀ sm, Package.manifest q ≠ Some (Package.ManifestObject sm)).
  { intros self tb w0 q w1 Hm H sm.
    assert (E : ∃ q0, q = adopt w0 q0 ∧ Package.manifest q0 = None).
    { destruct tb as [s|].
      - destruct (String.eqb_spec s EmptyString) as [-> | Hs].
        + rewrite init_empty_tarball in H. injection H as <- _. eauto.
        + rewrite (init_with_tarball self s w0 Hs) in H.
          destruct (Re.re_match Package.tarball_re s) as [m|]; [| done].
          injection H as <- _. eauto.
      - rewrite init_without_tarball in H. injection H as <- _. eauto. }
    destruct E as (q0 & -> & Hq0). rewrite adopt_manifest by exact Hq0.
    by destruct (isfile_in _ _). }
  destruct cls; cbn [PkgBuild.construct class_title default]; intros H.
  1,3,5,9: split; [by apply (init_empty_title Package.class_attrs _ _ _ _ eq_refl eq_refl H) |];
    intros sm Hsm; by apply (Hplain Package.class_attrs _ _ _ _ eq_refl H) in Hsm.
  - bind_as H self w1 Hinit. bind_as H q w2 Hattach. destruct q as [q sm'].
    apply ret_Ok in H as [-> _]. cbn [fst].
    apply attach_fields in Hattach as (Hn & Ht & Hm & Hsn & Hst).
    apply (init_empty_title Package.class_attrs _ _ _ _ eq_refl eq_refl) in Hinit.
    split; [congruence |]. intros sm Hsm. rewrite Hm in Hsm. injection Hsm as <-.
    split; congruence.
  - bind_as H self w1 Hinit. bind_as H q w2 Hattach. destruct q as [q sm'].
    apply ret_Ok in H as [-> _]. unfold PkgBuild.with_commands. cbn.
    apply attach_fields in Hattach as (Hn & Ht & Hm & Hsn & Hst).
    apply init_title in Hinit. cbn in Hinit.
    split; [congruence |]. intros sm [= <-]. cbn. split; congruence.
  - bind_as H self w1 Hinit. bind_as H q w2 Hattach. destruct q as [q sm'].
    apply ret_Ok in H as [-> _]. cbn [fst].
    apply attach_fields in Hattach as (Hn & Ht & Hm & Hsn & Hst).
    apply (init_empty_title Package.class_attrs _ _ _ _ eq_refl eq_refl) in Hinit.
    split; [congruence |]. intros sm Hsm. rewrite Hm in Hsm. injection Hsm as <-.
    split; congruence.
  - bind_as H self w1 Hinit. bind_as H q w2 Hattach. destruct q as [q sm'].
    apply ret_Ok in H as [-> _]. unfold PkgBuild.with_commands. cbn.
    apply attach_fields in Hattach as (Hn & Ht & Hm & Hsn & Hst).
    apply init_title in Hinit. cbn in Hinit.
    split; [congruence |]. intros sm [= <-]. cbn. split; congruence.
  - split.
    + by rewrite (init_title _ _ _ _ _ H).
    + intros sm Hsm.
      by apply (Hplain (Package.mk EmptyString "google-perftools-1.7" "google-perftools"
                          "Google Perftools" "1.7" None) _ _ _ _ eq_refl H) in Hsm.
Qed.

(** [dovecot-2.0.tar.gz] is titled by its class, and so is its
    descriptor. *)
Lemma construct_title_witness :
  ∃ p w', PkgBuild.construct PkgBuild.Dovecot "dovecot-2.0.tar.gz" demo_world
          = (Ok p, w')
          ∧ Package.name p = "dovecot"
          ∧ Package.title p = "Dovecot: Secure IMAP server".
Proof.
  destruct (PkgBuild.construct PkgBuild.Dovecot "dovecot-2.0.tar.gz" demo_world)
    as [[p|e] w'] eqn:H; [| vm_compute in H; discriminate H].
  exists p, w'. split; [reflexivity |].
  destruct (construct_title _ _ _ _ _ H) as [Ht _]. split; [| exact Ht].
  vm_compute in H. by injection H as <- _.
Defined.

Lemma init_world self tarball w p w' :
  Package.__init__ self tarball w = (Ok p, w') → w' = w.
Proof.
  destruct tarball as [s|].
  - destruct (String.eqb_spec s EmptyString) as [-> | Hs].
    + rewrite init_empty_tarball. by intros [= _ <-].
    + rewrite (init_with_tarball self s w Hs).
      destruct (Re.re_match Package.tarball_re s); [| done]. by intros [= _ <-].
  - rewrite init_without_tarball. by intros [= _ <-].
Qed.

(** The list objects of a descriptor built from two list displays. *)
Lemma attach_lists self service_name deps configs script w p sm w' :
  PkgBuild.attach self service_name deps configs script w = (Ok (p, sm), w') →
  heap w' !! ServiceManifest.dependencies sm = Some deps
  ∧ heap w' !! ServiceManifest.config_files sm = Some configs
  ∧ (ServiceManifest.dependencies sm ∉ dom (heap w))
  ∧ (ServiceManifest.config_files sm ∉ dom (heap w))
  ∧ ServiceManifest.dependencies sm ≠ ServiceManifest.config_files sm
  ∧ ∀ a l, heap w !! a = Some l → heap w' !! a = Some l.
Proof.
  unfold PkgBuild.attach, bind, ServiceManifest.new_list, ret.
  intros [= <- <- <-]. cbn.
  set (a := fresh (dom (heap w))).
  set (b := fresh (dom (<[a:=deps]> (heap w)))).
  assert (Ha : a ∉ dom (heap w)) by apply is_fresh.
  assert (Hb : b ∉ dom (<[a:=deps]> (heap w))) by apply is_fresh.
  assert (Hab : a ≠ b).
  { intros E. apply Hb. rewrite <- E, dom_insert. set_solver. }
  assert (Hb' : b ∉ dom (heap w)).
  { intros E. apply Hb. rewrite dom_insert. set_solver. }
  split; [by rewrite lookup_insert_ne, lookup_insert_eq |].
  split; [by rewrite lookup_insert_eq |].
  split; [exact Ha |]. split; [exact Hb' |]. split; [exact Hab |].
  intros c l Hc.
  assert (c ∈ dom (heap w)) by (apply elem_of_dom; eauto).
  rewrite !lookup_insert_ne by congruence. exact Hc.
Qed.

(** The lists each class gives to its descriptor. *)
Definition class_lists (cls : PkgBuild.variant) : option (list string * list string) :=
  match cls with
  | PkgBuild.Apcupsd =>
      Some (["filesystem"], ["/etc/opt/apcupsd/apcupsd.conf"])
  | PkgBuild.Netatalk =>
      Some (["filesystem"; "network"],
            ["/etc/netatalk/netatalk.conf"; "/etc/netatalk/afpd.conf";
             "/etc/netatalk/AppleVolumes.default"])
  | PkgBuild.Ngircd => Some (["filesystem"; "network"], ["/etc/ngircd.conf"])
  | PkgBuild.Dovecot => Some (["filesystem"; "network"], ["/etc/dovecot/dovecot.conf"])
  | _ => None
  end.

(** X11.  The descriptors of [Apcupsd], [Netatalk], [Ngircd] and [Dovecot]
    have lists of their own: two new list objects, apart from each other
    and from every list there was, the two default lists of
    [ServiceManifest] among them, and no list that was there is changed.
    The constructors of the other classes leave the lists as they are. *)
Theorem construct_lists_fresh (cls : PkgBuild.variant) (tarball : string)
    (w w' : World) (p : Package.t) :
  PkgBuild.construct cls tarball w = (Ok p, w') →
  match class_lists cls with
  | Some (deps, configs) =>
      ∃ sm, Package.manifest p = Some (Package.ManifestObject sm)
            ∧ heap w' !! ServiceManifest.dependencies sm = Some deps
            ∧ heap w' !! ServiceManifest.config_files sm = Some configs
            ∧ (ServiceManifest.dependencies sm ∉ dom (heap w))
            ∧ (ServiceManifest.config_files sm ∉ dom (heap w))
            ∧ ServiceManifest.dependencies sm ≠ ServiceManifest.config_files sm
            ∧ ∀ a l, heap w !! a = Some l → heap w' !! a = Some l
  | None => heap w' = heap w
  end.
Proof.
  destruct cls; cbn [PkgBuild.construct class_lists]; intros H;
    try (apply init_world in H; by rewrite H).
  - bind_as H self w1 Hinit. bind_as H q w2 Hattach. destruct q as [q sm].
    apply ret_Ok in H as [-> ->]. apply init_world in Hinit as ->.
    exists sm. split; [by apply attach_fields in Hattach as (_ & _ & ? & _) |].
    by apply attach_lists in Hattach.
  - bind_as H self w1 Hinit. bind_as H q w2 Hattach. destruct q as [q sm].
    apply ret_Ok in H as [-> ->]. apply init_world in Hinit as ->.
    eexists. split; [reflexivity |]. by apply attach_lists in Hattach.
  - bind_as H self w1 Hinit. bind_as H q w2 Hattach. destruct q as [q sm].
    apply ret_Ok in H as [-> ->]. apply init_world in Hinit as ->.
    exists sm. split; [by apply attach_fields in Hattach as (_ & _ & ? & _) |].
    by apply attach_lists in Hattach.
  - bind_as H self w1 Hinit. bind_as H q w2 Hattach. destruct q as [q sm].
    apply ret_Ok in H as [-> ->]. apply init_world in Hinit as ->.
    eexists. split; [reflexivity |]. by apply attach_lists in Hattach.
Qed.

(** The lists of the descriptor of [dovecot-2.0.tar.gz]: not the default
    lists, which still hold what they held. *)
Lemma construct_lists_fresh_witness :
  ∃ p w' sm,
    PkgBuild.construct PkgBuild.Dovecot "dovecot-2.0.tar.gz" demo_world = (Ok p, w')
    ∧ Package.manifest p = Some (Package.ManifestObject sm)
    ∧ ServiceManifest.dependencies sm ≠ ServiceManifest.default_dependencies
    ∧ ServiceManifest.config_files sm ≠ ServiceManifest.default_config_files
    ∧ heap w' !! ServiceManifest.default_dependencies = Some ["filesystem"]
    ∧ heap w' !! ServiceManifest.default_config_files = Some [].
Proof.
  destruct (PkgBuild.construct PkgBuild.Dovecot "dovecot-2.0.tar.gz" demo_world)
    as [[p|e] w'] eqn:H; [| vm_compute in H; discriminate H].
  destruct (construct_lists_fresh _ _ _ _ _ H)
    as (sm & Hm & _ & _ & Hd & Hc & _ & Hkeep).
  exists p, w', sm. split; [reflexivity |]. split; [exact Hm |].
  split; [intros E; apply Hd; rewrite E; by vm_compute |].
  split; [intros E; apply Hc; rewrite E; by vm_compute |].
  split; apply Hkeep; reflexivity.
Defined.

(** ** What the walk leaves alone *)

(** A tree without its attributes: the names, in their order, and the
    contents of the files. *)
Fixpoint erase (t : node) : node :=
  match t with
  | File _ c => File (Stat 0 0 0) c
  | Dir _ es => Dir (Stat 0 0 0) (map (λ e, (fst e, erase (snd e))) es)
  end.

(** Two worlds that differ in attributes of files and directories at
    most. *)
Definition same_but_attributes (w w' : World) : Prop :=
  erase (fs w') = erase (fs w) ∧ cwd w' = cwd w ∧ heap w' = heap w
  ∧ started w' = started w.

Lemma same_but_attributes_refl w : same_but_attributes w w.
Proof. done. Qed.

Lemma same_but_attributes_trans w1 w2 w3 :
  same_but_attributes w1 w2 → same_but_attributes w2 w3 → same_but_attributes w1 w3.
Proof. unfold same_but_attributes. intros (? & ? & ? & ?) (? & ? & ? & ?). repeat split; congruence. Qed.

Lemma erase_retag g n : erase (retag g n) = erase n.
Proof. by destruct n. Qed.

Lemma erase_set_entry x c c' es :
  assoc x es = Some c → erase c' = erase c →
  map (λ e, (fst e, erase (snd e))) (set_entry x c' es)
  = map (λ e, (fst e, erase (snd e))) es.
Proof.
  intros Hx Hc. induction es as [|[y d] es IH]; [done |].
  cbn [assoc set_entry] in *. destruct (String.eqb_spec x y) as [-> | Hne].
  - injection Hx as ->. cbn. by rewrite Hc.
  - cbn. by rewrite IH.
Qed.

Lemma alter_retag_erase g p t t' :
  alter_node (λ n, Some (retag g n)) p t = Some t' → erase t' = erase t.
Proof.
  revert t t'. induction p as [|x p IH]; intros t t'.
  - intros [= <-]. apply erase_retag.
  - destruct t as [|st es]; [done |]. cbn [alter_node].
    destruct (assoc x es) as [c|] eqn:Ex; [| done].
    destruct (alter_node _ p c) as [c'|] eqn:Ec; [| done].
    intros [= <-]. cbn [erase]. f_equal. apply (erase_set_entry x c); [done |].
    by apply IH.
Qed.

Lemma os_chown_attributes p uid gid w r w' :
  os_chown p uid gid w = (r, w') → same_but_attributes w w'.
Proof.
  unfold os_chown, change_fs.
  destruct (named p); [| by intros [= _ <-]].
  destruct (alter_node _ _ _) as [t|] eqn:E.
  - intros [= _ <-]. split; [| done].
    by apply (alter_retag_erase (λ s, Stat uid gid (st_mode s))) in E.
  - by intros [= _ <-].
Qed.

Lemma os_chmod_attributes p mode w r w' :
  os_chmod p mode w = (r, w') → same_but_attributes w w'.
Proof.
  unfold os_chmod, change_fs.
  destruct (named p); [| by intros [= _ <-]].
  destruct (alter_node _ _ _) as [t|] eqn:E.
  - intros [= _ <-]. split; [| done].
    by apply (alter_retag_erase
                (λ s, Stat (st_uid s) (st_gid s) (chmod_mode (st_mode s) mode))) in E.
  - by intros [= _ <-].
Qed.

Lemma match_entry_attributes staging entry w r w' :
  Package.match_entry staging entry w = (r, w') → same_but_attributes w w'.
Proof.
  unfold Package.match_entry. cbv zeta. intros H.
  apply bind_cases in H as [(e & H & _) | (there & w1 & Hthere & H)];
    [discriminate H |].
  injection Hthere as <- <-. destruct (isdir_in w _); cbn [when] in H.
  - apply bind_cases in H as [(e & H & _) | (info & w1 & Hinfo & H)].
    { unfold os_stat in H.
      destruct (if named _ then _ else _); by injection H as _ <-. }
    assert (w1 = w) as ->.
    { unfold os_stat in Hinfo.
      destruct (if named _ then _ else _); by injection Hinfo as _ <-. }
    apply bind_cases in H as [(e & H & _) | ([] & w2 & Hown & H)].
    { by apply os_chown_attributes in H. }
    apply os_chown_attributes in Hown. apply os_chmod_attributes in H.
    by apply (same_but_attributes_trans w w2 w').
  - by injection H as _ <-.
Qed.

Lemma for_preserves {A} (P : World → World → Prop) (body : A → M unit) :
  (∀ w, P w w) → (∀ w1 w2 w3, P w1 w2 → P w2 w3 → P w1 w3) →
  (∀ x w r w', body x w = (r, w') → P w w') →
  ∀ l w r w', for_ l body w = (r, w') → P w w'.
Proof.
  intros Hrefl Htrans Hbody. induction l as [|x l IH]; intros w r w' H.
  - injection H as _ <-. apply Hrefl.
  - cbn [for_] in H.
    apply bind_cases in H as [(e & H & _) | ([] & w1 & Hx & H)].
    + by apply Hbody in H.
    + apply Hbody in Hx. apply IH in H. by apply (Htrans w w1 w').
Qed.

(** X12.  The walk over the staging area changes attributes and nothing
    else, in whatever world it runs and however it ends: no file or
    directory is made, removed, renamed or written, here or elsewhere, the
    working directory stays, and no process is started. *)
Theorem walk_changes_attributes_only (staging : string) (w : World) :
  same_but_attributes w (snd (Package.match_ownership staging w)).
Proof.
  destruct (Package.match_ownership staging w) as [r w'] eqn:H. cbn [snd].
  unfold Package.match_ownership in H.
  apply bind_cases in H as [(e & H & _) | (w0 & w1 & Hget & H)];
    [discriminate H |].
  injection Hget as <- <-.
  revert H. apply (for_preserves same_but_attributes).
  - apply same_but_attributes_refl.
  - apply same_but_attributes_trans.
  - intros [[root dirs] files] w1 r1 w2.
    apply (for_preserves same_but_attributes).
    + apply same_but_attributes_refl.
    + apply same_but_attributes_trans.
    + apply match_entry_attributes.
Qed.

(** X13.  On a well-formed staging area at [/tmp/pkg-staging], the walk
    ends without an exception and sets the attributes of nothing but the
    directories below the staging root: the staging root itself, the files
    in the staging area and everything outside of it have the attributes
    they had. *)
Theorem walk_leaves_other_attributes (w : World) (top : node) :
  lookup ["tmp"; "pkg-staging"] (fs w) = Some top →
  valid_tree top = true →
  ∃ w', Package.match_ownership (join TMPDIR "pkg-staging") w = (Ok tt, w')
        ∧ ∀ r, (∀ q, r = ["tmp"; "pkg-staging"] ++ q →
                     q = [] ∨ dir_at (fs w) r = None) →
               stat_at r (fs w') = stat_at r (fs w).
Proof.
  intros Htop Hvalid.
  destruct (match_ownership_visits (join TMPDIR "pkg-staging")
              ["tmp"; "pkg-staging"] w top) as (t' & Hrun & _ & Hs & _); try done.
  exists (with_fs t' w). split; [exact Hrun |]. intros r Hr. cbn [fs with_fs].
  apply Hs. intros q Hq ->.
  apply subdirs_sound in Hq as (q' & -> & Hq' & _ & st & es & Hl); [| exact Hvalid].
  destruct (Hr q' eq_refl) as [-> | Hnone]; [done |].
  unfold dir_at in Hnone. rewrite lookup_app, Htop in Hnone.
  cbv beta iota in Hnone. change ([] ++ q') with q' in Hnone.
  by rewrite Hl in Hnone.
Qed.

(** On the staging area with [etc/init.d] and [opt/foo]: the attributes of
    the staging root and of [/etc] are as before. *)
Lemma walk_leaves_other_attributes_witness :
  ∃ w', Package.match_ownership (join TMPDIR "pkg-staging") staged_world = (Ok tt, w')
        ∧ stat_at ["tmp"; "pkg-staging"] (fs w') = Some (Stat 100 10 16832)
        ∧ stat_at ["etc"] (fs w') = Some (Stat 0 3 dir_mode).
Proof.
  destruct (walk_leaves_other_attributes staged_world
              (Dir (Stat 100 10 16832)
                 [("etc", Dir (Stat 100 10 16832) [("init.d", Dir (Stat 100 10 16832) [])]);
                  ("opt", Dir (Stat 100 10 16832) [("foo", Dir (Stat 100 10 16832) [])])]))
    as (w' & Hrun & Hall); [reflexivity | reflexivity |].
  exists w'. split; [exact Hrun |]. split.
  - rewrite Hall; [reflexivity |]. intros q Hq. left.
    destruct q; [done | discriminate Hq].
  - rewrite Hall; [reflexivity |]. intros q Hq. discriminate Hq.
Defined.

(** ** Writing files *)

(** The file at a path: its attributes and its content. *)
Definition file_at (q : path) (t : node) : option (stat * string) :=
  match lookup q t with
  | Some (File st c) => Some (st, c)
  | _ => None
  end.

(** [alter_node] at [p] leaves the files alone that are not below [p]. *)
Lemma alter_node_other f p t t' q :
  alter_node f p t = Some t' → (∀ r, q ≠ p ++ r) → file_at q t' = file_at q t.
Proof.
  unfold file_at. revert t t' q. induction p as [|x p IH]; intros t t' q H Hq.
  - by destruct (Hq q).
  - destruct t as [|st es]; [done |]. cbn [alter_node] in H.
    destruct (assoc x es) as [c|] eqn:Ex; [| done].
    destruct (alter_node f p c) as [c'|] eqn:Ec; [| done].
    injection H as <-. destruct q as [|y q]; [done |]. cbn [lookup].
    destruct (String.eqb_spec x y) as [<- | Hne].
    + rewrite assoc_set_entry_eq, Ex. apply (IH c c' q Ec).
      intros r ->. by apply (Hq r).
    + by rewrite assoc_set_entry_ne.
Qed.

Lemma alter_node_below f p t t' :
  alter_node f p t = Some t' →
  ∃ n n', lookup p t = Some n ∧ f n = Some n'
          ∧ ∀ r, lookup (p ++ r) t' = lookup r n' ∧ lookup (p ++ r) t = lookup r n.
Proof.
  intros H. apply alter_node_lookup in H as (n & n' & Hn & Hf & Hn').
  exists n, n'. split; [done |]. split; [done |].
  intros r. by rewrite !lookup_app, Hn, Hn'.
Qed.

Lemma prefix_cases (p q : path) : (∃ r, q = p ++ r) ∨ (∀ r, q ≠ p ++ r).
Proof.
  destruct (decide (p `prefix_of` q)) as [[r Hr] | Hno]; [left; eauto |].
  right. intros r Hr. apply Hno. by exists r.
Qed.

(** Writing the file at [p] leaves every other file as it is. *)
Lemma put_file_other st c p t t' q :
  put_file st c p t = Some t' → q ≠ p → file_at q t' = file_at q t.
Proof.
  intros H Hq. assert (Hp : p ≠ []) by (intros ->; discriminate H).
  assert (Hput : put_file st c p t
                 = alter_node
                     (λ d, match lookup [leaf p] d with
                           | Some (Dir _ _) => None
                           | Some (File st' _) => add_entry (leaf p) (File st' c) d
                           | None => add_entry (leaf p) (File st c) d
                           end) (parent p) t) by (by destruct p).
  rewrite Hput in H. clear Hput.
  destruct (prefix_cases (parent p) q) as [[r ->] | Hout];
    [| by apply (alter_node_other _ _ _ _ _ H)].
  apply alter_node_below in H as (d & d' & Hd & Hf & Hbelow).
  unfold file_at. destruct (Hbelow r) as [-> ->].
  destruct d as [sd cd|sd es]; [by destruct (lookup [leaf p] (File sd cd)) as [[]|] |].
  assert (Hd' : ∃ n, d' = Dir sd (set_entry (leaf p) n es)
                     ∧ (∀ r', r' ≠ [] → lookup r' n = None)
                     ∧ (∀ r', r' ≠ [] →
                              match assoc (leaf p) es with
                              | Some old => lookup r' old
                              | None => None
                              end = None)).
  { cbn [lookup] in Hf. destruct (assoc (leaf p) es) as [[st' c'|? ?]|];
      try discriminate; injection Hf as <-; eexists; (split; [reflexivity |]);
      split; intros [|? ?]; done. }
  destruct Hd' as (n & -> & Hn & Hold).
  destruct r as [|y r]; [done |]. cbn [lookup].
  destruct (String.eqb_spec (leaf p) y) as [<- | Hne].
  - rewrite assoc_set_entry_eq.
    assert (Hr : r ≠ []).
    { intros ->. apply Hq. symmetry. by apply path_snoc. }
    rewrite (Hn r Hr). specialize (Hold r Hr).
    destruct (assoc (leaf p) es); by rewrite ?Hold.
  - by rewrite assoc_set_entry_ne.
Qed.

(** What a file holds after [open(p, 'w')] and [write(content)]. *)
Lemma write_file_read env p content w w' :
  write_file env p content w = (Ok tt, w') →
  read_file w' p = Some content
  ∧ cwd w' = cwd w ∧ heap w' = heap w ∧ started w' = started w
  ∧ ∀ q, resolve w q ≠ resolve w p →
         file_at (resolve w q) (fs w') = file_at (resolve w q) (fs w).
Proof.
  unfold write_file, change_fs. destruct (named p); [| done].
  destruct (put_file _ _ _ _) as [t'|] eqn:Hput; [| done].
  intros [= <-]. split; [| split; [done | split; [done | split; [done |]]]].
  - unfold read_file. cbn. change (resolve (with_fs t' w) p) with (resolve w p).
    apply put_file_lookup in Hput as [st' ->]. done.
  - intros q Hq. cbn. by apply (put_file_other _ _ _ _ _ _ Hput).
Qed.

Lemma read_file_at w q :
  read_file w q = snd <$> file_at (resolve w q) (fs w).
Proof.
  unfold read_file, file_at. by destruct (lookup _ _) as [[]|].
Qed.

Lemma resolve_cwd w w' q : cwd w' = cwd w → resolve w' q = resolve w q.
Proof. unfold resolve. by intros ->. Qed.

(** X14.  [manifest_path] returns [/tmp/<name>.xml] (the path [join] makes
    of [TMPDIR] and that name), and when it returns, the file at that path
    holds the manifest rendered from the descriptor and its two lists, and
    every other file is as it was. *)
Theorem manifest_path_writes (env : Env) (sm : ServiceManifest.t)
    (w w' : World) (path : string) :
  ServiceManifest.manifest_path env sm w = (Ok path, w') →
  path = join TMPDIR (ServiceManifest.name sm +:+ ".xml")
  ∧ (∃ text,
       ServiceManifest.manifest_text sm
         (default [] (heap w !! ServiceManifest.dependencies sm))
         (default [] (heap w !! ServiceManifest.config_files sm)) = Ok text
       ∧ read_file w' path = Some text)
  ∧ ∀ q, resolve w q ≠ resolve w path →
         file_at (resolve w q) (fs w') = file_at (resolve w q) (fs w).
Proof.
  unfold ServiceManifest.manifest_path, ServiceManifest.generate_manifest.
  intros H. bind_as H file w1 Hfile. apply lift_Ok in Hfile as [Hfile ->].
  rewrite (fmt_one EmptyString ".xml") in Hfile by reflexivity.
  injection Hfile as <-. change (EmptyString +:+ ?x) with x in H.
  bind_as H u w2 Hgen. apply ret_Ok in H as [-> ->].
  bind_as Hgen deps w3 Hdeps. injection Hdeps as <- <-.
  bind_as Hgen configs w3 Hconfigs. injection Hconfigs as <- <-.
  bind_as Hgen text w3 Htext. apply lift_Ok in Htext as [Htext ->].
  destruct u. apply write_file_read in Hgen as (Hread & _ & _ & _ & Hother).
  split; [reflexivity |]. split; [by exists text |]. exact Hother.
Qed.

(** The manifest of a descriptor [svc] is written to [/tmp/svc.xml]. *)
Lemma manifest_path_writes_witness :
  ∃ w' text,
    ServiceManifest.manifest_path (demo_env "foo" 0 0)
      (ServiceManifest.__init__ "svc" "Service" "application/svc" None None None)
      demo_world = (Ok "/tmp/svc.xml", w')
    ∧ read_file w' "/tmp/svc.xml" = Some text
    ∧ read_file w' "/work/foo-2.3.tar.gz" = Some "archive".
Proof.
  destruct (ServiceManifest.manifest_path (demo_env "foo" 0 0)
              (ServiceManifest.__init__ "svc" "Service" "application/svc" None None None)
              demo_world) as [[path|e] w'] eqn:H; [| vm_compute in H; discriminate H].
  destruct (manifest_path_writes _ _ _ _ _ H) as (-> & (text & _ & Hread) & Hother).
  exists w', text. split; [reflexivity |]. split; [exact Hread |].
  rewrite read_file_at.
  assert (Hcwd : cwd w' = cwd demo_world).
  { vm_compute in H. by injection H as <-. }
  rewrite (resolve_cwd demo_world w' _ Hcwd), (Hother "/work/foo-2.3.tar.gz").
  - reflexivity.
  - by vm_compute.
Defined.

(** X15.  [PkgInfoFile.close] writes four lines to [pkginfo]: the name, the
    title and the version as they are, and the category [application],
    which [package] never sets to anything else. *)
Theorem pkginfo_content (env : Env) (name title version : string) (w w' : World) :
  PkgInfoFile.close env (PkgInfoFile.__init__ name title version) w = (Ok tt, w') →
  read_file w' "pkginfo"
  = Some ("PKG=" +:+ name +:+ nl +:+ "NAME=" +:+ title +:+ nl
          +:+ "VERSION=" +:+ version +:+ nl +:+ "CATEGORY=application" +:+ nl).
Proof.
  unfold PkgInfoFile.close. intros H.
  bind_as H text w1 Htext. apply lift_Ok in Htext as [Htext ->].
  apply write_file_read in H as (Hread & _). rewrite Hread.
  f_equal. cbn [PkgInfoFile.name PkgInfoFile.title PkgInfoFile.version
                 PkgInfoFile.category PkgInfoFile.__init__] in Htext.
  assert (E : fmt ("PKG=%s" +:+ nl +:+ "NAME=%s" +:+ nl +:+ "VERSION=%s" +:+ nl
                   +:+ "CATEGORY=%s" +:+ nl)
                  (Args [PStr name; PStr title; PStr version; PStr "application"])
              = Ok ("PKG=" +:+ name +:+ nl +:+ "NAME=" +:+ title +:+ nl
                    +:+ "VERSION=" +:+ version +:+ nl +:+ "CATEGORY=application" +:+ nl))
    by reflexivity.
  rewrite E in Htext. by injection Htext.
Qed.

Lemma pkginfo_content_witness :
  ∃ w', PkgInfoFile.close (demo_env "foo" 0 0)
          (PkgInfoFile.__init__ "foo" "foo" "2.3") demo_world = (Ok tt, w')
        ∧ read_file w' "pkginfo"
          = Some ("PKG=foo" +:+ nl +:+ "NAME=foo" +:+ nl +:+ "VERSION=2.3" +:+ nl
                  +:+ "CATEGORY=application" +:+ nl).
Proof.
  destruct (PkgInfoFile.close (demo_env "foo" 0 0)
              (PkgInfoFile.__init__ "foo" "foo" "2.3") demo_world)
    as [[[]|e] w'] eqn:H; [| vm_compute in H; discriminate H].
  exists w'. split; [reflexivity |]. exact (pkginfo_content _ _ _ _ _ _ H).
Defined.

(** ** Closing [prototype] *)

Lemma components_go_dir (a x cur : string) :
  endswith_slash a = true → valid_name x = true →
  components_go (a +:+ x) cur = components_go a cur ++ [x].
Proof.
  intros Ha Hx. revert cur. induction a as [|c a IH]; intros cur; [done |].
  change (String c a +:+ x) with (String c (a +:+ x)).
  rewrite !components_go_cons. destruct a as [|d a].
  - change (endswith_slash (String c EmptyString)) with (Ascii.eqb c "/") in Ha.
    rewrite Ha. change (EmptyString +:+ x) with x.
    change (components_go x EmptyString) with (components x).
    rewrite (components_plain x Hx).
    change (components_go EmptyString EmptyString) with (@nil string).
    by rewrite app_nil_r.
  - change (endswith_slash (String c (String d a)))
      with (endswith_slash (String d a)) in Ha.
    destruct (Ascii.eqb c "/").
    + by rewrite (IH Ha), app_assoc.
    + apply (IH Ha).
Qed.

(** A file name is looked up in the working directory. *)
Lemma resolve_name w x :
  valid_name x = true → resolve w x = components (cwd w) ++ [x].
Proof.
  intros Hx. unfold resolve, join.
  pose proof Hx as Hx'. apply valid_name_spec in Hx' as [Hne Hs].
  rewrite (startswith_slash_plain x Hs).
  destruct (String.eqb_spec (cwd w) EmptyString) as [-> | Hcwd].
  - cbn [orb]. change (EmptyString +:+ x) with x. by rewrite components_plain.
  - cbn [orb]. destruct (endswith_slash (cwd w)) eqn:He.
    + by apply components_go_dir.
    + by rewrite components_slash, (components_plain x Hx).
Qed.

Lemma resolve_names_differ w x y :
  valid_name x = true → valid_name y = true → x ≠ y → resolve w x ≠ resolve w y.
Proof.
  intros Hx Hy Hne. rewrite !resolve_name by done.
  intros E. apply app_inv_head in E. congruence.
Qed.

(** [chmod] of a file: its permission bits are the ones given, and every
    other file is as it was. *)
Lemma os_chmod_file p mode w w' st c :
  file_at (resolve w p) (fs w) = Some (st, c) →
  os_chmod p mode w = (Ok tt, w') →
  cwd w' = cwd w
  ∧ file_at (resolve w p) (fs w')
    = Some (Stat (st_uid st) (st_gid st) (chmod_mode (st_mode st) mode), c)
  ∧ ∀ q, q ≠ resolve w p → file_at q (fs w') = file_at q (fs w).
Proof.
  unfold os_chmod, change_fs. intros Hfile. destruct (named p); [| done].
  destruct (alter_node _ _ _) as [t'|] eqn:Halter; [| done].
  intros [= <-]. split; [done |]. cbn [fs with_fs].
  pose proof Halter as Hbelow.
  apply alter_node_below in Hbelow as (n & n' & Hn & Hf & Hbelow).
  unfold file_at in Hfile. rewrite Hn in Hfile.
  destruct n as [st0 c0|? ?]; [| done]. injection Hfile as -> ->.
  injection Hf as <-. split.
  - unfold file_at. destruct (Hbelow []) as [E _]. rewrite app_nil_r in E.
    by rewrite E.
  - intros q Hq. destruct (prefix_cases (resolve w p) q) as [[r ->] | Hout];
      [| by apply (alter_node_other _ _ _ _ _ Halter)].
    unfold file_at. destruct (Hbelow r) as [-> ->].
    destruct r as [|y r]; [by rewrite app_nil_r in Hq | done].
Qed.

(** One script of [close]. *)
Lemma close_script_spec env script name w w' :
  PrototypeFile.close_script env script name w = (Ok tt, w') →
  cwd w' = cwd w
  ∧ (∀ q, resolve w q ≠ resolve w name →
          file_at (resolve w q) (fs w') = file_at (resolve w q) (fs w))
  ∧ match script with
    | Some ls =>
        ∃ st, file_at (resolve w name) (fs w')
              = Some (st, String.concat EmptyString ls)
              ∧ Z.land (st_mode st) perm_mask = 493%Z
    | None => w' = w
    end.
Proof.
  destruct script as [ls|]; cbn [PrototypeFile.close_script].
  - intros H. bind_as H u w1 Hwrite. destruct u.
    apply write_file_read in Hwrite as (Hread & Hcwd & _ & _ & Hother).
    rewrite read_file_at in Hread.
    destruct (file_at (resolve w1 name) (fs w1)) as [[st c]|] eqn:Hfile; [| done].
    injection Hread as ->.
    apply (os_chmod_file _ _ _ _ _ _ Hfile) in H as (Hcwd' & Hnew & Hkeep).
    rewrite (resolve_cwd w w1 _ Hcwd) in *.
    split; [congruence |]. split.
    + intros q Hq. rewrite Hkeep by exact Hq. by apply Hother.
    + eexists. split; [exact Hnew |]. apply chmod_mode_perm.
  - intros H. apply ret_Ok in H as [_ ->]. done.
Qed.

Lemma script_names_differ w s s' :
  s ≠ s' → resolve w (script_name s) ≠ resolve w (script_name s').
Proof.
  intros Hne. apply resolve_names_differ; destruct s, s'; done.
Qed.

Lemma script_not_prototype w s :
  resolve w (script_name s) ≠ resolve w "prototype".
Proof. apply resolve_names_differ; destruct s; done. Qed.

(** X16.  [PrototypeFile.close] writes [prototype] with all that was
    written to it, and each script that was opened, with its lines and
    with the permission bits 0755; a script that was not opened is not
    made, and no other file is touched. *)
Theorem close_writes_scripts (env : Env) (p : PrototypeFile.t) (w w' : World) :
  PrototypeFile.close env p w = (Ok tt, w') →
  read_file w' "prototype" = Some (String.concat EmptyString (PrototypeFile.fd p))
  ∧ (∀ s, match script_fd s p with
          | Some ls =>
              ∃ st, file_at (resolve w (script_name s)) (fs w')
                    = Some (st, String.concat EmptyString ls)
                    ∧ Z.land (st_mode st) perm_mask = 493%Z
          | None =>
              file_at (resolve w (script_name s)) (fs w')
              = file_at (resolve w (script_name s)) (fs w)
          end)
  ∧ ∀ q, resolve w q ≠ resolve w "prototype" →
         (∀ s, resolve w q ≠ resolve w (script_name s)) →
         file_at (resolve w q) (fs w') = file_at (resolve w q) (fs w).
Proof.
  unfold PrototypeFile.close. intros H.
  bind_as H u1 w1 H1. bind_as H u2 w2 H2. bind_as H u3 w3 H3. bind_as H u4 w4 H4.
  destruct u1, u2, u3, u4.
  apply close_script_spec in H1 as (C1 & O1 & S1).
  apply close_script_spec in H2 as (C2 & O2 & S2).
  apply close_script_spec in H3 as (C3 & O3 & S3).
  apply close_script_spec in H4 as (C4 & O4 & S4).
  apply write_file_read in H as (Hread & C5 & _ & _ & O5).
  assert (R1 : ∀ q, resolve w1 q = resolve w q)
    by (intros q; by apply resolve_cwd).
  assert (R2 : ∀ q, resolve w2 q = resolve w q)
    by (intros q; rewrite <- R1; by apply resolve_cwd).
  assert (R3 : ∀ q, resolve w3 q = resolve w q)
    by (intros q; rewrite <- R2; by apply resolve_cwd).
  assert (R4 : ∀ q, resolve w4 q = resolve w q)
    by (intros q; rewrite <- R3; by apply resolve_cwd).
  setoid_rewrite R1 in O2. setoid_rewrite R2 in O3. setoid_rewrite R3 in O4.
  setoid_rewrite R4 in O5.
  rewrite ?R1 in S2. rewrite ?R2 in S3. rewrite ?R3 in S4.
  assert (K : ∀ s, s ≠ Preinstall →
            file_at (resolve w (script_name s)) (fs w1)
            = file_at (resolve w (script_name s)) (fs w))
    by (intros s Hs; apply O1; exact (script_names_differ w s Preinstall Hs)).
  assert (K2 : ∀ s, s ≠ Postinstall →
            file_at (resolve w (script_name s)) (fs w2)
            = file_at (resolve w (script_name s)) (fs w1))
    by (intros s Hs; apply O2; exact (script_names_differ w s Postinstall Hs)).
  assert (K3 : ∀ s, s ≠ Preremove →
            file_at (resolve w (script_name s)) (fs w3)
            = file_at (resolve w (script_name s)) (fs w2))
    by (intros s Hs; apply O3; exact (script_names_differ w s Preremove Hs)).
  assert (K4 : ∀ s, s ≠ Postremove →
            file_at (resolve w (script_name s)) (fs w4)
            = file_at (resolve w (script_name s)) (fs w3))
    by (intros s Hs; apply O4; exact (script_names_differ w s Postremove Hs)).
  assert (K5 : ∀ s, file_at (resolve w (script_name s)) (fs w')
                    = file_at (resolve w (script_name s)) (fs w4))
    by (intros s; apply O5; exact (script_not_prototype w s)).
  split; [exact Hread |]. split.
  - intros s. rewrite K5. destruct s; cbn [script_fd].
    + rewrite K4, K3, K2 by done. destruct (PrototypeFile.preinstall_fd p).
      * exact S1.
      * by rewrite S1.
    + rewrite K4, K3 by done. destruct (PrototypeFile.postinstall_fd p).
      * exact S2.
      * rewrite S2. by apply K.
    + rewrite K4 by done. destruct (PrototypeFile.preremove_fd p).
      * exact S3.
      * rewrite S3, K2 by done. by apply K.
    + destruct (PrototypeFile.postremove_fd p).
      * exact S4.
      * rewrite S4, K3, K2 by done. by apply K.
  - intros q Hq Hs. rewrite O5, O4, O3, O2, O1; try done.
    + apply (Hs Preinstall).
    + apply (Hs Postinstall).
    + apply (Hs Preremove).
    + apply (Hs Postremove).
Qed.

(** Closing the [prototype] of a package with the manifest [foo.xml]:
    [postinstall] is written, [preinstall] is not. *)
Lemma close_writes_scripts_witness :
  ∃ w', PrototypeFile.close (demo_env "foo" 0 0)
          (manifest_scripts "/work/foo.xml" "foo") demo_world = (Ok tt, w')
        ∧ read_file w' "prototype"
          = Some ("i postinstall" +:+ nl +:+ "i preremove" +:+ nl
                  +:+ "i postremove" +:+ nl)
        ∧ (∃ st, file_at ["work"; "postinstall"] (fs w')
                 = Some (st, "#!/bin/sh" +:+ nl
                             +:+ "svccfg import /etc/svc/profile/foo.xml" +:+ nl)
                 ∧ Z.land (st_mode st) perm_mask = 493%Z)
        ∧ file_at ["work"; "preinstall"] (fs w') = None.
Proof.
  destruct (PrototypeFile.close (demo_env "foo" 0 0)
              (manifest_scripts "/work/foo.xml" "foo") demo_world)
    as [[[]|e] w'] eqn:H; [| vm_compute in H; discriminate H].
  destruct (close_writes_scripts _ _ _ _ H) as (Hproto & Hscripts & _).
  exists w'. split; [reflexivity |]. split; [exact Hproto |]. split.
  - exact (Hscripts Postinstall).
  - exact (Hscripts Preinstall).
Defined.

(** * Part IV: the custom packages *)

(** ** More of the interpreter and of [os] *)

(** [try: m except: handler], with a bare [except]: the handler runs on
    every exception, in the world [m] has left. *)
Definition try_except {A} (m handler : M A) : M A :=
  λ w, match m w with
       | (Ok a, w') => (Ok a, w')
       | (Raise _, w') => handler w'
       end.

(** [re.search(r, s)] as a truth value: a match of [r] at some position of
    [s]. *)
Fixpoint re_search (r : Re.regex) (s : string) : bool :=
  match Re.re_match r s with
  | Some _ => true
  | None =>
      match s with
      | EmptyString => false
      | String _ s' => re_search r s'
      end
  end.

(** [for line in fd]: the lines of a text, each with its newline; the last
    one may have none. *)
Fixpoint readlines_go (s cur : string) : list string :=
  match s with
  | EmptyString => flush cur
  | String c s' =>
      if Ascii.eqb c "010" then (cur +:+ String c EmptyString) :: readlines_go s' EmptyString
      else readlines_go s' (cur +:+ String c EmptyString)
  end.

Definition readlines (s : string) : list string := readlines_go s EmptyString.

(** [open(p, 'r')] and reading all of it. *)
Definition open_read (p : string) : M string :=
  λ w, match (if named p then lookup (resolve w p) (fs w) else None) with
       | Some (File _ c) => (Ok c, w)
       | _ => (Raise (OSError "open"), w)
       end.

(** [os.rename(src, dst)]: the node at [src] comes to [dst], in the place
    of a file or of an empty directory of its kind that is there; a
    directory does not go below itself. *)
Definition os_rename (src dst : string) : M unit :=
  change_fs
    (λ w,
       let s := resolve w src in
       let d := resolve w dst in
       match (if named src && named dst then lookup s (fs w) else None) with
       | None => None
       | Some n =>
           if decide (s = d) then Some (fs w)
           else if decide (s `prefix_of` d) then None
           else
             match n, lookup d (fs w) with
             | File _ _, Some (Dir _ _) => None
             | Dir _ _, Some (File _ _) => None
             | Dir _ _, Some (Dir _ (_ :: _)) => None
             | _, _ =>
                 match alter_node (add_entry (leaf d) n) (parent d) (fs w) with
                 | Some t1 => alter_node (remove_entry (leaf s)) (parent s) t1
                 | None => None
                 end
             end
       end) "rename".

(** ** The classes *)

Module Apcupsd.
Section WithEnv.
Variable env : Env.

Definition configure (self : Package.t) : M unit :=
  CommandLineApp.shell env
    ["./configure"; "--prefix=/usr"; "--sysconfdir=/etc"; "--enable-usb"] ;;
  ret tt.

(** The pattern ['/etc/rc']. *)
Definition etc_rc_re : Re.regex := Re.lits "/etc/rc".

(** [edit_prototype]: the run-level directories leave the staging area and
    their entries leave [prototype]. *)
Definition edit_prototype (self : Package.t) (prototype : PrototypeFile.t)
    (staging : string) : M unit :=
  rmtree (join staging "etc/rc0.d") ;;
  rmtree (join staging "etc/rc1.d") ;;
  rmtree (join staging "etc/rc2.d") ;;
  write_file env "prototype_tmp" EmptyString ;;
  text <- open_read "prototype" ;;
  write_file env "prototype_tmp"
    (String.concat EmptyString
       (List.filter (λ line, negb (re_search etc_rc_re line)) (readlines text))) ;;
  os_remove "prototype" ;;
  os_rename "prototype_tmp" "prototype".

Definition methods : Package.methods :=
  Package.mkMethods Package.default_clean (Package.default_unpack env)
    (Package.default_prepare env) configure (Package.default_build env)
    (Package.default_ignore_products env) (Package.default_install env)
    None (Some edit_prototype).

End WithEnv.
End Apcupsd.

Module BerkeleyDB.
Section WithEnv.
Variable env : Env.

Definition configure (self : Package.t) : M unit :=
  os_chdir "build_unix" ;;
  CommandLineApp.shell env ["../dist/configure"; "--prefix=/usr"; "--sysconfdir=/etc"] ;;
  ret tt.

Definition methods : Package.methods :=
  Package.mkMethods Package.default_clean (Package.default_unpack env)
    (Package.default_prepare env) configure (Package.default_build env)
    (Package.default_ignore_products env) (Package.default_install env)
    None None.

End WithEnv.
End BerkeleyDB.

Module Ngircd.
Section WithEnv.
Variable env : Env.

Definition configure (self : Package.t) : M unit :=
  CommandLineApp.shell env
    ["./configure"; "--prefix=/usr"; "--sysconfdir=/etc"; "--without-devpoll"] ;;
  ret tt.

Definition methods : Package.methods :=
  Package.mkMethods Package.default_clean (Package.default_unpack env)
    (Package.default_prepare env) configure (Package.default_build env)
    (Package.default_ignore_products env) (Package.default_install env)
    None None.

End WithEnv.
End Ngircd.

Module GooglePerftools.
Section WithEnv.
Variable env : Env.

(** [def clean(self): pass], and so on. *)
Definition clean (self : Package.t) : M unit := ret tt.
Definition unpack (self : Package.t) : M unit := ret tt.
Definition prepare (self : Package.t) : M unit := ret tt.
Definition ignore_products (self : Package.t) : M unit := ret tt.

Definition methods : Package.methods :=
  Package.mkMethods clean unpack prepare (Package.default_configure env)
    (Package.default_build env) ignore_products (Package.default_install env)
    None None.

End WithEnv.
End GooglePerftools.

Module Dovecot.
Section WithEnv.
Variable env : Env.

Definition configure (self : Package.t) : M unit :=
  CommandLineApp.shell env
    ["./configure"; "--prefix=/usr"; "--sysconfdir=/etc"; "--localstatedir=/var"] ;;
  ret tt.

Definition build (self : Package.t) : M unit :=
  CommandLineApp.shell env
    (["make"] ++ make_opts
     ++ ["prefix=/usr"; "sysconfdir=/etc"; "localstatedir=/var";
         "rundir=/var/run/dovecot"; "statedir=/var/lib/dovecot"]) ;;
  ret tt.

Definition install (self : Package.t) (staging : string) : M unit :=
  a <- lift (fmt "INSTALL=%s" (Args [PStr INSTALL])) ;;
  b <- lift (fmt "DESTDIR=%s" (Args [PStr staging])) ;;
  CommandLineApp.shell env
    (["make"]
     ++ [a; b; "prefix=/usr"; "sysconfdir=/etc"; "localstatedir=/var";
         "rundir=/var/run/dovecot"; "statedir=/var/lib/dovecot"; "install"]) ;;
  ret tt.

Definition postinstall_text : string := "
/usr/sbin/useradd -d /usr/lib/dovecot -s /usr/bin/false dovecot
/usr/sbin/useradd -d /usr/lib/dovecot -s /usr/bin/false dovenull

if ! grep -q ^imap /etc/pam.conf; then
    cat <<EOF >> /etc/pam.conf
imap    auth    requisite       pam_authtok_get.so.1
imap    auth    required        pam_unix_auth.so.1
imap    account requisite       pam_roles.so.1
imap    account required        pam_unix_account.so.1
imap    session required        pam_unix_session.so.1
pop3    auth    requisite       pam_authtok_get.so.1
pop3    auth    required        pam_unix_auth.so.1
pop3    account requisite       pam_roles.so.1
pop3    account required        pam_unix_account.so.1
pop3    session required        pam_unix_session.so.1
EOF
fi
/usr/bin/perl
".

Definition postremove_text : string := "
/usr/sbin/userdel dovecot
/usr/sbin/userdel dovenull

/usr/bin/perl -i -ne 'print unless /^(imap|pop3)/;' /etc/pam.conf
".

Definition extend_prototype (self : Package.t) (prototype : PrototypeFile.t)
    (staging : string) : M PrototypeFile.t :=
  prototype <- lift (PrototypeFile.postinstall prototype postinstall_text) ;;
  lift (PrototypeFile.postremove prototype postremove_text).

Definition methods : Package.methods :=
  Package.mkMethods Package.default_clean (Package.default_unpack env)
    (Package.default_prepare env) configure build
    (Package.default_ignore_products env) install
    (Some extend_prototype) None.

End WithEnv.
End Dovecot.

Module Glib.
Section WithEnv.
Variable env : Env.

Definition configure (self : Package.t) : M unit :=
  CommandLineApp.shell env
    ["./configure"; "--prefix=/usr"; "--sysconfdir=/etc"; "--disable-dtrace";
     "LIBS=-lsocket -lnsl"] ;;
  ret tt.

(** [try: shell('make') except: shell('perl', ...); shell('make')] *)
Definition build (self : Package.t) : M unit :=
  try_except
    (CommandLineApp.shell env ["make"] ;; ret tt)
    (CommandLineApp.shell env ["perl"; "-i"; "-pe"; "s/ tests$//;"; "gio/Makefile"] ;;
     CommandLineApp.shell env ["make"] ;;
     ret tt).

Definition methods : Package.methods :=
  Package.mkMethods Package.default_clean (Package.default_unpack env)
    (Package.default_prepare env) configure build
    (Package.default_ignore_products env) (Package.default_install env)
    None None.

End WithEnv.
End Glib.


(** ** [Glib]: the build that is tried twice *)

Lemma shell_cases env args w r w' :
  CommandLineApp.shell env args w = (r, w') →
  started w' = started w ++ [args]
  ∧ (r = Ok true ∨ r = Raise (CommandFailed args)).
Proof.
  unfold CommandLineApp.shell. cbv zeta.
  destruct (run_cmd env args _ _) as [status t].
  destruct (Z.eqb status 0); intros [= <- <-]; auto.
Qed.




(** ** [Dovecot]: the scripts of the package *)

Lemma write_entries_scripts prototype lines s :
  script_fd s (Package.write_entries prototype lines) = script_fd s prototype.
Proof.
  unfold Package.write_entries. revert prototype.
  induction lines as [|line lines IH]; intros prototype; [done |].
  cbn [fold_left]. rewrite IH. destruct (Package.keep_line line); [| done].
  by destruct s.
Qed.

Lemma include_scripts prototype name p' s :
  PrototypeFile.include prototype name None = Ok p' →
  script_fd s p' = script_fd s prototype.
Proof.
  intros H. apply include_fd in H as (_ & H1 & H2 & H3 & H4). by destruct s.
Qed.

(** X18.  The [prototype] of a Dovecot package, which has a manifest.  The
    hook [extend_prototype] finds [postinstall] and [postremove] opened by
    the manifest block, so it puts its lines after the ones of the
    manifest and adds no directive: [prototype] holds the three directives
    of the scripts once each, the entries of [pkgproto] but the root
    entries, and the directive of [pkginfo]. *)
Theorem dovecot_prototype (env : Env) (self self' : Package.t) (staging : string)
    (prototype : PrototypeFile.t) (w w' : World) :
  Package.has_manifest self = true →
  Package.assemble env (Dovecot.methods env) self staging w
  = (Ok (self', prototype), w') →
  ∃ path lines w1 w2,
    CommandLineApp.mkreader env ["pkgproto"; staging +:+ "=/"] w1 = (Ok lines, w2)
    ∧ PrototypeFile.fd prototype
      = ["i postinstall" +:+ nl; "i preremove" +:+ nl; "i postremove" +:+ nl]
        ++ List.filter (λ l, negb (is_root_entry l)) lines
        ++ ["i pkginfo" +:+ nl]
    ∧ PrototypeFile.preinstall_fd prototype = None
    ∧ PrototypeFile.postinstall_fd prototype
      = Some ["#!/bin/sh" +:+ nl;
              "svccfg import /etc/svc/profile/" +:+ basename path; nl;
              Dovecot.postinstall_text; nl]
    ∧ PrototypeFile.preremove_fd prototype
      = Some ["#!/bin/sh" +:+ nl; "svcadm disable " +:+ Package.name self; nl]
    ∧ PrototypeFile.postremove_fd prototype
      = Some ["#!/bin/sh" +:+ nl; "svccfg delete " +:+ Package.name self; nl;
              Dovecot.postremove_text; nl].
Proof.
  intros Hm H. unfold Package.assemble in H.
  cbn [Package.extend_prototype Package.install Dovecot.methods] in H.
  do 3 bind_inv H. bind_as H attached w4 Hattach.
  destruct attached as [self1 p1].
  apply (attach_manifest_scripts _ _ _ _ _ _ _ Hm) in Hattach as (path & _ & _ & ->).
  do 3 bind_inv H. bind_as H arg w8 Harg. apply lift_Ok in Harg as [[= <-] ->].
  bind_as H lines w9 Hlines.
  bind_as H p2 w10 Hinc. apply lift_Ok in Hinc as [Hinc ->].
  bind_as H p3 w11 Hext. apply ret_Ok in H as [[= -> ->] ->].
  unfold Dovecot.extend_prototype in Hext.
  bind_as Hext p4 w12 Hpost. apply lift_Ok in Hpost as [Hpost ->].
  apply lift_Ok in Hext as [Hrm _].
  pose proof (include_scripts _ _ _ Preinstall Hinc) as S1.
  pose proof (include_scripts _ _ _ Postinstall Hinc) as S2.
  pose proof (include_scripts _ _ _ Preremove Hinc) as S3.
  pose proof (include_scripts _ _ _ Postremove Hinc) as S4.
  rewrite write_entries_scripts in S1, S2, S3, S4.
  apply include_fd in Hinc as (Efd & _). rewrite write_entries_fd in Efd.
  cbn [script_fd manifest_scripts PrototypeFile.preinstall_fd
       PrototypeFile.postinstall_fd PrototypeFile.preremove_fd
       PrototypeFile.postremove_fd PrototypeFile.fd] in S1, S2, S3, S4, Efd.
  unfold PrototypeFile.postinstall, PrototypeFile.opened in Hpost.
  rewrite S2 in Hpost. cbn [rbind] in Hpost. injection Hpost as <-.
  unfold PrototypeFile.postremove, PrototypeFile.opened in Hrm.
  cbn [PrototypeFile.postremove_fd PrototypeFile.fd PrototypeFile.preinstall_fd
       PrototypeFile.postinstall_fd PrototypeFile.preremove_fd] in Hrm.
  rewrite S4 in Hrm. cbn [rbind] in Hrm. injection Hrm as <-.
  exists path, lines. do 2 eexists. split; [exact Hlines |].
  cbn [PrototypeFile.fd PrototypeFile.preinstall_fd PrototypeFile.postinstall_fd
       PrototypeFile.preremove_fd PrototypeFile.postremove_fd
       PrototypeFile.script_add].
  rewrite Efd, S1, S3. cbn [app]. done.
Qed.

(** The package of [dovecot-2.0.tar.gz], assembled. *)
Lemma dovecot_prototype_witness :
  let env := demo_env "dovecot" 0 0 in
  ∃ p w1 self' prototype w',
    PkgBuild.construct PkgBuild.Dovecot "dovecot-2.0.tar.gz"
      (xml_world "dovecot-2.0.tar.gz" "dovecot.xml") = (Ok p, w1)
    ∧ Package.assemble env (Dovecot.methods env) p "/tmp/pkg-staging" w1
      = (Ok (self', prototype), w')
    ∧ PrototypeFile.preinstall_fd prototype = None
    ∧ PrototypeFile.preremove_fd prototype
      = Some ["#!/bin/sh" +:+ nl; "svcadm disable dovecot"; nl].
Proof.
  intros env.
  destruct (PkgBuild.construct PkgBuild.Dovecot "dovecot-2.0.tar.gz"
              (xml_world "dovecot-2.0.tar.gz" "dovecot.xml"))
    as [[p|e] w1] eqn:Hp; [| vm_compute in Hp; discriminate Hp].
  assert (Hfields : Package.has_manifest p = true ∧ Package.name p = "dovecot").
  { vm_compute in Hp. injection Hp as <- _. done. }
  destruct Hfields as [Hm Hname].
  destruct (Package.assemble env (Dovecot.methods env) p "/tmp/pkg-staging" w1)
    as [[[self' prototype]|e] w'] eqn:Ha.
  - destruct (dovecot_prototype env p self' "/tmp/pkg-staging" prototype w1 w' Hm Ha)
      as (path & lines & w2 & w3 & _ & _ & Hpre & _ & Hrm & _).
    exists p, w1, self', prototype, w'. rewrite Hname in Hrm. done.
  - exfalso. vm_compute in Hp. injection Hp as <- <-.
    vm_compute in Ha. discriminate Ha.
Defined.

(** ** [Apcupsd]: the entries taken out of [prototype] *)

Definition has_newline (s : string) : bool := existsb (Ascii.eqb "010") (chars s).

Lemma has_newline_cons c s :
  has_newline (String c s) = (Ascii.eqb "010" c || has_newline s)%bool.
Proof. reflexivity. Qed.

Lemma has_newline_app a b :
  has_newline (a +:+ b) = (has_newline a || has_newline b)%bool.
Proof. unfold has_newline. by rewrite chars_app, existsb_app. Qed.

Lemma readlines_go_cons c s cur :
  readlines_go (String c s) cur
  = if Ascii.eqb c "010" then (cur +:+ String c EmptyString) :: readlines_go s EmptyString
    else readlines_go s (cur +:+ String c EmptyString).
Proof. reflexivity. Qed.

Lemma concat_flush cur : String.concat EmptyString (flush cur) = cur.
Proof. by destruct cur. Qed.

(** The lines of a text, put together, are the text. *)
Lemma readlines_go_concat s cur :
  String.concat EmptyString (readlines_go s cur) = cur +:+ s.
Proof.
  revert cur. induction s as [|c s IH]; intros cur.
  - cbn [readlines_go]. by rewrite concat_flush, append_empty_r.
  - rewrite readlines_go_cons. destruct (Ascii.eqb c "010").
    + rewrite concat_cons, IH. change (EmptyString +:+ s) with s.
      by rewrite append_assoc.
    + rewrite IH. by rewrite append_assoc.
Qed.

Lemma readlines_concat s : String.concat EmptyString (readlines s) = s.
Proof. apply readlines_go_concat. Qed.

(** A line with its newline, and a last line without one. *)
Definition is_line (x : string) : Prop :=
  ∃ body, x = body +:+ nl ∧ has_newline body = false.
Definition is_tail (x : string) : Prop :=
  x ≠ EmptyString ∧ has_newline x = false.

(** A list of lines as [readlines] makes them: only the last one may lack
    its newline. *)
Fixpoint proper (l : list string) : Prop :=
  match l with
  | [] => True
  | x :: rest => (is_line x ∨ (is_tail x ∧ rest = [])) ∧ proper rest
  end.

Lemma readlines_go_proper s cur :
  has_newline cur = false → proper (readlines_go s cur).
Proof.
  revert cur. induction s as [|c s IH]; intros cur Hcur.
  - cbn [readlines_go]. destruct cur as [|a cur]; [done |].
    split; [| done]. right. by split.
  - rewrite readlines_go_cons. destruct (Ascii.eqb_spec c "010") as [-> | Hc].
    + split; [| by apply IH]. left. by exists cur.
    + apply IH. rewrite has_newline_app, Hcur. cbn [orb].
      rewrite has_newline_cons. cbn [has_newline chars existsb]. rewrite orb_false_r.
      destruct (Ascii.eqb_spec "010" c) as [<- |]; [done | reflexivity].
Qed.

Lemma readlines_proper s : proper (readlines s).
Proof. by apply readlines_go_proper. Qed.

Lemma proper_filter (keep : string → bool) l : proper l → proper (List.filter keep l).
Proof.
  induction l as [|x rest IH]; [done |]. intros [Hx Hrest]. cbn [List.filter].
  destruct (keep x); [| by apply IH]. split; [| by apply IH].
  destruct Hx as [Hx | [Hx ->]]; [by left | by right].
Qed.

Lemma readlines_go_body body s cur :
  has_newline body = false →
  readlines_go (body +:+ nl +:+ s) cur
  = (cur +:+ body +:+ nl) :: readlines_go s EmptyString.
Proof.
  intros Hb. revert cur. induction body as [|c body IH]; intros cur; [done |].
  rewrite has_newline_cons in Hb. apply orb_false_iff in Hb as [Hc Hb].
  change (String c body +:+ nl +:+ s) with (String c (body +:+ nl +:+ s)).
  rewrite readlines_go_cons, Ascii.eqb_sym, Hc, (IH Hb).
  by rewrite append_assoc.
Qed.

Lemma readlines_go_tail body cur :
  has_newline body = false → readlines_go body cur = flush (cur +:+ body).
Proof.
  intros Hb. revert cur. induction body as [|c body IH]; intros cur.
  - by rewrite append_empty_r.
  - rewrite has_newline_cons in Hb. apply orb_false_iff in Hb as [Hc Hb].
    rewrite readlines_go_cons, Ascii.eqb_sym, Hc, (IH Hb).
    by rewrite append_assoc.
Qed.

(** Proper lines, put together and read again, are the same lines. *)
Lemma readlines_of_lines l :
  proper l → readlines (String.concat EmptyString l) = l.
Proof.
  unfold readlines. induction l as [|x rest IH]; [done |]. intros [Hx Hrest].
  rewrite concat_cons. destruct Hx as [(body & -> & Hb) | [[Hne Hb] ->]].
  - rewrite append_assoc, (readlines_go_body body _ EmptyString Hb).
    by rewrite (IH Hrest).
  - cbn [String.concat]. rewrite append_empty_r.
    rewrite (readlines_go_tail x EmptyString Hb). by destruct x.
Qed.

(** [re.search] with a pattern of ordinary characters is a substring
    test. *)
Lemma re_search_lits p s : re_search (Re.lits p) s = contains p s.
Proof.
  induction s as [|c s IH]; cbn [re_search contains].
  - rewrite <- lits_match_prefix. by destruct (Re.re_match _ _).
  - rewrite <- lits_match_prefix, <- IH. by destruct (Re.re_match _ _).
Qed.

Lemma assoc_del_entry_ne x y es : x ≠ y → assoc y (del_entry x es) = assoc y es.
Proof.
  intros Hne. induction es as [|[z c] es IH]; [done |]. cbn [del_entry assoc].
  destruct (String.eqb_spec x z) as [-> | Hxz].
  - by destruct (String.eqb_spec y z) as [-> |].
  - cbn [assoc]. by rewrite IH.
Qed.

(** Removing the entry [x] of the directory at [p] leaves alone the files
    that are not at or below it. *)
Lemma remove_entry_other x p t t' q :
  alter_node (remove_entry x) p t = Some t' →
  (∀ r, q ≠ (p ++ [x]) ++ r) → file_at q t' = file_at q t.
Proof.
  intros H Hq. destruct (prefix_cases p q) as [[r ->] | Hout];
    [| by apply (alter_node_other _ _ _ _ _ H)].
  apply alter_node_below in H as (d & d' & Hd & Hf & Hbelow).
  unfold file_at. destruct (Hbelow r) as [-> ->].
  destruct d as [sd cd|sd es]; [done |]. injection Hf as <-.
  destruct r as [|y r]; [done |]. cbn [lookup].
  rewrite assoc_del_entry_ne; [done |].
  intros ->. apply (Hq r). by rewrite <- app_assoc.
Qed.

Lemma os_remove_other p w w' :
  os_remove p w = (Ok tt, w') →
  cwd w' = cwd w
  ∧ ∀ q, (∀ r, q ≠ resolve w p ++ r) → file_at q (fs w') = file_at q (fs w).
Proof.
  unfold os_remove, change_fs. destruct (isfile_in w p) eqn:Hfile; [| done].
  destruct (alter_node _ _ _) as [t'|] eqn:Halter; [| done].
  intros [= <-]. split; [done |]. intros q Hq. cbn [fs with_fs].
  destruct (resolve w p) as [|x rp] eqn:Erp.
  - cbn in Halter. unfold isfile_in in Hfile.
    apply andb_true_iff in Hfile as [_ Hfile]. rewrite Erp in Hfile.
    cbn in Hfile. destruct (fs w); [discriminate Halter | discriminate Hfile].
  - apply (remove_entry_other _ _ _ _ _ Halter). intros r.
    rewrite <- (path_snoc (x :: rp)) by done. apply Hq.
Qed.

(** [os.rename] of a file to another path: the file is at that path
    afterwards. *)
Lemma os_rename_file src dst w w' st c :
  file_at (resolve w src) (fs w) = Some (st, c) →
  resolve w src ≠ resolve w dst →
  os_rename src dst w = (Ok tt, w') →
  cwd w' = cwd w ∧ file_at (resolve w dst) (fs w') = Some (st, c).
Proof.
  unfold os_rename, change_fs, file_at. intros Hsrc Hne. cbv zeta.
  destruct (named src && named dst)%bool; [| done].
  destruct (lookup (resolve w src) (fs w)) as [[st0 c0|? ?]|] eqn:Hs; try done.
  injection Hsrc as -> ->.
  destruct (decide (resolve w src = resolve w dst)) as [|_]; [done |].
  destruct (decide (resolve w src `prefix_of` resolve w dst)) as [|Hpre]; [done |].
  destruct (match lookup (resolve w dst) (fs w) with
            | Some (Dir _ _) => None
            | _ => match alter_node (add_entry (leaf (resolve w dst)) (File st c))
                           (parent (resolve w dst)) (fs w) with
                   | Some t1 =>
                       alter_node (remove_entry (leaf (resolve w src)))
                                  (parent (resolve w src)) t1
                   | None => None
                   end
            end) as [t2|] eqn:E; [| done].
  intros [= <-]. split; [done |]. cbn [fs with_fs].
  assert (E' : (∀ sd es, lookup (resolve w dst) (fs w) ≠ Some (Dir sd es))
               ∧ ∃ t1, alter_node (add_entry (leaf (resolve w dst)) (File st c))
                         (parent (resolve w dst)) (fs w) = Some t1
                       ∧ alter_node (remove_entry (leaf (resolve w src)))
                                    (parent (resolve w src)) t1 = Some t2).
  { destruct (lookup (resolve w dst) (fs w)) as [[]|];
      destruct (alter_node (add_entry _ _) _ _) as [t1|]; try done;
      (split; [done | eauto]). }
  destruct E' as (Hnd & t1 & Hadd & Hrm).
  assert (Hs' : resolve w src ≠ []).
  { intros Es. apply Hpre. rewrite Es. by exists (resolve w dst). }
  assert (Hd : resolve w dst ≠ []).
  { intros Ed. rewrite Ed in Hnd. cbn [lookup] in Hnd.
    destruct (resolve w src) as [|x s]; [done |].
    cbn [lookup] in Hs. destruct (fs w) as [|sd es]; [discriminate Hs |].
    by apply (Hnd sd es). }
  assert (H1 : lookup (resolve w dst) t1 = Some (File st c)).
  { apply alter_node_below in Hadd as (d & d' & _ & Hf & Hbelow).
    rewrite (path_snoc _ Hd). destruct (Hbelow [leaf (resolve w dst)]) as [-> _].
    destruct d as [|sd es]; [done |]. injection Hf as <-. cbn [lookup].
    by rewrite assoc_set_entry_eq. }
  pose proof (remove_entry_other _ _ _ _ (resolve w dst) Hrm) as Hkeep.
  unfold file_at in Hkeep. rewrite Hkeep, H1; [done |].
  intros r Hr. apply Hpre. exists r. by rewrite <- (path_snoc _ Hs') in Hr.
Qed.

Lemma tmp_not_below_prototype w r :
  resolve w "prototype_tmp" ≠ resolve w "prototype" ++ r.
Proof.
  rewrite !resolve_name by reflexivity. rewrite <- app_assoc.
  intros E. apply app_inv_head in E. discriminate E.
Qed.

(** X19.  [Apcupsd.edit_prototype] removes the three run-level
    directories from the staging area and then rewrites [prototype]: the
    lines of the new file are the lines of the old one that do not hold
    [/etc/rc], in their order and unchanged. *)
Theorem edit_prototype_lines (env : Env) (self : Package.t)
    (prototype : PrototypeFile.t) (staging : string) (w w' : World) :
  Apcupsd.edit_prototype env self prototype staging w = (Ok tt, w') →
  ∃ w0 old new,
    (rmtree (join staging "etc/rc0.d") ;;
     rmtree (join staging "etc/rc1.d") ;;
     rmtree (join staging "etc/rc2.d")) w = (Ok tt, w0)
    ∧ read_file w0 "prototype" = Some old
    ∧ read_file w' "prototype" = Some new
    ∧ readlines new
      = List.filter (λ line, negb (contains "/etc/rc" line)) (readlines old).
Proof.
  unfold Apcupsd.edit_prototype. intros H.
  bind_as H u1 w1 H1. bind_as H u2 w2 H2. bind_as H u3 w0 H3.
  destruct u1, u2, u3.
  bind_as H u4 w4 H4. destruct u4.
  bind_as H old w5 Hold. bind_as H u5 w6 H5. destruct u5.
  bind_as H u6 w7 H6. destruct u6.
  apply write_file_read in H4 as (_ & C4 & _ & _ & O4).
  assert (Eold : read_file w4 "prototype" = Some old ∧ w5 = w4).
  { unfold open_read in Hold. unfold read_file.
    destruct (lookup _ _) as [[st c|? ?]|]; try done. by injection Hold as <- <-. }
  destruct Eold as [Eold ->].
  apply write_file_read in H5 as (R5 & C5 & _ & _ & _).
  apply os_remove_other in H6 as (C6 & O6).
  assert (R4 : ∀ q, resolve w4 q = resolve w0 q) by (intros q; by apply resolve_cwd).
  assert (R6 : ∀ q, resolve w6 q = resolve w0 q)
    by (intros q; rewrite <- R4; by apply resolve_cwd).
  assert (R7 : ∀ q, resolve w7 q = resolve w0 q)
    by (intros q; rewrite <- R6; by apply resolve_cwd).
  rewrite read_file_at, R6 in R5.
  destruct (file_at (resolve w0 "prototype_tmp") (fs w6)) as [[st c]|] eqn:F6; [| done].
  injection R5 as ->.
  assert (F7 : file_at (resolve w7 "prototype_tmp") (fs w7)
               = Some (st, String.concat EmptyString
                             (List.filter (λ line, negb (re_search Apcupsd.etc_rc_re line))
                                (readlines old)))).
  { rewrite R7, O6; [exact F6 |]. intros r. rewrite R6.
    apply tmp_not_below_prototype. }
  apply (os_rename_file _ _ _ _ _ _ F7) in H as (C7 & F');
    [| rewrite !R7; apply resolve_names_differ; done].
  exists w0, old,
    (String.concat EmptyString
       (List.filter (λ line, negb (re_search Apcupsd.etc_rc_re line)) (readlines old))).
  split; [| split; [| split]].
  - by rewrite (bind_step _ _ _ _ _ H1), (bind_step _ _ _ _ _ H2).
  - rewrite read_file_at in Eold |- *. rewrite R4 in Eold.
    rewrite <- (O4 "prototype"); [exact Eold |].
    apply resolve_names_differ; done.
  - rewrite read_file_at, (resolve_cwd w7 w' _ C7), F'. reflexivity.
  - rewrite readlines_of_lines by (apply proper_filter, readlines_proper).
    apply List.filter_ext. intros line. unfold Apcupsd.etc_rc_re.
    by rewrite re_search_lits.
Qed.

(** A staging area with the three run-level directories, and a
    [prototype] of four entries in the working directory. *)
Definition apcupsd_world : World :=
  mkWorld
    (Dir (Stat 0 0 dir_mode)
       [("tmp", Dir (Stat 0 3 17407)
                  [("pkg-staging",
                    Dir (Stat 0 0 dir_mode)
                      [("etc", Dir (Stat 0 3 dir_mode)
                                 [("rc0.d", Dir (Stat 0 3 dir_mode) []);
                                  ("rc1.d", Dir (Stat 0 3 dir_mode) []);
                                  ("rc2.d", Dir (Stat 0 3 dir_mode) [])])])]);
        ("work", Dir (Stat 100 10 dir_mode)
                   [("prototype",
                     File (Stat 0 0 file_mode)
                       ("d none /etc 0755 root sys" +:+ nl
                        +:+ "d none /etc/rc0.d 0755 root sys" +:+ nl
                        +:+ "f none /etc/rc0.d/K20apcupsd 0744 root sys" +:+ nl
                        +:+ "f none /usr/sbin/apcupsd 0755 root bin" +:+ nl))])])
    "/work" ServiceManifest.class_heap [].

Lemma edit_prototype_lines_witness :
  ∃ w' new,
    Apcupsd.edit_prototype (demo_env "apcupsd" 0 0) foo_package
      PrototypeFile.__init__ "/tmp/pkg-staging" apcupsd_world = (Ok tt, w')
    ∧ read_file w' "prototype" = Some new
    ∧ readlines new = ["d none /etc 0755 root sys" +:+ nl;
                       "f none /usr/sbin/apcupsd 0755 root bin" +:+ nl].
Proof.
  destruct (Apcupsd.edit_prototype (demo_env "apcupsd" 0 0) foo_package
              PrototypeFile.__init__ "/tmp/pkg-staging" apcupsd_world)
    as [[[]|e] w'] eqn:H; [| vm_compute in H; discriminate H].
  destruct (edit_prototype_lines _ _ _ _ _ _ H) as (w0 & old & new & Hrm & Hold & Hnew & Hl).
  exists w', new. split; [reflexivity |]. split; [exact Hnew |].
  vm_compute in Hrm. injection Hrm as <-. vm_compute in Hold. injection Hold as <-.
  rewrite Hl. reflexivity.
Defined.

(** ** The descriptor [package] would make of an init script *)

(** X20.  The block of [package] that makes a descriptor of an init script
    never makes one.  For a package with a manifest, or without a file
    [etc/init.d/<base>] under the staging root, it leaves the package and
    the world as they are; in the one case left, the format
    ['etc/init.d' % self.base] raises [TypeError]. *)
Theorem synthesis_never_succeeds (self : Package.t) (staging : string) (w : World) :
  let found := isfile_in w (join (join staging "etc/init.d") (Package.base self)) in
  if (negb (Package.has_manifest self) && found)%bool
  then ∃ w', Package.synthesize_manifest self staging w
             = (Raise (TypeError "not all arguments converted during string formatting"),
                w')
  else Package.synthesize_manifest self staging w = (Ok self, w).
Proof.
  cbv zeta. unfold Package.synthesize_manifest, bind, isfile. cbv beta.
  destruct (negb (Package.has_manifest self) && isfile_in w _)%bool; [| reflexivity].
  unfold lift. rewrite (fmt_last "application/") by reflexivity.
  unfold ServiceManifest.new_list. eexists. reflexivity.
Qed.

(** ** The archive of a constructed package and its decompressor *)

Lemma contains_middle q a b : contains q (a +:+ q +:+ b) = true.
Proof.
  induction a as [|c a IH].
  - change (EmptyString +:+ q +:+ b) with (q +:+ b).
    assert (Hp : String.prefix q (q +:+ b) = true) by (apply prefix_app; eauto).
    destruct (q +:+ b); cbn [contains]; by rewrite Hp.
  - change (String c a +:+ q +:+ b) with (String c (a +:+ q +:+ b)).
    cbn [contains]. rewrite IH. apply orb_true_r.
Qed.

(** The name of a constructed package's archive holds [.gz], [.bz2] or
    [.xz]. *)
Lemma parsed_has_extension self s m :
  Re.re_match Package.tarball_re s = Some m →
  (contains ".xz" (Package.tarball (parsed self m))
   || contains ".bz2" (Package.tarball (parsed self m))
   || contains ".gz" (Package.tarball (parsed self m)))%bool = true.
Proof.
  intros Hm. destruct (tarball_match_inv s m Hm)
    as (n & v & es & rest & _ & _ & _ & _ & Hes & Hall & _ & _ & E0 & _).
  unfold parsed. cbn [Package.tarball].
  change (Package.group_str m 0) with (Re.group0 m). rewrite E0.
  destruct es as [|e es]; [done |]. apply Forall_cons in Hall as [He _].
  assert (Hsplit : ∀ x, e = chars x →
            str ((n ++ "-"%char :: v) ++ chars ".tar." ++ concat (e :: es))
            = str ((n ++ "-"%char :: v) ++ chars ".tar")
              +:+ ("." +:+ x) +:+ str (concat es)).
  { intros x ->. rewrite <- (str_chars ("." +:+ x)), <- !str_app. f_equal.
    rewrite chars_app. cbn [concat]. rewrite <- !app_assoc. reflexivity. }
  cbn [map exts] in He. destruct He as [<- | [<- | [<- | []]]].
  - rewrite (Hsplit "gz" eq_refl). change ("." +:+ "gz") with ".gz".
    rewrite contains_middle. by rewrite !orb_true_r.
  - rewrite (Hsplit "bz2" eq_refl). change ("." +:+ "bz2") with ".bz2".
    rewrite contains_middle. by rewrite orb_true_r.
  - rewrite (Hsplit "xz" eq_refl). change ("." +:+ "xz") with ".xz".
    by rewrite contains_middle.
Qed.

Lemma unpack_with_cases env tool_path tool package self w r w' :
  Package.unpack_with env tool_path tool package self w = (r, w') →
  (r = Raise (Exception ("Please install the " +:+ package +:+ " package")) ∧ w' = w)
  ∨ (r = Ok tt
     ∧ started w' = started w ++ [[tool; "-dc"; Package.tarball self];
                                  ["tar"; "-xf"; "-"]]).
Proof.
  unfold Package.unpack_with, bind, isfile. cbv beta.
  destruct (isfile_in w tool_path); cbn [negb].
  - unfold CommandLineApp.shuttle. cbv zeta.
    destruct (run_pipe env _ _ _ _) as [[z1 z2] t].
    intros [= <- <-]. right. split; [done |]. cbn. by rewrite <- app_assoc.
  - intros [= <- <-]. by left.
Qed.

(** X21.  A package that was constructed from the name of an archive is
    never unpacked without a decompressor: the name holds one of the three
    extensions, so [unpack], when the archive is there, either asks for a
    tool that is missing and starts nothing, or starts one of [xz],
    [bzip2] and [gzip], then [tar], then [chown], in this order. *)
Theorem parsed_archive_is_decompressed (env : Env) (self p : Package.t) (s : string)
    (w0 w1 w w' : World) (r : result unit) :
  s ≠ EmptyString →
  Package.__init__ self (Some s) w0 = (Ok p, w1) →
  isfile_in w (Package.tarball p) = true →
  Package.default_unpack env p w = (r, w') →
  (∃ package,
     r = Raise (Exception ("Please install the " +:+ package +:+ " package"))
     ∧ w' = w)
  ∨ ∃ tool,
      In tool ["xz"; "bzip2"; "gzip"]
      ∧ started w'
        = started w ++ [[tool; "-dc"; Package.tarball p];
                        ["tar"; "-xf"; "-"];
                        ["chown"; "-R"; "root:root"; Package.base p]].
Proof.
  intros Hs Hinit Hthere H.
  rewrite (init_with_tarball self s w0 Hs) in Hinit.
  destruct (Re.re_match Package.tarball_re s) as [m|] eqn:Hm; [| done].
  injection Hinit as <- _.
  pose proof (parsed_has_extension self s m Hm) as Hext.
  destruct (adopt_fields w0 (parsed self m)) as (Et & _).
  rewrite <- Et in Hext.
  set (p := adopt w0 (parsed self m)) in *.
  unfold Package.default_unpack in H.
  apply bind_cases in H as [(e & H & _) | (there & w2 & Hisfile & H)];
    [discriminate H |].
  injection Hisfile as <- <-. rewrite Hthere in H. cbn [negb] in H.
  assert (Hchown : ∀ tool w2,
            started w2 = started w ++ [[tool; "-dc"; Package.tarball p];
                                       ["tar"; "-xf"; "-"]] →
            (CommandLineApp.shell env ["chown"; "-R"; "root:root"; Package.base p] ;;
             ret tt) w2 = (r, w') →
            started w' = started w ++ [[tool; "-dc"; Package.tarball p];
                                       ["tar"; "-xf"; "-"];
                                       ["chown"; "-R"; "root:root"; Package.base p]]).
  { intros tool w2 Hw2 Hc.
    apply bind_cases in Hc as [(e & Hc & _) | (b & w3 & Hc & Hr)].
    - apply shell_cases in Hc as [-> _]. by rewrite Hw2, <- app_assoc.
    - apply shell_cases in Hc as [Hw3 _]. injection Hr as _ <-.
      by rewrite Hw3, Hw2, <- app_assoc. }
  destruct (contains ".xz" (Package.tarball p)) eqn:Hxz;
    [| destruct (contains ".bz2" (Package.tarball p)) eqn:Hbz;
       [| destruct (contains ".gz" (Package.tarball p)) eqn:Hgz; [| done]]].
  - apply bind_cases in H as [(e & H & ->) | ([] & w2 & Hu & H)].
    + apply unpack_with_cases in H as [[[= ->] ->] | [[=] _]]. left. eauto.
    + apply unpack_with_cases in Hu as [[[=] _] | [_ Hw2]].
      right. exists "xz". split; [by left |]. by apply (Hchown "xz" w2).
  - apply bind_cases in H as [(e & H & ->) | ([] & w2 & Hu & H)].
    + apply unpack_with_cases in H as [[[= ->] ->] | [[=] _]]. left. eauto.
    + apply unpack_with_cases in Hu as [[[=] _] | [_ Hw2]].
      right. exists "bzip2". split; [right; by left |]. by apply (Hchown "bzip2" w2).
  - apply bind_cases in H as [(e & H & ->) | ([] & w2 & Hu & H)].
    + apply unpack_with_cases in H as [[[= ->] ->] | [[=] _]]. left. eauto.
    + apply unpack_with_cases in Hu as [[[=] _] | [_ Hw2]].
      right. exists "gzip". split; [right; right; by left |].
      by apply (Hchown "gzip" w2).
Qed.

(** [foo-2.3.tar.gz], unpacked on the system of the example: by [gzip]. *)
Lemma parsed_archive_is_decompressed_witness :
  ∃ r w', Package.default_unpack (demo_env "foo" 0 0) foo_package demo_world = (r, w')
          ∧ ∃ tool, started w'
                    = [[tool; "-dc"; "foo-2.3.tar.gz"]; ["tar"; "-xf"; "-"];
                       ["chown"; "-R"; "root:root"; "foo-2.3"]].
Proof.
  destruct (Package.default_unpack (demo_env "foo" 0 0) foo_package demo_world)
    as [r w'] eqn:H.
  exists r, w'. split; [reflexivity |].
  destruct (parsed_archive_is_decompressed (demo_env "foo" 0 0) Package.class_attrs
              foo_package "foo-2.3.tar.gz" demo_world demo_world demo_world w' r)
    as [(package & _ & ->) | (tool & _ & Hs)].
  - discriminate.
  - apply foo_package_constructed.
  - reflexivity.
  - exact H.
  - vm_compute in H. discriminate H.
  - by exists tool.
Defined.

(** ** Removing a directory *)

Lemma assoc_not_named x es :
  existsb (String.eqb x) (map fst es) = false → assoc x es = None.
Proof.
  induction es as [|[y c] es IH]; [done |]. cbn [map fst existsb assoc].
  intros H. apply orb_false_iff in H as [-> H]. by apply IH.
Qed.

Lemma assoc_del_entry_eq x es :
  distinct (map fst es) = true → assoc x (del_entry x es) = None.
Proof.
  induction es as [|[y c] es IH]; [done |]. cbn [map fst distinct del_entry].
  intros H. apply andb_true_iff in H as [Hy Hes]. apply negb_true_iff in Hy.
  destruct (String.eqb_spec x y) as [-> | Hne].
  - by apply assoc_not_named.
  - cbn [assoc]. destruct (String.eqb_spec x y); [done | by apply IH].
Qed.

(** In a well-formed tree the names of every directory differ. *)
Lemma valid_lookup t : ∀ p st es,
  valid_tree t = true → lookup p t = Some (Dir st es) →
  distinct (map fst es) = true.
Proof.
  induction t as [s c|s es0 IH] using node_ind'; intros p st es Hv Hl.
  - by destruct p.
  - cbn [valid_tree] in Hv. apply andb_true_iff in Hv as [Hd Hall].
    destruct p as [|x p].
    + by injection Hl as <- <-.
    + cbn [lookup] in Hl. destruct (assoc x es0) as [c|] eqn:Ex; [| done].
      apply assoc_In in Ex. rewrite List.Forall_forall in IH.
      rewrite forallb_forall in Hall. specialize (Hall _ Ex).
      apply andb_true_iff in Hall as [_ Hc].
      by apply (IH _ Ex p st es).
Qed.

(** [shutil.rmtree] on a well-formed tree: the directory is gone, and the
    files that are not in it are as before. *)
Lemma rmtree_removes p w :
  valid_tree (fs w) = true → resolve w p ≠ [] → isdir_in w p = true →
  ∃ w', rmtree p w = (Ok tt, w')
        ∧ cwd w' = cwd w
        ∧ lookup (resolve w p) (fs w') = None
        ∧ ∀ q, (∀ r, q ≠ resolve w p ++ r) → file_at q (fs w') = file_at q (fs w).
Proof.
  intros Hv Hp Hdir. unfold rmtree, change_fs. rewrite Hdir.
  unfold isdir_in in Hdir. apply andb_true_iff in Hdir as [_ Hdir].
  destruct (lookup (resolve w p) (fs w)) as [[|st es]|] eqn:Hl; try done.
  pose proof Hl as Hparent. rewrite (path_snoc _ Hp) in Hparent.
  apply lookup_snoc_parent in Hparent as (sd & ds & Hparent).
  destruct (alter_node_exists (remove_entry (leaf (resolve w p)))
              (parent (resolve w p)) (fs w) _ _ Hparent eq_refl) as [t' Ht'].
  rewrite Ht'. eexists. split; [reflexivity |]. split; [done |].
  cbn [fs with_fs]. split.
  - pose proof Ht' as Hbelow.
    apply alter_node_below in Hbelow as (d & d' & Hd & Hf & Hbelow).
    rewrite Hparent in Hd. injection Hd as <-. injection Hf as <-.
    rewrite (path_snoc _ Hp) at 1.
    destruct (Hbelow [leaf (resolve w p)]) as [-> _]. cbn [lookup].
    by rewrite (assoc_del_entry_eq _ _ (valid_lookup _ _ _ _ Hv Hparent)).
  - intros q Hq. apply (remove_entry_other _ _ _ _ _ Ht'). intros r.
    rewrite <- (path_snoc _ Hp). apply Hq.
Qed.

(** A path on which every name is the name of an entry: neither [.] nor
    [..] is among its components. *)
Definition dotless (p : path) : bool :=
  forallb (λ c, negb (String.eqb c ".") && negb (String.eqb c "..")) p.

(** X22.  [clean] on a well-formed file system, for a base that is not
    empty and that, taken from the working directory, names neither the
    root nor, on its way, [.] or [..]: it returns, the directory of the
    sources is no directory afterwards, every file outside of it is as it
    was, and when there was no such directory nothing has changed. *)
Theorem clean_removes_sources (self : Package.t) (w : World) :
  valid_tree (fs w) = true →
  Package.base self ≠ EmptyString →
  dotless (resolve w (Package.base self)) = true →
  resolve w (Package.base self) ≠ [] →
  ∃ w', Package.default_clean self w = (Ok tt, w')
        ∧ isdir_in w' (Package.base self) = false
        ∧ (isdir_in w (Package.base self) = false → w' = w)
        ∧ ∀ q, (∀ r, q ≠ resolve w (Package.base self) ++ r) →
               file_at q (fs w') = file_at q (fs w).
Proof.
  intros Hv _ _ Hp. unfold Package.default_clean, bind, isdir. cbv beta.
  destruct (isdir_in w (Package.base self)) eqn:Hdir; cbn [when].
  - destruct (rmtree_removes _ _ Hv Hp Hdir) as (w' & -> & Hcwd & Hgone & Hother).
    exists w'. split; [done |]. split; [| split; [done | exact Hother]].
    unfold isdir_in. rewrite (resolve_cwd w w' _ Hcwd), Hgone. apply andb_false_r.
  - exists w. done.
Qed.

(** The sources of [foo-2.3] are unpacked beside the archive; [clean]
    removes them and leaves the archive. *)
Lemma clean_removes_sources_witness :
  let w := with_fs (default demo_fs
                      (mkdir_p (Stat 0 0 dir_mode) ["work"; "foo-2.3"; "src"] demo_fs))
                   demo_world in
  isdir_in w "foo-2.3" = true
  ∧ ∃ w', Package.default_clean foo_package w = (Ok tt, w')
          ∧ isdir_in w' "foo-2.3" = false
          ∧ file_at ["work"; "foo-2.3.tar.gz"] (fs w')
            = Some (Stat 100 10 file_mode, "archive").
Proof.
  intros w. split; [reflexivity |].
  destruct (clean_removes_sources foo_package w) as (w' & Hrun & Hgone & _ & Hother);
    [reflexivity | discriminate | reflexivity | discriminate |].
  exists w'. split; [exact Hrun |]. split; [exact Hgone |].
  rewrite Hother; [reflexivity |]. intros r. discriminate.
Defined.

(** ** The staging area when [install] runs *)

Lemma mkdir_p_empty st p t' :
  mkdir_p st p (Dir st []) = Some t' → lookup p t' = Some (Dir st []).
Proof.
  revert t'. induction p as [|x p IH]; intros t'.
  - by intros [= <-].
  - change (mkdir_p st (x :: p) (Dir st []))
      with (match mkdir_p st p (Dir st []) with
            | Some c' => Some (Dir st [(x, c')])
            | None => None
            end).
    destruct (mkdir_p st p (Dir st [])) as [c'|] eqn:Ec; [| done].
    intros [= <-]. cbn [lookup assoc]. rewrite String.eqb_refl.
    by apply IH.
Qed.

(** [mkdir_p] at a path where nothing is makes an empty directory. *)
Lemma mkdir_p_fresh st p : ∀ t t',
  lookup p t = None → mkdir_p st p t = Some t' → lookup p t' = Some (Dir st []).
Proof.
  induction p as [|x p IH]; intros t t' Hnone; [done |].
  destruct t as [|s es]; [done |]. cbn [lookup] in Hnone.
  change (mkdir_p st (x :: p) (Dir s es))
    with (match mkdir_p st p (default (Dir st []) (assoc x es)) with
          | Some c' => Some (Dir s (set_entry x c' es))
          | None => None
          end).
  destruct (assoc x es) as [c|] eqn:Ex.
  - change (default (Dir st []) (Some c)) with c.
    destruct (mkdir_p st p c) as [c'|] eqn:Ec; [| done].
    intros [= <-]. cbn [lookup]. rewrite assoc_set_entry_eq. by apply (IH c).
  - change (default (Dir st []) None) with (Dir st []).
    destruct (mkdir_p st p (Dir st [])) as [c'|] eqn:Ec; [| done].
    intros [= <-]. cbn [lookup]. rewrite assoc_set_entry_eq.
    by apply mkdir_p_empty.
Qed.

(** X23.  [package] clears the staging area before it installs into it:
    for a package without a manifest, when the assembly returns, [install]
    has been called on a staging root that was a new, empty directory,
    whatever was at that path before. *)
Theorem install_sees_empty_staging (env : Env) (m : Package.methods)
    (self self' : Package.t) (staging : string) (prototype : PrototypeFile.t)
    (w w' : World) :
  Package.has_manifest self = false →
  Package.assemble env m self staging w = (Ok (self', prototype), w') →
  ∃ w1 w2,
    cwd w1 = cwd w
    ∧ lookup (resolve w staging) (fs w1) = Some (Dir (mkdir_stat env) [])
    ∧ Package.install m self staging w1 = (Ok tt, w2).
Proof.
  intros Hm H. unfold Package.assemble in H.
  bind_as H there w1 Hthere. apply isdir_Ok in Hthere as [-> ->].
  bind_as H u1 w2 Hrm. bind_as H u2 w3 Hmk. destruct u1, u2.
  bind_as H attached w4 Hattach.
  unfold Package.attach_manifest in Hattach. rewrite Hm in Hattach.
  apply ret_Ok in Hattach as [-> ->].
  bind_as H u3 w5 Hinstall. destruct u3.
  assert (Hcwd2 : cwd w2 = cwd w).
  { apply when_Ok in Hrm as [[_ Hrm] | [_ ->]]; [| done].
    unfold rmtree in Hrm. by apply change_fs_cwd in Hrm. }
  exists w3, w5. unfold os_makedirs, change_fs in Hmk.
  destruct (named staging); [| done].
  destruct (lookup (resolve w2 staging) (fs w2)) as [n|] eqn:Hnone; [done |].
  destruct (mkdir_p _ _ _) as [t'|] eqn:Emk; [| done].
  injection Hmk as <-. split; [exact Hcwd2 |]. split; [| exact Hinstall].
  cbn [fs with_fs]. rewrite <- (resolve_cwd w w2 staging) by done.
  by apply (mkdir_p_fresh _ _ (fs w2)).
Qed.

(** The staging area of an earlier run, with [opt/foo] in it, is empty
    when [make install] starts. *)
Lemma install_sees_empty_staging_witness :
  let env := demo_env "foo" 0 0 in
  isdir_in staged_world "/tmp/pkg-staging/opt/foo" = true
  ∧ ∃ w1 w2,
      lookup ["tmp"; "pkg-staging"] (fs w1) = Some (Dir (Stat 0 0 dir_mode) [])
      ∧ Package.default_install env foo_package "/tmp/pkg-staging" w1 = (Ok tt, w2).
Proof.
  intros env. split; [reflexivity |].
  destruct (Package.assemble env (Package.default_methods env) foo_package
              "/tmp/pkg-staging" staged_world)
    as [[[self' prototype]|e] w'] eqn:H; [| vm_compute in H; discriminate H].
  destruct (install_sees_empty_staging env (Package.default_methods env) foo_package
              self' "/tmp/pkg-staging" prototype staged_world w' eq_refl H)
    as (w1 & w2 & _ & Hl & Hi).
  by exists w1, w2.
Defined.

(** ** The manifest file beside the archive is copied, not moved *)

Lemma shutil_copy_other env src dst w w' q :
  isdir_in w dst = true →
  shutil_copy env src dst w = (Ok tt, w') →
  resolve w q ≠ resolve w (join dst (basename src)) →
  cwd w' = cwd w ∧ read_file w' q = read_file w q.
Proof.
  intros Hdir H Hq. pose proof (shutil_copy_cwd _ _ _ _ _ _ H) as Hcwd.
  split; [exact Hcwd |]. unfold shutil_copy in H. rewrite Hdir in H.
  destruct (if named src then lookup (resolve w src) (fs w) else None)
    as [[st c|? ?]|]; try done.
  bind_as H u w1 Hwrite. destruct u.
  apply write_file_read in Hwrite as (Hread & C1 & _ & _ & O1).
  rewrite read_file_at in Hread.
  destruct (file_at (resolve w1 (join dst (basename src))) (fs w1))
    as [[st1 c1]|] eqn:Hfile; [| done].
  apply (os_chmod_file _ _ _ _ _ _ Hfile) in H as (_ & _ & O2).
  rewrite !read_file_at, (resolve_cwd w w' q Hcwd).
  rewrite O2 by (by rewrite (resolve_cwd w w1 _ C1)).
  by rewrite O1.
Qed.

(** X24.  The manifest block of [package], for a package whose manifest is
    a file: the file is copied and stays where it is, with what it held,
    unless the copy in the staging area is that very file. *)
Theorem manifest_file_is_kept (env : Env) (self self' : Package.t) (path : string)
    (prototype prototype' : PrototypeFile.t) (staging : string) (w w' : World) :
  Package.manifest self = Some (Package.ManifestPath path) →
  path ≠ EmptyString →
  resolve w (join (join staging "etc/svc/profile") (basename path)) ≠ resolve w path →
  Package.attach_manifest env self prototype staging w = (Ok (self', prototype'), w') →
  ∃ c, read_file w path = Some c ∧ read_file w' path = Some c.
Proof.
  intros Hm Hpath Hne. unfold Package.attach_manifest, Package.has_manifest.
  rewrite Hm. destruct (String.eqb_spec path EmptyString) as [|_]; [done |].
  cbn [negb]. intros H.
  bind_as H rendered w1 Hrender. apply ret_Ok in Hrender as [-> ->].
  bind_as H there w2 Hthere. apply isdir_Ok in Hthere as [-> ->].
  bind_as H u1 w3 Hmk. bind_as H u2 w4 Hcopy. bind_as H u3 w5 Hrm.
  apply ret_Ok in Hrm as [_ ->].
  bind_as H l1 w6 H1. apply lift_Ok in H1 as [_ ->].
  bind_as H p1 w7 H2. apply lift_Ok in H2 as [_ ->].
  bind_as H l2 w8 H3. apply lift_Ok in H3 as [_ ->].
  bind_as H p2 w9 H4. apply lift_Ok in H4 as [_ ->].
  bind_as H l3 w10 H5. apply lift_Ok in H5 as [_ ->].
  bind_as H p3 w11 H6. apply lift_Ok in H6 as [_ ->].
  apply ret_Ok in H as [_ ->]. destruct u1, u2.
  assert (Hw3 : isdir_in w3 (join staging "etc/svc/profile") = true
                ∧ cwd w3 = cwd w ∧ read_file w3 path = read_file w path).
  { apply when_Ok in Hmk as [[Hno Hmk] | [Hyes ->]].
    - apply os_makedirs_Ok in Hmk as (Hdir & Hcwd & Hkeep). by rewrite Hkeep.
    - apply negb_false_iff in Hyes. done. }
  destruct Hw3 as (Hdir & Hcwd & Hkeep).
  destruct (shutil_copy_into_dir env path _ w3 w4 Hdir Hcopy) as (c & Hc & _).
  destruct (shutil_copy_other env path _ w3 w4 path Hdir Hcopy) as [_ Hsame].
  { rewrite !(resolve_cwd w w3) by done. congruence. }
  exists c. rewrite <- Hkeep. split; [exact Hc | by rewrite Hsame].
Qed.

(** [foo.xml] beside [foo-2.3.tar.gz] is still there when the manifest
    block is through. *)
Lemma manifest_file_is_kept_witness :
  ∃ self' prototype w',
    Package.attach_manifest (demo_env "foo" 0 0)
      (Package.mk "foo-2.3.tar.gz" "foo-2.3" "foo" "foo" "2.3"
                  (Some (Package.ManifestPath "/work/foo.xml")))
      PrototypeFile.__init__ "/tmp/pkg-staging"
      (xml_world "foo-2.3.tar.gz" "foo.xml") = (Ok (self', prototype), w')
    ∧ read_file w' "/work/foo.xml" = Some "<service_bundle/>".
Proof.
  destruct (Package.attach_manifest (demo_env "foo" 0 0)
              (Package.mk "foo-2.3.tar.gz" "foo-2.3" "foo" "foo" "2.3"
                          (Some (Package.ManifestPath "/work/foo.xml")))
              PrototypeFile.__init__ "/tmp/pkg-staging"
              (xml_world "foo-2.3.tar.gz" "foo.xml"))
    as [[[self' prototype]|e] w'] eqn:Ha; [| vm_compute in Ha; discriminate Ha].
  exists self', prototype, w'. split; [reflexivity |].
  destruct (manifest_file_is_kept (demo_env "foo" 0 0)
              (Package.mk "foo-2.3.tar.gz" "foo-2.3" "foo" "foo" "2.3"
                          (Some (Package.ManifestPath "/work/foo.xml")))
              self' "/work/foo.xml"
              PrototypeFile.__init__ prototype "/tmp/pkg-staging"
              (xml_world "foo-2.3.tar.gz" "foo.xml") w' eq_refl)
    as (c & Hc & Hc'); [discriminate | by vm_compute | exact Ha |].
  vm_compute in Hc. injection Hc as <-. exact Hc'.
Defined.

(** ** [GooglePerftools]: the stages that are left *)

(** X25.  The stages of a [GooglePerftools] package are: the change into
    the directory of the sources, [configure], [build] and [package].
    Nothing is cleaned, unpacked or committed before, whether [git] is
    installed or not, and without that directory the run ends with the
    [OSError] of [chdir] before anything is started. *)
Theorem perftools_stages (env : Env) (self : Package.t) (w : World) :
  Package.stages env (GooglePerftools.methods env) self w
  = if isdir_in w (Package.base self)
    then (Package.default_configure env self ;;
          Package.default_build env self ;;
          Package.package env (GooglePerftools.methods env) self)
           (with_cwd (join (cwd w) (Package.base self)) w)
    else (Raise (OSError "chdir"), w).
Proof.
  unfold Package.stages.
  cbn [Package.clean Package.unpack Package.prepare Package.configure Package.build
       Package.ignore_products GooglePerftools.methods].
  unfold GooglePerftools.clean, GooglePerftools.unpack, GooglePerftools.prepare,
    GooglePerftools.ignore_products.
  unfold bind at 1 2 3. unfold ret at 1 2. unfold os_chdir at 1.
  destruct (isdir_in w (Package.base self)); [| reflexivity].
  set (w1 := with_cwd (join (cwd w) (Package.base self)) w).
  unfold bind, isfile, when, ret.
  destruct (isfile_in w1 "/usr/bin/git");
    destruct (Package.default_configure env self w1) as [[[]|e1] w2]; try reflexivity;
    destruct (Package.default_build env self w2) as [[[]|e2] w3]; try reflexivity;
    destruct (isfile_in w3 "/usr/bin/git"); reflexivity.
Qed.

(** ** The [configure] stage of the classes *)

(** The [configure] methods: the one of [Package] and the ones that
    override it. *)
Definition configure_methods (env : Env) : list (Package.t → M unit) :=
  [Package.default_configure env; Apcupsd.configure env; BerkeleyDB.configure env;
   Ngircd.configure env; Dovecot.configure env; Glib.configure env].

Lemma shell_stage_cases env args w r w' :
  (CommandLineApp.shell env args ;; ret tt) w = (r, w') →
  started w' = started w ++ [args]
  ∧ (r = Ok tt ∨ r = Raise (CommandFailed args)).
Proof.
  intros H. apply bind_cases in H as [(e & H & ->) | (b & w1 & H & Hr)].
  - apply shell_cases in H as [-> [[=] | [= ->]]]. auto.
  - apply shell_cases in H as [Hs _]. injection Hr as <- <-. auto.
Qed.

(** X26.  Whatever the class, [configure] starts one process, the
    configure script of the sources with the prefix [/usr] and the
    configuration directory [/etc] as its first two arguments; only the
    one of [BerkeleyDB] may fail before that, for its [chdir], and then it
    starts nothing. *)
Theorem configure_prefix (env : Env) (configure : Package.t → M unit)
    (self : Package.t) (w w' : World) (r : result unit) :
  In configure (configure_methods env) →
  configure self w = (r, w') →
  (configure = BerkeleyDB.configure env
   ∧ isdir_in w "build_unix" = false
   ∧ r = Raise (OSError "chdir") ∧ w' = w)
  ∨ ∃ script extra,
      started w'
      = started w ++ [script :: "--prefix=/usr" :: "--sysconfdir=/etc" :: extra]
      ∧ (r = Ok tt
         ∨ r = Raise (CommandFailed
                        (script :: "--prefix=/usr" :: "--sysconfdir=/etc" :: extra))).
Proof.
  intros Hin H. cbn [configure_methods In] in Hin.
  destruct Hin as [<- | [<- | [<- | [<- | [<- | [<- | []]]]]]].
  - right. apply shell_stage_cases in H as [Hs Hr]. by exists "./configure", [].
  - right. apply shell_stage_cases in H as [Hs Hr].
    by exists "./configure", ["--enable-usb"].
  - unfold BerkeleyDB.configure in H.
    apply bind_cases in H as [(e & H & ->) | ([] & w1 & Hcd & H)].
    + left. unfold os_chdir in H. destruct (isdir_in w "build_unix"); [done |].
      by injection H as <- <-.
    + right. apply shell_stage_cases in H as [Hs Hr].
      exists "../dist/configure", []. split; [| exact Hr]. rewrite Hs.
      unfold os_chdir in Hcd. destruct (isdir_in w "build_unix"); [| done].
      by injection Hcd as <-.
  - right. apply shell_stage_cases in H as [Hs Hr].
    by exists "./configure", ["--without-devpoll"].
  - right. apply shell_stage_cases in H as [Hs Hr].
    by exists "./configure", ["--localstatedir=/var"].
  - right. apply shell_stage_cases in H as [Hs Hr].
    by exists "./configure", ["--disable-dtrace"; "LIBS=-lsocket -lnsl"].
Qed.

(** The sources of Berkeley DB without [build_unix]: [configure] starts
    nothing. *)
Lemma configure_prefix_witness :
  BerkeleyDB.configure (demo_env "db" 0 0) foo_package demo_world
  = (Raise (OSError "chdir"), demo_world).
Proof.
  destruct (BerkeleyDB.configure (demo_env "db" 0 0) foo_package demo_world)
    as [r w'] eqn:H.
  destruct (configure_prefix (demo_env "db" 0 0) (BerkeleyDB.configure (demo_env "db" 0 0))
              foo_package demo_world w' r)
    as [(_ & _ & -> & ->) | (script & extra & Hs & _)].
  - cbn [configure_methods In]. auto.
  - exact H.
  - reflexivity.
  - vm_compute in H. injection H as _ <-. discriminate Hs.
Defined.

(** ** [main] when no package was made *)

(** X27.  When the stages end without an exception and there is no file
    [<base>.pkg] in [TMPDIR] afterwards, [main] returns as if all were
    well: it raises nothing, and it copies and removes nothing, so the
    log, the sources and whatever the stages made are left as they are. *)
Theorem main_without_package (env : Env) (m : Package.methods)
    (self self' : Package.t) (w w0 w1 w2 : World) :
  write_file env (Package.name self +:+ ".log") EmptyString w = (Ok tt, w0) →
  Package.stages env m self w0 = (Ok self', w1) →
  os_chdir (cwd w) w1 = (Ok tt, w2) →
  isfile_in w2 (join TMPDIR (Package.base self' +:+ ".pkg")) = false →
  Package.main env m self w = (Ok tt, w2).
Proof.
  intros Hlog Hstages Hcd Hfile. unfold Package.main.
  rewrite (bind_step getcwd _ w (cwd w) w) by reflexivity.
  rewrite (bind_step _ _ w (Package.name self +:+ ".log") w)
    by (unfold lift; by rewrite (fmt_one EmptyString ".log")).
  rewrite (bind_step _ _ w tt w0) by exact Hlog.
  rewrite (bind_step _ _ w0 self' w2) by (unfold finally; by rewrite Hstages, Hcd).
  rewrite (bind_step _ _ w2 (Package.base self' +:+ ".pkg") w2)
    by (unfold lift; by rewrite (fmt_one EmptyString ".pkg")).
  rewrite (bind_step _ _ w2 false w2) by (unfold isfile; by rewrite Hfile).
  reflexivity.
Qed.

(** A system on which [pkgtrans] leaves nothing behind. *)
Definition no_package_env : Env :=
  mkEnv
    (λ args cwd t,
       match args with
       | ["make"; _; _; "install"] => (0%Z, demo_stage "foo" t)
       | _ => (0%Z, t)
       end)
    (run_reader (demo_env "foo" 0 0))
    (run_pipe (demo_env "foo" 0 0))
    (Stat 0 0 dir_mode)
    (Stat 0 0 file_mode).

Lemma main_without_package_witness :
  ∃ w', Package.main no_package_env (Package.default_methods no_package_env)
          foo_package demo_world = (Ok tt, w')
        ∧ isfile_in w' "foo.log" = true
        ∧ isdir_in w' "foo-2.3" = true.
Proof.
  destruct (write_file no_package_env (Package.name foo_package +:+ ".log")
              EmptyString demo_world) as [[[]|e0] w0] eqn:Hlog;
    [| vm_compute in Hlog; discriminate Hlog].
  destruct (Package.stages no_package_env (Package.default_methods no_package_env)
              foo_package w0) as [[self'|e1] w1] eqn:Hstages;
    [| vm_compute in Hlog; injection Hlog as <-;
       vm_compute in Hstages; discriminate Hstages].
  destruct (os_chdir (cwd demo_world) w1) as [[[]|e2] w2] eqn:Hcd;
    [| vm_compute in Hlog; injection Hlog as <-;
       vm_compute in Hstages; injection Hstages as _ <-;
       vm_compute in Hcd; discriminate Hcd].
  assert (Hfacts : isfile_in w2 (join TMPDIR (Package.base self' +:+ ".pkg")) = false
                   ∧ isfile_in w2 "foo.log" = true ∧ isdir_in w2 "foo-2.3" = true).
  { vm_compute in Hlog. injection Hlog as <-.
    vm_compute in Hstages. injection Hstages as <- <-.
    vm_compute in Hcd. injection Hcd as <-. by vm_compute. }
  destruct Hfacts as (Hnone & Hl & Hd).
  exists w2. split; [| done].
  exact (main_without_package _ _ _ _ _ _ _ _ Hlog Hstages Hcd Hnone).
Defined.

(** ** [ignore_products]: the lines of [.gitignore] *)

Lemma proper_anchored l : proper l → proper (map (λ line, "/" +:+ line) l).
Proof.
  induction l as [|x rest IH]; [done |]. intros [Hx Hrest]. cbn [map proper].
  split; [| by apply IH].
  destruct Hx as [(body & -> & Hb) | [[Hne Hb] ->]].
  - left. exists ("/" +:+ body). split; [reflexivity |].
    by rewrite has_newline_app, Hb.
  - right. split; [| done]. split; [done |]. by rewrite has_newline_app, Hb.
Qed.

(** X28.  [ignore_products] writes to [.gitignore] what [git ls-files]
    prints, with a slash before each line: the files that the build has
    made, one pattern a line, each anchored at the root of the sources. *)
Theorem ignore_products_lines (env : Env) (self : Package.t) (w w' : World) :
  Package.default_ignore_products env self w = (Ok tt, w') →
  ∃ lines w1 new,
    CommandLineApp.mkreader env ["git"; "ls-files"; "--other"; "--exclude-standard"] w
    = (Ok lines, w1)
    ∧ read_file w' ".gitignore" = Some new
    ∧ new = String.concat EmptyString (map (λ line, "/" +:+ line) lines)
    ∧ (proper lines → readlines new = map (λ line, "/" +:+ line) lines).
Proof.
  unfold Package.default_ignore_products. intros H.
  bind_as H lines w1 Hlines.
  apply write_file_read in H as (Hread & _).
  exists lines, w1. eexists. split; [exact Hlines |]. split; [exact Hread |].
  split; [reflexivity |]. intros Hp. apply readlines_of_lines.
  by apply proper_anchored.
Qed.

(** A build that has made [foo] and [foo.o]. *)
Definition products_env : Env :=
  mkEnv
    (run_cmd (demo_env "foo" 0 0))
    (λ args cwd t, (["foo" +:+ nl; "foo.o" +:+ nl], 0%Z, t))
    (run_pipe (demo_env "foo" 0 0))
    (Stat 0 0 dir_mode)
    (Stat 0 0 file_mode).

Lemma ignore_products_lines_witness :
  ∃ w' new,
    Package.default_ignore_products products_env foo_package demo_world = (Ok tt, w')
    ∧ read_file w' ".gitignore" = Some new
    ∧ readlines new = ["/foo" +:+ nl; "/foo.o" +:+ nl].
Proof.
  destruct (Package.default_ignore_products products_env foo_package demo_world)
    as [[[]|e] w'] eqn:H; [| vm_compute in H; discriminate H].
  destruct (ignore_products_lines _ _ _ _ H) as (lines & w1 & new & Hl & Hread & _ & Hp).
  exists w', new. split; [reflexivity |]. split; [exact Hread |].
  vm_compute in Hl. injection Hl as <- _. rewrite Hp; [reflexivity |].
  split; [left; by exists "foo" |]. split; [left; by exists "foo.o" | done].
Defined.

(** ** External commands that fail, in every class *)


Section Propagation.
Variable env : Env.














































End Propagation.





